(** * acq164ioc: the ACQ164 asyn port driver

    A shallow embedding of [acq164App/src/acq164AsynPortDriver.cpp]:
    the asyn port driver ([acq164AsynPortDriver]) and the frame handler
    that feeds it ([Acq164Device]).

    Conventions.
    - A C [int] is a [Z]; arithmetic that can leave the 32-bit range is
      written with its two's-complement wrap-around ([wrap_int]).
    - A C [double] is a binary64 [float] (the kernel's primitive floats).
    - A member function is a computation in the monad [M]: it takes the
      object ([device]) and either returns a value and the updated object,
      ends the process ([exit], [assert]), or has no defined behaviour
      (division by zero, a read of an uninitialised variable, a read past
      the end of an array).
    - Everything the driver sends to the outside (printf, asyn callbacks,
      commands to the card) is put on [trace], newest first, and so is
      every store into the waveform buffer.
    - The debug printf lines guarded by [verbose] are left out: [verbose]
      is set from ACQ164DEVICE_VERBOSE and is not initialised otherwise,
      so nothing below says what these lines put on standard output. *)

From Stdlib Require Import ZArith QArith Qpower Qabs Floats String.
From stdpp Require Import gmap list.

Open Scope Z_scope.

(** ** C integers *)

Module CInt.

Definition INT_MAX : Z := 2147483647.
Definition INT_MIN : Z := -2147483648.

(** Two's-complement reduction of a mathematical integer to [int]. *)
Definition wrap_int (z : Z) : Z := (z + 2 ^ 31) mod 2 ^ 32 - 2 ^ 31.

Definition int_add (a b : Z) : Z := wrap_int (a + b).
Definition int_mul (a b : Z) : Z := wrap_int (a * b).

(** [a / b] on [int]: truncation towards zero; no value when the divisor
    is zero or the quotient is not representable. *)
Definition c_div (a b : Z) : option Z :=
  if b =? 0 then None
  else if (a =? INT_MIN) && (b =? -1) then None
  else Some (Z.quot a b).

(** Conversion of an [int] to [size_t] (64 bits). *)
Definition size_t_of_int (z : Z) : Z := z mod 2 ^ 64.

End CInt.
Import CInt.

(** ** Arithmetic of the calibration

    The calibration formulas are written over the operations they use;
    the driver computes them on [double], that is in binary64. *)

Class Arith (R : Type) := {
  r_add : R -> R -> R;
  r_sub : R -> R -> R;
  r_mul : R -> R -> R;
  r_div : R -> R -> R;
  r_of_int : Z -> R
}.

(** [(double)z] for |z| < 2^63. *)
Definition float_of_Z (z : Z) : float :=
  match z with
  | Z0 => PrimFloat.zero
  | Zpos _ => PrimFloat.of_uint63 (Uint63.of_Z z)
  | Zneg _ => PrimFloat.opp (PrimFloat.of_uint63 (Uint63.of_Z (- z)))
  end.

#[global] Instance Arith_float : Arith float := {
  r_add := PrimFloat.add;
  r_sub := PrimFloat.sub;
  r_mul := PrimFloat.mul;
  r_div := PrimFloat.div;
  r_of_int := float_of_Z
}.

(** [int X1 = -(1<<23); int X2 = 1<<23;] *)
Definition X1 : Z := - Z.shiftl 1 23.
Definition X2 : Z := Z.shiftl 1 23.

Section Calibration.
Context {R : Type} `{Arith R}.

(** [double ESLO = (Y2-Y1)/(X2-X1);]  ([X2-X1] is an [int], 1<<24). *)
Definition cal_ESLO (Y1 Y2 : R) : R :=
  r_div (r_sub Y2 Y1) (r_of_int (int_add X2 (- X1))).

(** [double EOFF = Y1 - X1*ESLO;] *)
Definition cal_EOFF (Y1 Y2 : R) : R :=
  r_sub Y1 (r_mul (r_of_int X1) (cal_ESLO Y1 Y2)).

(** [double volts = eslo[ic]*yy + eoff[ic];] *)
Definition calibrate (ESLO EOFF : R) (yy : Z) : R :=
  r_add (r_mul ESLO (r_of_int yy)) EOFF.

End Calibration.

(** ** Binary64 numbers as rationals

    The error of the calibration is stated over the rationals the
    binary64 numbers stand for, and proved over integers: every number
    met is an integer multiple of 2^-2200. *)

(** The rational a binary64 number stands for (0 for infinities and
    NaN). *)
Definition SF2Q (x : spec_float) : Q :=
  match x with
  | S754_finite s m e => (inject_Z (cond_Zopp s (Zpos m)) * (2 # 1) ^ e)%Q
  | _ => 0%Q
  end.

Definition float_value (x : float) : Q := SF2Q (Prim2SF x).

Definition SFfinite (x : spec_float) : bool :=
  match x with
  | S754_finite _ _ _ | S754_zero _ => true
  | _ => false
  end.

(** Neither an infinity nor NaN. *)
Definition finite_float (x : float) : bool := SFfinite (Prim2SF x).

(** How far from the ends of a range the calibration may map the ends
    of the raw-code domain: 2^-49 of the magnitudes of the range, and
    2^-1048 for ranges so small that results are subnormal. *)
Definition calibration_tolerance (Ymin Ymax : float) : Q :=
  ((Qabs (float_value Ymin) + Qabs (float_value Ymax)) * (1 # 2 ^ 49) + (1 # 2 ^ 1048))%Q.

(** Values are counted in units of 2^-2200. *)
Definition unit_exponent : Z := 2200.

Definition SFunits (x : spec_float) : Z :=
  match x with
  | S754_finite s m e => cond_Zopp s (Zpos m) * 2 ^ (e + unit_exponent)
  | _ => 0
  end.

Definition units (x : float) : Z := SFunits (Prim2SF x).

(** [z] units, as a rational. *)
Definition Qunits (z : Z) : Q := (inject_Z z / inject_Z (2 ^ unit_exponent))%Q.

(** In units: the smallest positive binary64 number, 2^-1074; the
    magnitude 2^1023 below which a result is finite; the magnitude
    2^1000 up to which a range is calibrated without overflow. *)
Definition least_positive : Z := 2 ^ (unit_exponent - 1074).
Definition overflow_limit : Z := 2 ^ (1023 + unit_exponent).
Definition range_limit : Z := 2 ^ (1000 + unit_exponent).

(** The mantissa of a power of two: 2^52. *)
Definition pow2_mantissa : positive := 4503599627370496.

(** [N], counted in units of 2^-t of the last place of [m], lies at [m]
    ([loc_Exact]) or between [m] and [m + 1]: below, at or above the
    middle. *)
Definition inbetween (m : Z) (l : location) (N t : Z) : Prop :=
  match l with
  | loc_Exact => N = m * 2 ^ t
  | loc_Inexact c =>
      m * 2 ^ t < N < (m + 1) * 2 ^ t /\ (2 * (N - m * 2 ^ t) ?= 2 ^ t) = c
  end.

(** The result of [binary_round_aux], as a mantissa and an exponent. *)
Definition SF_of (sx : bool) (m e : Z) : spec_float :=
  match m with
  | Zpos p => S754_finite sx p e
  | _ => S754_zero sx
  end.

(** ** The asyn parameter library, as the driver uses it *)

Inductive asynStatus :=
| asynSuccess
| asynError
| asynParamWrongType
| asynParamBadIndex
| asynParamUndefined.

Inductive asynParamType :=
| asynParamInt32
| asynParamFloat64
| asynParamFloat64Array.

(** Parameter indices, in the order of the constructor's [createParam]
    calls (asyn numbers parameters from 0 in creation order). *)
Definition P_Run : Z := 0.
Definition P_MaxPoints : Z := 1.
Definition P_NoiseAmplitude : Z := 2.
Definition P_UpdateTime : Z := 3.
Definition P_Waveform : Z := 4.
Definition P_Scalar : Z := 5.
Definition P_TimeBase : Z := 6.
Definition P_MinValue : Z := 7.
Definition P_MaxValue : Z := 8.
Definition P_MeanValue : Z := 9.
Definition P_ScanFreq : Z := 10.

Definition param_types : list asynParamType :=
  [ asynParamInt32; asynParamInt32; asynParamFloat64; asynParamFloat64;
    asynParamFloat64Array; asynParamFloat64; asynParamFloat64Array;
    asynParamFloat64; asynParamFloat64; asynParamFloat64; asynParamInt32 ].

Definition param_type (index : Z) : option asynParamType :=
  if index <? 0 then None else param_types !! Z.to_nat index.

Inductive pval :=
| PInt (z : Z)
| PDouble (d : float).

(** ** What the driver sends out *)

Inductive stream := stdout | stderr.

Inductive trace_mask := ASYN_TRACE_WARNING | ASYN_TRACEIO_DRIVER.

(** [enum STATE] comes from the acq2xx API headers, which are not among
    the sources; the driver names only [ST_STOP]. *)
Inductive STATE := ST_STOP | ST_ARM | ST_RUN | ST_TRIGGER | ST_POSTPROCESS | ST_CAPDONE.

Inductive arg :=
| ArgS (s : string)
| ArgI (z : Z)
| ArgF (d : float)
| ArgState (st : STATE)
| ArgStatus (st : asynStatus).

Inductive event :=
| EvPrintf (fd : stream) (fmt : string) (args : list arg)
| EvAsynPrint (mask : trace_mask) (fmt : string) (args : list arg)
| EvErrorMessage (fmt : string) (args : list arg)
| EvEventSignal
| EvParamCallbacks (list : Z)
| EvFloat64Array (data : list float) (reason addr : Z)
| EvStore (ic idx : Z)
| EvAcq2sh (cmd : string)
| EvAcqcmd (cmd : string)
| EvAddFrameHandler
| EvStreamData.

(** *** Reading a trace

    A trace is kept newest first; these give the events of one kind in
    the order they happened. *)

(** The stores into [pData_]: (channel whose loop made it, index). *)
Definition stores (tr : list event) : list (Z * Z) :=
  omap (fun e => match e with EvStore ic idx => Some (ic, idx) | _ => None end) (rev tr).

(** The address lists of the array callbacks made for [reason]. *)
Definition array_callbacks (reason : Z) (tr : list event) : list Z :=
  omap (fun e => match e with
                 | EvFloat64Array _ r addr => if r =? reason then Some addr else None
                 | _ => None
                 end) (rev tr).

(** What was printed on a stream. *)
Definition printed (fd : stream) (tr : list event) : list (string * list arg) :=
  omap (fun e => match e with
                 | EvPrintf stdout fmt args =>
                     match fd with stdout => Some (fmt, args) | stderr => None end
                 | EvPrintf stderr fmt args =>
                     match fd with stderr => Some (fmt, args) | stdout => None end
                 | _ => None
                 end) (rev tr).

(** The commands sent to the card. *)
Definition commands (tr : list event) : list string :=
  omap (fun e => match e with
                 | EvAcq2sh cmd | EvAcqcmd cmd => Some cmd
                 | _ => None
                 end) (rev tr).

(** The address lists for which the parameter callbacks were called. *)
Definition param_callbacks (tr : list event) : list Z :=
  omap (fun e => match e with EvParamCallbacks list => Some list | _ => None end) (rev tr).

(** Whether the streaming loop was entered. *)
Definition streaming_entered (tr : list event) : bool :=
  existsb (fun e => match e with EvStreamData => true | _ => false end) tr.

(** Channel [ic] owns the cells [ic*maxPoints .. (ic+1)*maxPoints - 1]. *)
Definition in_segment (maxPoints : Z) (w : Z * Z) : Prop :=
  w.1 * maxPoints <= w.2 < (w.1 + 1) * maxPoints.

(** The store lands within a buffer of [cells] cells. *)
Definition in_allocation (cells : Z) (w : Z * Z) : Prop := 0 <= w.2 < cells.

(** The stores that land outside a buffer of [cells] cells. *)
Definition stores_beyond (cells : Z) (tr : list event) : list (Z * Z) :=
  List.filter (fun w => negb ((0 <=? w.2) && (w.2 <? cells))) (stores tr).

(** ** The rolling accumulator

    [acc] is a member whose class is declared in the driver's header,
    which is not among the sources.  The frame handler is written over
    its operations. *)

Class Accumulator := {
  Acc : Type;
  acc_new : Z -> Acc;
  acc_set : Z -> float -> Acc -> Acc;
  acc_update_timestamp : Z -> Acc -> bool * Acc;
  acc_get : Z -> Acc -> float;
  acc_clear : Acc -> Acc
}.

(** ** Frames and the card *)

(** A [ConcreteFrame<int>]: [getChannel(k)] is [channels !! (k-1)].  The
    frames handed to [onFrame] are taken to be of this class (the
    [dynamic_cast] succeeds). *)
Record Frame := {
  startSampleNumber : Z;
  channels : list (list Z)
}.

Record acq2xx_VRange := { vmin : float; vmax : float }.

(** The card as the driver sees it: the state [getState] reports ([None]
    when the call does not return STATUS_OK) and the array
    [getChannelRanges] fills (entry [k] is channel [k]; entry 0 is not
    used). *)
Record Acq2xx := {
  card_state : option STATE;
  card_ranges : list acq2xx_VRange
}.

(** ** Results of a computation *)

Inductive result (S A : Type) :=
| Ok (a : A) (s : S)
| Exited (code : Z) (s : S)
| Aborted (s : S)
| Undefined.
Arguments Ok {S A} a s.
Arguments Exited {S A} code s.
Arguments Aborted {S A} s.
Arguments Undefined {S A}.

Definition state_of {S A} (r : result S A) : option S :=
  match r with
  | Ok _ s | Exited _ s | Aborted s => Some s
  | Undefined => None
  end.

(** ** What the sources leave open

    [FRAME_SAMPLES] and [NSPS] are macros of the acq2xx API and of the
    driver's header; neither file is among the sources.
    [callbacks_status] is the status asyn's callback dispatch reports for
    an address list, [param_name] the name [getParamName] reports for a
    parameter (the header's strings). *)

Class Platform := {
  FRAME_SAMPLES : Z;
  NSPS : Z;
  callbacks_status : Z -> asynStatus;
  param_name : Z -> string
}.

(** ** The driver object *)

Section Driver.
Context `{Accumulator} `{Platform}.

Definition NUM_DIVISIONS : Z := 10.

(** [#define MIN_UPDATE_TIME 0.02]: the binary64 nearest to 0.02. *)
Definition MIN_UPDATE_TIME : float := 0x1.47ae147ae147bp-6%float.

Definition driverName : string := "acq164AsynPortDriver".

Record device := {
  nchan : Z;
  (** the cells of [pData_], by offset from its start; a cell never
      written holds calloc's 0.0 *)
  pData_ : gmap Z float;
  pTimeBase_ : list float;
  (** the parameter library: (address list, index) to value *)
  params : gmap (Z * Z) pval;
  acc : Acc;
  cursor : Z;
  eslo : list float;
  eoff : list float;
  trace : list event
}.

Definition with_pData (d : gmap Z float) (s : device) : device :=
  {| nchan := nchan s; pData_ := d; pTimeBase_ := pTimeBase_ s;
     params := params s; acc := acc s; cursor := cursor s;
     eslo := eslo s; eoff := eoff s; trace := trace s |}.

Definition with_params (p : gmap (Z * Z) pval) (s : device) : device :=
  {| nchan := nchan s; pData_ := pData_ s; pTimeBase_ := pTimeBase_ s;
     params := p; acc := acc s; cursor := cursor s;
     eslo := eslo s; eoff := eoff s; trace := trace s |}.

Definition with_acc (a : Acc) (s : device) : device :=
  {| nchan := nchan s; pData_ := pData_ s; pTimeBase_ := pTimeBase_ s;
     params := params s; acc := a; cursor := cursor s;
     eslo := eslo s; eoff := eoff s; trace := trace s |}.

Definition with_cursor (c : Z) (s : device) : device :=
  {| nchan := nchan s; pData_ := pData_ s; pTimeBase_ := pTimeBase_ s;
     params := params s; acc := acc s; cursor := c;
     eslo := eslo s; eoff := eoff s; trace := trace s |}.

Definition with_cal (el eo : list float) (s : device) : device :=
  {| nchan := nchan s; pData_ := pData_ s; pTimeBase_ := pTimeBase_ s;
     params := params s; acc := acc s; cursor := cursor s;
     eslo := el; eoff := eo; trace := trace s |}.

Definition with_trace (t : list event) (s : device) : device :=
  {| nchan := nchan s; pData_ := pData_ s; pTimeBase_ := pTimeBase_ s;
     params := params s; acc := acc s; cursor := cursor s;
     eslo := eslo s; eoff := eoff s; trace := t |}.

(** *** The monad of member functions *)

Definition M (A : Type) : Type := device -> result device A.

#[global] Instance M_ret : MRet M := fun A a s => Ok a s.

#[global] Instance M_bind : MBind M := fun A B f m s =>
  match m s with
  | Ok a s' => f a s'
  | Exited c s' => Exited c s'
  | Aborted s' => Aborted s'
  | Undefined => Undefined
  end.

Definition gets {A} (f : device -> A) : M A := fun s => Ok (f s) s.
Definition modify (f : device -> device) : M unit := fun s => Ok tt (f s).
Definition log (e : event) : M unit := modify (fun s => with_trace (e :: trace s) s).

(** [exit(code)], a failed [assert], and behaviour C does not define. *)
Definition exit {A} (code : Z) : M A := fun s => Exited code s.
Definition assert_fail {A} : M A := fun s => Aborted s.
Definition undefined {A} : M A := fun _ => Undefined.

Definition of_option {A} (o : option A) : M A :=
  match o with
  | Some a => mret a
  | None => undefined
  end.

(** [for (i = i0; ...; ++i) body], [n] iterations, with the loop's local
    variables threaded as [l]. *)
Fixpoint for_loop {L} (n : nat) (i : Z) (body : Z -> L -> M L) (l : L) : M L :=
  match n with
  | O => mret l
  | S n' => l' ← body i l; for_loop n' (i + 1) body l'
  end.

(** *** The parameter library *)

Definition asynParamType_eqb (a b : asynParamType) : bool :=
  match a, b with
  | asynParamInt32, asynParamInt32
  | asynParamFloat64, asynParamFloat64
  | asynParamFloat64Array, asynParamFloat64Array => true
  | _, _ => false
  end.

(** asyn keeps at least one address list. *)
Definition valid_list (s : device) (list : Z) : bool :=
  (0 <=? list) && (list <? Z.max 1 (nchan s)).

Definition set_param (ty : asynParamType) (list index : Z) (v : pval)
    (s : device) : asynStatus * device :=
  if negb (valid_list s list) then (asynParamBadIndex, s)
  else match param_type index with
       | None => (asynParamBadIndex, s)
       | Some ty' =>
           if asynParamType_eqb ty ty'
           then (asynSuccess, with_params (<[(list, index) := v]> (params s)) s)
           else (asynParamWrongType, s)
       end.

Definition setIntegerParam (list index value : Z) : M asynStatus :=
  fun s => let '(st, s') := set_param asynParamInt32 list index (PInt value) s in Ok st s'.

Definition setDoubleParam (list index : Z) (value : float) : M asynStatus :=
  fun s => let '(st, s') := set_param asynParamFloat64 list index (PDouble value) s in Ok st s'.

Definition getIntegerParam (list index : Z) (s : device) : option Z :=
  match params s !! (list, index) with
  | Some (PInt z) => Some z
  | _ => None
  end.

Definition getDoubleParam (list index : Z) (s : device) : option float :=
  match params s !! (list, index) with
  | Some (PDouble d) => Some d
  | _ => None
  end.

(** [int v; getIntegerParam(index, &v);] followed by a use of [v]: when
    the parameter has no value the library leaves [v] uninitialised. *)
Definition load_int (index : Z) : M Z :=
  fun s => match getIntegerParam 0 index s with
           | Some z => Ok z s
           | None => Undefined
           end.

Definition callParamCallbacks (list : Z) : M asynStatus :=
  log (EvParamCallbacks list);; mret (callbacks_status list).

(** [doCallbacksFloat64Array(pData_+ix0, n, reason, addr)]: the
    subscribers get the [n] cells from [ix0] on. *)
Definition doCallbacksFloat64Array (ix0 n reason addr : Z) : M unit :=
  d ← gets pData_;
  log (EvFloat64Array (map (fun k => default PrimFloat.zero (d !! (ix0 + k))) (seqZ 0 n))
         reason addr).

(** *** Construction *)

Definition time_base_at (maxPoints i : Z) : float :=
  PrimFloat.mul
    (PrimFloat.div (float_of_Z i) (float_of_Z (int_add maxPoints (-1))))
    (float_of_Z NUM_DIVISIONS).

(** [for (i=0; i<maxPoints; i++) pTimeBase_[i] = ...] on the calloc'ed
    array. *)
Fixpoint fill_time_base (n : nat) (i maxPoints : Z) (tb : list float) : list float :=
  match n with
  | O => tb
  | S n' => fill_time_base n' (i + 1) maxPoints (<[Z.to_nat i := time_base_at maxPoints i]> tb)
  end.

Definition init_params (maxPoints : Z) (s : device) : device :=
  let s := snd (set_param asynParamInt32 0 P_MaxPoints (PInt maxPoints) s) in
  let s := snd (set_param asynParamInt32 0 P_Run (PInt 0) s) in
  let s := snd (set_param asynParamFloat64 0 P_UpdateTime (PDouble 0.5%float) s) in
  let s := snd (set_param asynParamFloat64 0 P_NoiseAmplitude (PDouble 0x1.999999999999ap-4%float) s) in
  let s := snd (set_param asynParamFloat64 0 P_MinValue (PDouble 0%float) s) in
  let s := snd (set_param asynParamFloat64 0 P_MaxValue (PDouble 0x1.a666666666666p+1%float) s) in
  snd (set_param asynParamFloat64 0 P_MeanValue (PDouble 0%float) s).

(** The constructor of [acq164AsynPortDriver] followed by the one of
    [Acq164Device] ([cursor(0)]); both allocations are taken to succeed.
    The thread the constructor starts runs [task]. *)
Definition Acq164Device (maxArraySize _nchan : Z) : device :=
  let maxPoints := if maxArraySize <? 1 then 100 else maxArraySize in
  let n := Z.to_nat maxPoints in
  init_params maxPoints
    {| nchan := _nchan;
       pData_ := ∅;
       pTimeBase_ := fill_time_base n 0 maxPoints (replicate n PrimFloat.zero);
       params := ∅;
       acc := acc_new _nchan;
       cursor := 0;
       eslo := [];
       eoff := [];
       trace := [] |}.

(** [pData_ = calloc(maxPoints*nchan, sizeof(epicsFloat64))]: the number
    of cells of the waveform buffer.  A store at or past it is a write
    outside the buffer; where it lands is left to the allocator. *)
Definition pData_cells (maxArraySize _nchan : Z) : Z :=
  let maxPoints := if maxArraySize <? 1 then 100 else maxArraySize in
  size_t_of_int (int_mul maxPoints _nchan).

(** *** Writes and reads by asyn clients *)

(** The closing report of the write and read methods: the error message
    left in [pasynUser] on failure, a driver-level trace otherwise. *)
Definition report (status : asynStatus) (fmt_err fmt_ok : string)
    (functionName : string) (args : list arg) : M unit :=
  match status with
  | asynSuccess =>
      log (EvAsynPrint ASYN_TRACEIO_DRIVER fmt_ok
             (ArgS driverName :: ArgS functionName :: args))
  | _ =>
      log (EvErrorMessage fmt_err
             (ArgS driverName :: ArgS functionName :: ArgStatus status :: args))
  end.

Definition writeInt32 (function value : Z) : M asynStatus :=
  _ ← setIntegerParam 0 function value;
  (if function =? P_Run
   then (if value =? 0 then mret tt else log EvEventSignal)
   else mret tt);;
  status ← callParamCallbacks 0;
  report status
    "%s:%s: status=%d, function=%d, name=%s, value=%d"
    "%s:%s: function=%d, name=%s, value=%d\n"
    "writeInt32" [ArgI function; ArgS (param_name function); ArgI value];;
  mret status.

Definition writeFloat64 (function : Z) (value : float) : M asynStatus :=
  _ ← setDoubleParam 0 function value;
  value ← (if function =? P_UpdateTime
           then
             value ← (if PrimFloat.ltb value MIN_UPDATE_TIME
                      then
                        log (EvAsynPrint ASYN_TRACE_WARNING
                               "%s:%s: warning, update time too small, changed from %f to %f\n"
                               [ArgS driverName; ArgS "writeFloat64"; ArgF value; ArgF MIN_UPDATE_TIME]);;
                        _ ← setDoubleParam 0 P_UpdateTime MIN_UPDATE_TIME;
                        mret MIN_UPDATE_TIME
                      else mret value);
             run ← load_int P_Run;
             (if run =? 0 then mret tt else log EvEventSignal);;
             mret value
           else mret value);
  status ← callParamCallbacks 0;
  report status
    "%s:%s: status=%d, function=%d, name=%s, value=%f"
    "%s:%s: function=%d, name=%s, value=%f\n"
    "writeFloat64" [ArgI function; ArgS (param_name function); ArgF value];;
  mret status.

(** [memcpy(dst, src, n*sizeof(double))] on arrays of doubles; no defined
    behaviour when [n] exceeds either array. *)
Definition memcpy (dst src : list float) (n : Z) : option (list float) :=
  if (n <=? Z.of_nat (length src)) && (n <=? Z.of_nat (length dst))
  then Some (take (Z.to_nat n) src ++ drop (Z.to_nat n) dst)
  else None.

(** What a read leaves in the caller's hands: the status, the caller's
    array [value], and [*nIn] ([None] when the method did not assign it).
    The time stamp copied into [pasynUser] is not modelled. *)
Record read_result := {
  rd_status : asynStatus;
  rd_value : list float;
  rd_nIn : option Z
}.

Definition readFloat64Array (function : Z) (value : list float) (nElements : Z)
    : M read_result :=
  itemp ← load_int P_MaxPoints;
  let ncopy := size_t_of_int itemp in
  let ncopy := if nElements <? ncopy then nElements else ncopy in
  out ← (if function =? P_Waveform then assert_fail
         else if function =? P_TimeBase then
           tb ← gets pTimeBase_;
           v ← of_option (memcpy value tb ncopy);
           mret (v, Some ncopy)
         else mret (value, None));
  let status := asynSuccess in
  report status "%s:%s: status=%d, function=%d" "%s:%s: function=%d\n"
    "readFloat64Array" [ArgI function];;
  mret {| rd_status := status; rd_value := fst out; rd_nIn := snd out |}.

(** *** The frame handler *)

(** [card.getChannelRanges(ranges, nchan+1)] and the loop over channels;
    [eslo] and [eoff] are filled front to back.  The arrays are made
    with [new] for nchan+2 ranges and nchan coefficients: this is the
    function for [0 <= nchan]; for a negative [nchan], [new] throws. *)
Definition compute_cal (card : Acq2xx) : M unit :=
  n ← gets nchan;
  cal ← for_loop (Z.to_nat n) 0
           (fun ii (cal : list float * list float) =>
              r ← of_option (card_ranges card !! Z.to_nat (ii + 1));
              let Y1 := vmin r in
              let Y2 := vmax r in
              mret (fst cal ++ [cal_ESLO Y1 Y2], snd cal ++ [cal_EOFF Y1 Y2]))
           ([], []);
  modify (with_cal (fst cal) (snd cal)).

Definition STATE_eqb (a b : STATE) : bool :=
  match a, b with
  | ST_STOP, ST_STOP | ST_ARM, ST_ARM | ST_RUN, ST_RUN
  | ST_TRIGGER, ST_TRIGGER | ST_POSTPROCESS, ST_POSTPROCESS
  | ST_CAPDONE, ST_CAPDONE => true
  | _, _ => false
  end.

Definition setup (card : Acq2xx) : M unit :=
  match card_state card with
  | None =>
      log (EvPrintf stderr "ERROR: failed to get state\n" []);;
      exit 1
  | Some state =>
      if negb (STATE_eqb state ST_STOP) then
        log (EvPrintf stderr
               "card state:%d let it run, or abort if you want it to be reconfigured\n"
               [ArgState state])
      else
        log (EvAcq2sh "set.dtacq channel_mask 1");;
        log (EvAcq2sh "set.acq164.role MASTER 20");;
        log (EvAcqcmd "setMode SOFT_CONTINUOUS 1");;
        log (EvAcqcmd "setArm")
  end.

(** [get_maxPoints()] is declared in the driver's header, which is not
    among the sources; it is taken to read the [P_MaxPoints] parameter,
    as [readFloat64Array] does. *)
Definition get_maxPoints : M Z := load_int P_MaxPoints.

(** [pData_[idx] = volts;] in the loop of channel [ic]. *)
Definition store (ic idx : Z) (volts : float) : M unit :=
  modify (fun s => with_pData (<[idx := volts]> (pData_ s)) s);;
  log (EvStore ic idx).

(** One turn of the loop over [id]; [consecutive_zeros] is the loop's
    local counter. *)
Definition sample_step (cf : Frame) (ic ix0 : Z) (raw : list Z)
    (id consecutive_zeros : Z) : M Z :=
  yy ← of_option (raw !! Z.to_nat id);
  consecutive_zeros ←
    (if yy =? 0 then
       let consecutive_zeros := int_add consecutive_zeros 1 in
       if 60 <? consecutive_zeros then
         log (EvPrintf stdout "%s zeros detected at %lld\n"
                [ArgS "onFrame"; ArgI (startSampleNumber cf)]);;
         exit 1
       else mret consecutive_zeros
     else mret consecutive_zeros);
  el ← gets eslo;
  eo ← gets eoff;
  m ← of_option (el !! Z.to_nat ic);
  c ← of_option (eo !! Z.to_nat ic);
  let volts := calibrate m c yy in
  cur ← gets cursor;
  store ic (int_add (int_add ix0 cur) id) volts;;
  modify (fun s => with_acc (acc_set ic volts (acc s)) s);;
  mret consecutive_zeros.

(** One turn of the loop over [ic]. *)
Definition channel_step (cf : Frame) (maxPoints ic : Z) : M unit :=
  let ix0 := int_mul ic maxPoints in
  let raw := default [] (channels cf !! Z.to_nat ic) in
  _ ← for_loop (Z.to_nat FRAME_SAMPLES) 0 (sample_step cf ic ix0 raw) 0;
  mret tt.

Definition convert_frame (cf : Frame) (maxPoints : Z) : M unit :=
  n ← gets nchan;
  for_loop (Z.to_nat n) 0 (fun ic _ => channel_step cf maxPoints ic) tt.

(** [if (acc.update_timestamp(period)) { ... acc.clear(); }] *)
Definition flush (period : Z) : M unit :=
  a ← gets acc;
  let r := acc_update_timestamp period a in
  modify (with_acc (snd r));;
  if fst r then
    n ← gets nchan;
    for_loop (Z.to_nat n) 0
      (fun ic _ =>
         a ← gets acc;
         _ ← setDoubleParam ic P_Scalar (acc_get ic a);
         _ ← callParamCallbacks ic;
         mret tt) tt;;
    modify (fun s => with_acc (acc_clear (acc s)) s)
  else mret tt.

(** [if (cursor >= maxPoints) { ... cursor = 0; }] *)
Definition publish (cf : Frame) (maxPoints : Z) : M unit :=
  cur ← gets cursor;
  if maxPoints <=? cur then
    _ ← setDoubleParam 0 P_UpdateTime (float_of_Z (startSampleNumber cf));
    _ ← callParamCallbacks 0;
    n ← gets nchan;
    for_loop (Z.to_nat n) 0
      (fun ic _ =>
         let ix0 := int_mul ic maxPoints in
         doCallbacksFloat64Array ix0 maxPoints P_Waveform ic) tt;;
    modify (with_cursor 0)
  else mret tt.

Definition onFrame (cf : Frame) : M unit :=
  maxPoints ← get_maxPoints;
  convert_frame cf maxPoints;;
  modify (fun s => with_cursor (int_add (cursor s) FRAME_SAMPLES) s);;
  scan_freq ← load_int P_ScanFreq;
  period ← of_option (c_div NSPS scan_freq);
  flush period;;
  publish cf maxPoints.

(** Modelled from the spec: [DataStreamer::streamData] belongs to the
    acq2xx API, which is not among the sources.  Sections 4.5 and 5: each
    incoming frame is handed to the frame handler, strictly in arrival
    order, until the transport ends; a handler that ends the process ends
    the loop. *)
Fixpoint streamData (frames : list Frame) : M unit :=
  match frames with
  | [] => mret tt
  | cf :: rest => onFrame cf;; streamData rest
  end.

(** [frames] is what the transport delivers once the loop runs. *)
Definition task (card : Acq2xx) (frames : list Frame) : M unit :=
  compute_cal card;;
  setup card;;
  log EvAddFrameHandler;;
  log EvStreamData;;
  streamData frames.

(** *** Relations between the state before and after a call *)

(** [f] reads the same after as before. *)
Definition keeps {A} (f : device -> A) : relation device :=
  fun s s' => f s' = f s.

(** The trace grew, and every new event satisfies [P]. *)
Definition ext (P : event -> Prop) : relation device :=
  fun s s' => exists new, trace s' = new ++ trace s /\ Forall P new.

(** *** Predicates used to state the properties *)

(** [rel R m]: whenever [m] leaves a state behind (it returned, or it
    ended the process), that state is [R]-related to the one it started
    from. *)
Definition rel {A} (R : relation device) (m : M A) : Prop :=
  forall s s', state_of (m s) = Some s' -> R s s'.

(** Kinds of events. *)
Definition is_store (e : event) : Prop :=
  match e with
  | EvStore _ _ => True
  | _ => False
  end.

(** Anything but an array callback. *)
Definition quiet (e : event) : Prop :=
  match e with
  | EvFloat64Array _ _ _ => False
  | _ => True
  end.

(** A trace message at warning level. *)
Definition is_warning (e : event) : Prop :=
  match e with
  | EvAsynPrint ASYN_TRACE_WARNING _ _ => True
  | _ => False
  end.

(** What [writeFloat64] traces when it raises the update time. *)
Definition update_time_warning (value : float) : event :=
  EvAsynPrint ASYN_TRACE_WARNING
    "%s:%s: warning, update time too small, changed from %f to %f\n"
    [ArgS driverName; ArgS "writeFloat64"; ArgF value; ArgF MIN_UPDATE_TIME].

(** What [onFrame] prints when it finds more than 60 zeros. *)
Definition zeros_detected (cf : Frame) : event :=
  EvPrintf stdout "%s zeros detected at %lld\n"
    [ArgS "onFrame"; ArgI (startSampleNumber cf)].

(** What [setup] prints when the card is not stopped. *)
Definition let_it_run (state : STATE) : event :=
  EvPrintf stderr
    "card state:%d let it run, or abort if you want it to be reconfigured\n"
    [ArgState state].

(** [f] does not read the cells of [pData_], the accumulator, the trace,
    or the double parameters the frame handler writes. *)
Record frame_blind {A} (f : device -> A) : Prop := {
  blind_pData : forall s d, f (with_pData d s) = f s;
  blind_acc : forall s a, f (with_acc a s) = f s;
  blind_trace : forall s t, f (with_trace t s) = f s;
  blind_params : forall s list index v,
    index = P_Scalar \/ index = P_UpdateTime ->
    f (with_params (<[(list, index) := PDouble v]> (params s)) s) = f s
}.

(** The shape of a store made while the cursor is [cur]: channel [ic] of
    [n], sample [id] of the frame. *)
Definition store_at (maxPoints cur n : Z) (e : event) : Prop :=
  match e with
  | EvStore ic idx =>
      0 <= ic < n /\
      exists id, 0 <= id < FRAME_SAMPLES /\
                 idx = int_add (int_add (int_mul ic maxPoints) cur) id
  | _ => True
  end.

(** While cursor and channel count stay [cur] and [n], every event added
    is a [store_at]. *)
Definition storing (maxPoints cur n : Z) : relation device :=
  fun s s' =>
    cursor s = cur -> nchan s = n ->
    cursor s' = cur /\ nchan s' = n /\ ext (store_at maxPoints cur n) s s'.

(** [m] adds stores only; when it ends the process, it does so with
    status 1 and [diag] is the last thing it sends out. *)
Definition faults {A} (diag : event) (m : M A) : Prop :=
  forall s,
    match m s with
    | Ok _ s' => exists new, trace s' = new ++ trace s /\ Forall is_store new
    | Exited code s' =>
        code = 1 /\
        exists new, trace s' = diag :: new ++ trace s /\ Forall is_store new
    | Aborted _ => False
    | Undefined => True
    end.

(** A frame of [n] channels in which every sample is 1. *)
Definition ones_frame (n : Z) : Frame :=
  {| startSampleNumber := 0;
     channels := replicate (Z.to_nat n) (replicate (Z.to_nat FRAME_SAMPLES) 1) |}.

(** The driver is set up for streaming: both parameters the frame
    handler reads have a value and every channel is calibrated. *)
Definition ready (maxPoints scan_freq n : Z) (s : device) : Prop :=
  getIntegerParam 0 P_MaxPoints s = Some maxPoints /\
  getIntegerParam 0 P_ScanFreq s = Some scan_freq /\
  nchan s = n /\
  (Z.to_nat n <= length (eslo s))%nat /\
  (Z.to_nat n <= length (eoff s))%nat.

(** The [n] cells of [pData_] from [ix0] on, as a subscriber of the
    waveform receives them. *)
Definition snapshot (d : gmap Z float) (ix0 n : Z) : list float :=
  map (fun k => default PrimFloat.zero (d !! (ix0 + k))) (seqZ 0 n).

(** The array callback [publish] makes for channel [ic]. *)
Definition waveform_event (d : gmap Z float) (maxPoints ic : Z) : event :=
  EvFloat64Array (snapshot d (int_mul ic maxPoints) maxPoints) P_Waveform ic.

(** [f] does not read the cells of [pData_], the accumulator, the trace
    or the scalars the flush writes. *)
Record flush_blind {A} (f : device -> A) : Prop := {
  fblind_pData : forall s d, f (with_pData d s) = f s;
  fblind_acc : forall s a, f (with_acc a s) = f s;
  fblind_trace : forall s t, f (with_trace t s) = f s;
  fblind_cursor : forall s c, f (with_cursor c s) = f s;
  fblind_params : forall s list v,
    f (with_params (<[(list, P_Scalar) := PDouble v]> (params s)) s) = f s
}.

(** The samples of channel [ic], counted from 0, of a frame:
    [cf->getChannel(ic+1)]. *)
Definition raw_samples (cf : Frame) (ic : Z) : list Z :=
  default [] (channels cf !! Z.to_nat ic).

(** How many of the samples [l] are zero. *)
Definition count_zeros (l : list Z) : Z :=
  Z.of_nat (length (List.filter (fun yy => yy =? 0) l)).

(** The zeros among the FRAME_SAMPLES samples the handler reads from
    channel [ic] of a frame. *)
Definition zeros_in (cf : Frame) (ic : Z) : Z :=
  count_zeros (take (Z.to_nat FRAME_SAMPLES) (raw_samples cf ic)).

(** The frame carries FRAME_SAMPLES samples for each of [n] channels. *)
Definition full_frame (n : Z) (cf : Frame) : Prop :=
  forall ic, 0 <= ic < n ->
    (Z.to_nat FRAME_SAMPLES <= length (raw_samples cf ic))%nat.

(** The calls an asyn client or the transport can make on the driver. *)
Inductive call :=
| CallWriteInt32 (function value : Z)
| CallWriteFloat64 (function : Z) (value : float)
| CallReadFloat64Array (function : Z) (value : list float) (nElements : Z)
| CallOnFrame (cf : Frame)
| CallTask (card : Acq2xx) (frames : list Frame).

Definition perform (c : call) : M unit :=
  match c with
  | CallWriteInt32 function value => _ ← writeInt32 function value; mret tt
  | CallWriteFloat64 function value => _ ← writeFloat64 function value; mret tt
  | CallReadFloat64Array function value nElements =>
      _ ← readFloat64Array function value nElements; mret tt
  | CallOnFrame cf => onFrame cf
  | CallTask card frames => task card frames
  end.

Fixpoint perform_all (cs : list call) : M unit :=
  match cs with
  | [] => mret tt
  | c :: rest => perform c;; perform_all rest
  end.

End Driver.

(** ** An accumulator and a platform for worked examples *)

(** Modelled from the spec: the accumulator's class is declared in the
    driver's header, which is not among the sources.  Section 3: per
    channel a running sum and a sample count; section 4.2: accumulating
    adds the value and increments the count, the flush test holds exactly
    when the samples since the last flush reach the period, the flushed
    scalar is sum/count, a channel without samples keeps its previous
    scalar, and clearing resets sums and counts to zero. *)
Record RollingAccumulator := {
  sums : list float;
  counts : list Z;
  published : list float
}.

Definition ra_scalar (ic : Z) (a : RollingAccumulator) : float :=
  let n := default 0 (counts a !! Z.to_nat ic) in
  if n =? 0 then default PrimFloat.zero (published a !! Z.to_nat ic)
  else PrimFloat.div (default PrimFloat.zero (sums a !! Z.to_nat ic)) (float_of_Z n).

Definition spec_accumulator : Accumulator := {|
  Acc := RollingAccumulator;
  acc_new := fun n =>
    {| sums := replicate (Z.to_nat n) PrimFloat.zero;
       counts := replicate (Z.to_nat n) 0;
       published := replicate (Z.to_nat n) PrimFloat.zero |};
  acc_set := fun ic v a =>
    {| sums := alter (fun x => PrimFloat.add x v) (Z.to_nat ic) (sums a);
       counts := alter (fun n => n + 1) (Z.to_nat ic) (counts a);
       published := published a |};
  acc_update_timestamp := fun period a => (period <=? foldr Z.max 0 (counts a), a);
  acc_get := ra_scalar;
  acc_clear := fun a =>
    {| sums := replicate (length (sums a)) PrimFloat.zero;
       counts := replicate (length (counts a)) 0;
       published := map (fun ic => ra_scalar ic a) (seqZ 0 (Z.of_nat (length (sums a)))) |}
|}.

(** The macro values used in the examples: frames of 64 samples and a
    native rate of 20000 samples per second. *)
Definition example_platform : Platform := {|
  FRAME_SAMPLES := 64;
  NSPS := 20000;
  callbacks_status := fun _ => asynSuccess;
  param_name := fun _ => EmptyString
|}.

Abbreviation xdevice := (@device spec_accumulator).

Definition example_ranges : list acq2xx_VRange :=
  [ {| vmin := 0%float; vmax := 0%float |};
    {| vmin := (-5)%float; vmax := 5%float |};
    {| vmin := (-5)%float; vmax := 5%float |} ].

Definition example_card (st : STATE) : Acq2xx :=
  {| card_state := Some st; card_ranges := example_ranges |}.

(** A two-channel driver with [maxPoints] samples per waveform whose scan
    frequency has been written by a client. *)
Definition example_device (maxPoints : Z) : xdevice :=
  match @writeInt32 spec_accumulator example_platform P_ScanFreq 100
          (@Acq164Device spec_accumulator maxPoints 2) with
  | Ok _ s => s
  | _ => @Acq164Device spec_accumulator maxPoints 2
  end.

(** The same driver once [task] has calibrated it on an idle card and the
    transport has delivered nothing yet. *)
Definition example_running (maxPoints : Z) : xdevice :=
  match @task spec_accumulator example_platform (example_card ST_STOP) []
          (example_device maxPoints) with
  | Ok _ s => with_trace [] s
  | _ => example_device maxPoints
  end.

Definition example_frame (ssn : Z) (ch0 ch1 : list Z) : Frame :=
  {| startSampleNumber := ssn; channels := [ch0; ch1] |}.

(** *** Scenarios *)

Abbreviation xresult_of A := (result xdevice A).
Abbreviation xonFrame := (@onFrame spec_accumulator example_platform).
Abbreviation xstreamData := (@streamData spec_accumulator example_platform).
Abbreviation xtask := (@task spec_accumulator example_platform).

(** The state a computation leaves behind ([d] when it leaves none). *)
Definition final {A} (r : xresult_of A) (d : xdevice) : xdevice :=
  default d (state_of r).

Definition ones : list Z := replicate 64 1.
Definition zeros : list Z := replicate 64 0.

(** A frame without a zero sample. *)
Definition frame_ones : Frame := example_frame 4096 ones ones.

(** Channel 0, then channel 1, stuck at zero. *)
Definition frame_stuck0 : Frame := example_frame 4096 zeros ones.
Definition frame_stuck1 : Frame := example_frame 4096 ones zeros.

(** Channel 0 with 61 zeros in a row; with 60 zeros and no other zero;
    with 60 zeros, one sample of 5, and three more zeros. *)
Definition frame_61_zeros : Frame :=
  example_frame 4096 (replicate 61 0 ++ [1; 1; 1]) ones.
Definition frame_60_zeros : Frame :=
  example_frame 4096 (replicate 60 0 ++ [5; 5; 5; 5]) ones.
Definition frame_60_zeros_5_zeros : Frame :=
  example_frame 4096 (replicate 60 0 ++ [5; 0; 0; 0]) ones.

(** The driver with waveforms of 128 samples after one and after two
    frames. *)
Definition after_1_frame : xdevice :=
  final (xstreamData [frame_ones] (example_running 128)) (example_running 128).
Definition after_2_frames : xdevice :=
  final (xonFrame frame_ones after_1_frame) after_1_frame.

(** The same driver when a client has written a scan frequency of 0. *)
Definition example_unscanned : xdevice :=
  final (@writeInt32 spec_accumulator example_platform P_ScanFreq 0 (example_running 128))
    (example_running 128).

(** A few calls by clients and by the transport on a fresh driver. *)
Definition example_calls : list call :=
  [ CallWriteInt32 P_ScanFreq 100;
    CallWriteFloat64 P_UpdateTime 0.25%float;
    CallTask (example_card ST_STOP) [frame_ones; frame_ones];
    CallReadFloat64Array P_TimeBase (replicate 4 PrimFloat.zero) 4 ].

Definition after_calls : xdevice :=
  final (@perform_all spec_accumulator example_platform example_calls
           (@Acq164Device spec_accumulator 100 2))
    (@Acq164Device spec_accumulator 100 2).

(** The same calls on a driver of 128 points, which two frames of 64
    samples fill exactly. *)
Definition after_fitting_calls : xdevice :=
  final (@perform_all spec_accumulator example_platform example_calls
           (@Acq164Device spec_accumulator 128 2))
    (@Acq164Device spec_accumulator 128 2).

(** A state once the samples of [frame_ones] are converted. *)
Definition converted (s : xdevice) : xdevice :=
  final (@convert_frame spec_accumulator example_platform frame_ones 128 s) s.

(** A card that is already running, and the driver once it is
    calibrated on it. *)
Definition running_card : Acq2xx := example_card ST_RUN.

Definition calibrated : xdevice :=
  final (@compute_cal spec_accumulator running_card (example_device 128))
    (example_device 128).
(** Two frames whose channel 0 holds 80 zeros in a row between them: the
    last 40 samples of the first and the first 40 of the second. *)
Definition frame_zeros_at_end : Frame :=
  example_frame 4096 (replicate 24 1 ++ replicate 40 0) ones.
Definition frame_zeros_at_start : Frame :=
  example_frame 4160 (replicate 40 0 ++ replicate 24 1) ones.

(** A card whose state cannot be read. *)
Definition silent_card : Acq2xx :=
  {| card_state := None; card_ranges := example_ranges |}.

(** The running driver when a client has written a scan frequency of
    400, a period of 50 samples. *)
Definition example_fast : xdevice :=
  final (@writeInt32 spec_accumulator example_platform P_ScanFreq 400 (example_running 128))
    (example_running 128).

(** A buffer for a read of the time base. *)
Definition example_buffer : list float := replicate 150 PrimFloat.zero.


(** A card whose channel 0 reports the range 0.1 .. 3.3 volts (the
    binary64 numbers nearest to these), and one whose channel 0 reports
    the finite range -2^1023 .. 2^1023. *)
Definition unipolar_range : acq2xx_VRange :=
  {| vmin := 0x1.999999999999ap-4%float; vmax := 0x1.a666666666666p+1%float |}.
Definition huge_range : acq2xx_VRange :=
  {| vmin := (-0x1p+1023)%float; vmax := 0x1p+1023%float |}.

Definition card_with (r : acq2xx_VRange) : Acq2xx :=
  {| card_state := Some ST_STOP;
     card_ranges := [ {| vmin := 0%float; vmax := 0%float |}; r;
                      {| vmin := (-5)%float; vmax := 5%float |} ] |}.

(** The running driver calibrated on such a card. *)
Definition calibrated_on (r : acq2xx_VRange) : xdevice :=
  final (@compute_cal spec_accumulator (card_with r) (example_running 128))
    (example_running 128).

(** A frame whose channel 0 starts with the two ends of the raw-code
    domain, and the driver after this frame. *)
Definition frame_rails : Frame :=
  example_frame 4096 ([X1; X2] ++ replicate 62 1) ones.

Definition after_rails (r : acq2xx_VRange) : xdevice :=
  final (xonFrame frame_rails (calibrated_on r)) (calibrated_on r).
(** * The version string: devacq164Version.c *)

Module devacq164Version.

(** [memcpy(dst, src, n)] on arrays of bytes; no defined behaviour when
    [n] exceeds either array. *)
Definition memcpy (dst src : list Byte.byte) (n : Z) : option (list Byte.byte) :=
  if (n <=? Z.of_nat (length src)) && (n <=? Z.of_nat (length dst))
  then Some (take (Z.to_nat n) src ++ drop (Z.to_nat n) dst)
  else None.

(** The fields of an lsi record the device support touches: the buffer
    [val], the size [sizv] the record was configured with and the length
    [len] of the value. *)
Record lsiRecord := {
  val : list Byte.byte;
  sizv : Z;
  len : Z
}.

Section Version.

(** [acq164VERSION] is a string literal of a generated header, which is
    not among the sources. *)
Variable acq164VERSION : list Byte.byte.

(** [const char version[] = acq164VERSION;]: the literal and its
    terminating NUL. *)
Definition version : list Byte.byte := acq164VERSION ++ [Byte.x00].

(** The return value and the record as [read_string] leaves it; [N] is a
    [size_t], so [N - 1] wraps at 0. *)
Definition read_string (prec : lsiRecord) : option (Z * lsiRecord) :=
  let N := Z.of_nat (length version) in
  let buf := val prec in
  let N := if sizv prec <? N then sizv prec else N in
  buf ← memcpy buf version N;
  let last := (N - 1) mod 2 ^ 64 in
  if last <? Z.of_nat (length buf)
  then Some (0, {| val := <[Z.to_nat last := Byte.x00]> buf;
                   sizv := sizv prec;
                   len := N |})
  else None.

End Version.

(** A version string and a record to read it into. *)
Definition example_version : list Byte.byte :=
  [Byte.x31; Byte.x2e; Byte.x32; Byte.x2e; Byte.x33].

Definition example_record (size : Z) : lsiRecord :=
  {| val := replicate 8 Byte.xff; sizv := size; len := 0 |}.

End devacq164Version.

(** * Rounding in binary64

    The kernel's primitive floats are specified by [SpecFloat]: an
    operation computes the exact result on mantissas and exponents and
    rounds it with [binary_round_aux].  What follows bounds the error of
    that rounding, for the operations the calibration uses. *)

(** ** Shifts and rounding to nearest *)

Lemma digits2_pos_bounds (p : positive) :
  2 ^ (Zpos (digits2_pos p) - 1) <= Zpos p < 2 ^ Zpos (digits2_pos p).
Proof.
  induction p as [p IH|p IH|]; cbn [digits2_pos].
  - rewrite Pos2Z.inj_succ, Pos2Z.inj_xI.
    replace (Z.succ (Zpos (digits2_pos p)) - 1) with (Z.succ (Zpos (digits2_pos p) - 1)) by lia.
    rewrite !Z.pow_succ_r by lia.
    generalize dependent (2 ^ (Zpos (digits2_pos p) - 1)).
    generalize dependent (2 ^ Zpos (digits2_pos p)). intros. lia.
  - rewrite Pos2Z.inj_succ. change (Zpos p~0) with (2 * Zpos p).
    replace (Z.succ (Zpos (digits2_pos p)) - 1) with (Z.succ (Zpos (digits2_pos p) - 1)) by lia.
    rewrite !Z.pow_succ_r by lia.
    generalize dependent (2 ^ (Zpos (digits2_pos p) - 1)).
    generalize dependent (2 ^ Zpos (digits2_pos p)). intros. lia.
  - simpl. lia.
Qed.

Lemma iter_pos_invariant {A} (P : Z -> A -> Prop) (f : A -> A) :
  (forall k x, P k x -> P (k + 1) (f x)) ->
  forall p k x, P k x -> P (k + Zpos p) (SpecFloat.iter_pos f p x).
Proof.
  intros Hstep. induction p as [p IH|p IH|]; intros k x HP; cbn [SpecFloat.iter_pos].
  - replace (k + Zpos p~1) with (k + 1 + Zpos p + Zpos p) by lia.
    apply IH, IH, Hstep, HP.
  - replace (k + Zpos p~0) with (k + Zpos p + Zpos p) by lia.
    apply IH, IH, HP.
  - apply Hstep, HP.
Qed.

Lemma shr_1_eq (m : Z) (r s : bool) :
  0 <= m ->
  shr_1 {| shr_m := m; shr_r := r; shr_s := s |}
  = {| shr_m := Z.div2 m; shr_r := Z.odd m; shr_s := r || s |}.
Proof. intros Hm. destruct m as [|[p|p|]|p]; try reflexivity. lia. Qed.

Lemma loc_of_shr_record_of_loc m l :
  loc_of_shr_record (shr_record_of_loc m l) = l.
Proof. now destruct l as [|[]]. Qed.

Lemma shr_m_of_loc m l : shr_m (shr_record_of_loc m l) = m.
Proof. now destruct l as [|[]]. Qed.

(** [inbetween], spelled out. *)
Lemma inbetween_spec m l N t :
  0 <= t ->
  inbetween m l N t <->
  match l with
  | loc_Exact => N = m * 2 ^ t
  | loc_Inexact Lt => m * 2 ^ t < N /\ 2 * (N - m * 2 ^ t) < 2 ^ t
  | loc_Inexact Eq => 2 * (N - m * 2 ^ t) = 2 ^ t
  | loc_Inexact Gt => N < (m + 1) * 2 ^ t /\ 2 ^ t < 2 * (N - m * 2 ^ t)
  end.
Proof.
  intros Ht. assert (HT : 0 < 2 ^ t) by (apply Z.pow_pos_nonneg; lia).
  unfold inbetween. destruct l as [|[]]; [reflexivity| | |].
  - rewrite Z.compare_eq_iff. revert HT. generalize (2 ^ t). intros T HT. lia.
  - rewrite Z.compare_lt_iff. revert HT. generalize (2 ^ t). intros T HT. lia.
  - rewrite Z.compare_gt_iff. revert HT. generalize (2 ^ t). intros T HT. lia.
Qed.

(** One shift keeps the position of [N]. *)
Lemma shr_1_inbetween (mrs : shr_record) (N t : Z) :
  0 <= shr_m mrs -> 0 <= t ->
  inbetween (shr_m mrs) (loc_of_shr_record mrs) N t ->
  0 <= shr_m (shr_1 mrs) /\
  shr_m mrs = 2 * shr_m (shr_1 mrs) + (if Z.odd (shr_m mrs) then 1 else 0) /\
  inbetween (shr_m (shr_1 mrs)) (loc_of_shr_record (shr_1 mrs)) N (t + 1).
Proof.
  destruct mrs as [m r s]. cbn [shr_m]. intros Hm Ht Hin.
  rewrite shr_1_eq by exact Hm. cbn [shr_m].
  pose proof (Z.div2_odd m) as Hdiv.
  assert (Hb : Z.b2z (Z.odd m) = if Z.odd m then 1 else 0) by now destruct (Z.odd m).
  rewrite Hb in Hdiv. clear Hb.
  assert (HT : 0 < 2 ^ t) by (apply Z.pow_pos_nonneg; lia).
  assert (HT2 : 2 ^ (t + 1) = 2 * 2 ^ t) by (rewrite Z.pow_add_r by lia; lia).
  split; [destruct (Z.odd m); lia|]. split; [exact Hdiv|].
  apply inbetween_spec in Hin; [|lia]. apply inbetween_spec; [lia|]. rewrite HT2. clear HT2.
  revert Hin HT. generalize (2 ^ t). intros T.
  revert Hdiv. generalize (Z.div2 m). intros h Hdiv.
  destruct r, s, (Z.odd m); cbn [loc_of_shr_record orb]; intros Hin HT; lia.
Qed.

(** A shift by [n >= 0] bits. *)
Lemma shr_inbetween (mrs : shr_record) (e n N t : Z) :
  0 <= shr_m mrs -> 0 <= t -> 0 <= n ->
  inbetween (shr_m mrs) (loc_of_shr_record mrs) N t ->
  snd (shr mrs e n) = e + n /\
  0 <= shr_m (fst (shr mrs e n)) /\
  shr_m (fst (shr mrs e n)) * 2 ^ n <= shr_m mrs
    < (shr_m (fst (shr mrs e n)) + 1) * 2 ^ n /\
  inbetween (shr_m (fst (shr mrs e n))) (loc_of_shr_record (fst (shr mrs e n))) N (t + n).
Proof.
  intros Hm Ht Hn Hin. destruct n as [|p|p]; [| |lia].
  - cbn [shr fst snd]. rewrite !Z.add_0_r. change (2 ^ 0) with 1.
    split; [reflexivity|]. split; [exact Hm|]. split; [lia|exact Hin].
  - cbn [shr fst snd]. split; [reflexivity|].
    pose (P := fun (k : Z) (x : shr_record) =>
      0 <= k /\ 0 <= shr_m x /\
      shr_m x * 2 ^ k <= shr_m mrs < (shr_m x + 1) * 2 ^ k /\
      inbetween (shr_m x) (loc_of_shr_record x) N (t + k)).
    assert (HP : P (0 + Zpos p) (SpecFloat.iter_pos shr_1 p mrs)).
    { apply (iter_pos_invariant P).
      - intros k x (Hk & Hx & Hb & Hi).
        destruct (shr_1_inbetween x N (t + k) Hx ltac:(lia) Hi) as (Hx' & Hdec & Hi').
        split; [lia|]. split; [exact Hx'|]. split.
        + rewrite Z.pow_add_r by lia. change (2 ^ 1) with 2.
          assert (HK : 0 < 2 ^ k) by (apply Z.pow_pos_nonneg; lia).
          revert Hb HK Hdec. generalize (2 ^ k). intros K.
          generalize (shr_m (shr_1 x)). intros h.
          destruct (Z.odd (shr_m x)); intros; nia.
        + now rewrite Z.add_assoc.
      - unfold P. rewrite Z.add_0_r. change (2 ^ 0) with 1.
        split; [lia|]. split; [exact Hm|]. split; [lia|exact Hin]. }
    rewrite Z.add_0_l in HP. destruct HP as (_ & H1 & H2 & H3). now repeat split.
Qed.

(** Rounding to nearest, ties to even, is off by at most half a unit. *)
Lemma round_nearest_even_inbetween m l N t :
  0 <= t -> inbetween m l N t ->
  2 * Z.abs (round_nearest_even m l * 2 ^ t - N) <= 2 ^ t /\
  m <= round_nearest_even m l <= m + 1 /\
  (l = loc_Exact -> round_nearest_even m l = m).
Proof.
  intros Ht Hin. apply inbetween_spec in Hin; [|exact Ht].
  assert (HT : 0 < 2 ^ t) by (apply Z.pow_pos_nonneg; lia).
  revert Hin HT. generalize (2 ^ t). intros T.
  destruct l as [|[]]; cbn [round_nearest_even]; intros Hin HT;
    try destruct (Z.even m); split; try nia; split; try lia; try discriminate;
    intros _; reflexivity.
Qed.

Lemma Zdigits2_bounds (m : Z) :
  0 < m -> 2 ^ (Zdigits2 m - 1) <= m < 2 ^ Zdigits2 m.
Proof.
  intros Hm. destruct m as [|p|p]; try lia. cbn [Zdigits2]. apply digits2_pos_bounds.
Qed.

Lemma Zdigits2_nonneg (m : Z) : 0 <= Zdigits2 m.
Proof. destruct m; simpl; lia. Qed.

Lemma Zdigits2_le (m k : Z) : 0 <= m < 2 ^ k -> 0 <= k -> Zdigits2 m <= k.
Proof.
  intros Hm Hk. destruct (Z.eq_dec m 0) as [->|Hne]; [simpl; lia|].
  pose proof (Zdigits2_bounds m ltac:(lia)) as [Hlo _].
  destruct (Z.le_gt_cases (Zdigits2 m) k) as [Hle|Hgt]; [exact Hle|].
  assert (2 ^ k <= 2 ^ (Zdigits2 m - 1)) by (apply Z.pow_le_mono_r; lia). lia.
Qed.

Lemma fexp_eq e : fexp prec emax e = Z.max (e - 53) (-1074).
Proof. reflexivity. Qed.

(** [binary_round_aux] rounds to nearest: the result is within half a
    unit of its last place of the number it was given. *)
Lemma binary_round_aux_correct (sx : bool) (mx ex : Z) (lx : location) (N t : Z) :
  0 <= mx -> 0 <= t -> inbetween mx lx N t ->
  ex <= fexp prec emax (Zdigits2 mx + ex) ->
  Zdigits2 mx + ex <= 1023 ->
  exists m2 e2,
    binary_round_aux prec emax sx mx ex lx = SF_of sx m2 e2 /\
    0 <= m2 /\ fexp prec emax (Zdigits2 mx + ex) <= e2 <= 971 /\
    2 * Z.abs (m2 * 2 ^ (e2 - ex + t) - N)
    <= 2 ^ (fexp prec emax (Zdigits2 mx + ex) - ex + t).
Proof.
  intros Hmx Ht Hin Hn Hd.
  set (d := Zdigits2 mx) in *. set (e1 := fexp prec emax (d + ex)) in *.
  assert (He1 : e1 = Z.max (d + ex - 53) (-1074)) by reflexivity.
  unfold binary_round_aux, shr_fexp. fold d. fold e1.
  pose proof (shr_inbetween (shr_record_of_loc mx lx) ex (e1 - ex) N t) as Hshr.
  rewrite shr_m_of_loc, loc_of_shr_record_of_loc in Hshr.
  specialize (Hshr Hmx Ht ltac:(lia) Hin).
  destruct (shr (shr_record_of_loc mx lx) ex (e1 - ex)) as [mrs' e'].
  cbn [fst snd] in Hshr. destruct Hshr as (He' & Hm' & Hb & Hin').
  replace e' with e1 by lia. clear He' e'.
  set (m' := shr_m mrs') in *. set (l' := loc_of_shr_record mrs') in *.
  destruct (round_nearest_even_inbetween m' l' N (t + (e1 - ex)) ltac:(lia) Hin')
    as (Herr & Hm'' & _).
  set (m'' := round_nearest_even m' l') in *.
  assert (Hlt : m' < 2 ^ 53).
  { destruct (Z.eq_dec mx 0) as [H0|H0].
    - assert (0 < 2 ^ (e1 - ex)) by (apply Z.pow_pos_nonneg; lia). nia.
    - pose proof (Zdigits2_bounds mx ltac:(lia)) as [_ Hhi]. fold d in Hhi.
      assert (Hpow : 2 ^ d <= 2 ^ 53 * 2 ^ (e1 - ex)).
      { rewrite <- Z.pow_add_r by lia. apply Z.pow_le_mono_r; lia. }
      assert (0 < 2 ^ (e1 - ex)) by (apply Z.pow_pos_nonneg; lia).
      nia. }
  replace (t + (e1 - ex)) with (e1 - ex + t) in Herr by lia.
  destruct (Z.eq_dec m'' (2 ^ 53)) as [Heq|Hne].
  - exists (2 ^ 52), (e1 + 1). rewrite Heq in *.
    replace (fexp prec emax (Zdigits2 (2 ^ 53) + e1) - e1) with 1
      by (rewrite fexp_eq; change (Zdigits2 (2 ^ 53)) with 54; lia).
    cbn [shr_record_of_loc shr SpecFloat.iter_pos shr_1 shr_m].
    change (2 ^ 53) with 9007199254740992. cbn [shr_1 shr_m].
    replace (e1 + 1 <=? emax - prec) with true
      by (symmetry; apply Z.leb_le; unfold emax, prec; lia).
    split; [reflexivity|]. split; [lia|]. split; [lia|].
    replace (e1 + 1 - ex + t) with (1 + (e1 - ex + t)) by lia.
    rewrite Z.pow_add_r by lia. change (2 ^ 1) with 2.
    change (2 ^ 52) with 4503599627370496.
    change (2 ^ 53) with 9007199254740992 in Herr.
    revert Herr. generalize (2 ^ (e1 - ex + t)). intros T Herr. lia.
  - exists m'', e1.
    assert (Hd'' : Zdigits2 m'' <= 53) by (apply Zdigits2_le; lia).
    assert (Hn2 : fexp prec emax (Zdigits2 m'' + e1) - e1 <= 0)
      by (rewrite fexp_eq; lia).
    assert (Hshr2 : shr (shr_record_of_loc m'' loc_Exact) e1
                      (fexp prec emax (Zdigits2 m'' + e1) - e1)
                    = (shr_record_of_loc m'' loc_Exact, e1)).
    { destruct (fexp prec emax (Zdigits2 m'' + e1) - e1); try reflexivity. lia. }
    rewrite Hshr2. cbn [shr_record_of_loc shr_m].
    replace (e1 <=? emax - prec) with true
      by (symmetry; apply Z.leb_le; unfold emax, prec; lia).
    split; [|split; [lia|split; [lia|exact Herr]]].
    destruct m'' as [|p|p]; try reflexivity. lia.
Qed.

Lemma inbetween_lower m l N t : 0 <= t -> inbetween m l N t -> m * 2 ^ t <= N.
Proof.
  intros Ht Hin. apply inbetween_spec in Hin; [|exact Ht].
  assert (HT : 0 < 2 ^ t) by (apply Z.pow_pos_nonneg; lia).
  revert Hin HT. generalize (2 ^ t). intros T. destruct l as [|[]]; lia.
Qed.

Lemma SFunits_SF_of sx m e : 0 <= m -> SFunits (SF_of sx m e) = cond_Zopp sx (m * 2 ^ (e + unit_exponent)).
Proof.
  intros Hm. destruct m as [|p|p]; [| |lia].
  - simpl. now destruct sx.
  - cbn [SF_of SFunits]. generalize (2 ^ (e + unit_exponent)). intros T.
    destruct sx; cbn [cond_Zopp]; lia.
Qed.

Lemma SFfinite_SF_of sx m e : SFfinite (SF_of sx m e) = true.
Proof. now destruct m. Qed.

(** The same, as a relative error: the result is the number
    [V = N * 2^(ex - t)] it was given, up to 2^-53 * V and half the
    smallest positive number. *)
Lemma binary_round_aux_units (sx : bool) (mx ex : Z) (lx : location) (N t : Z) :
  0 <= mx -> 0 <= t -> inbetween mx lx N t ->
  ex <= fexp prec emax (Zdigits2 mx + ex) ->
  Zdigits2 mx + ex <= 1023 ->
  0 <= ex - t + unit_exponent ->
  let V := N * 2 ^ (ex - t + unit_exponent) in
  let r := binary_round_aux prec emax sx mx ex lx in
  SFfinite r = true /\
  2 ^ 54 * Z.abs (SFunits r - cond_Zopp sx V) <= 2 * V + 2 ^ 53 * least_positive.
Proof.
  intros Hmx Ht Hin Hn Hd Hs V r.
  destruct (binary_round_aux_correct sx mx ex lx N t Hmx Ht Hin Hn Hd)
    as (m2 & e2 & Hr & Hm2 & He2 & Herr).
  unfold r. rewrite Hr. split; [apply SFfinite_SF_of|].
  rewrite SFunits_SF_of by exact Hm2.
  set (d := Zdigits2 mx) in *. set (e1 := fexp prec emax (d + ex)) in *.
  assert (He1 : e1 = Z.max (d + ex - 53) (-1074)) by reflexivity.
  pose proof (inbetween_lower mx lx N t Ht Hin) as Hlow.
  set (U := 2 ^ (ex - t + unit_exponent)).
  assert (HU : 0 < U) by (apply Z.pow_pos_nonneg; lia).
  assert (HR : m2 * 2 ^ (e2 + unit_exponent) = m2 * 2 ^ (e2 - ex + t) * U).
  { unfold U. rewrite <- Z.mul_assoc, <- Z.pow_add_r by lia. do 2 f_equal. lia. }
  assert (Habs : Z.abs (cond_Zopp sx (m2 * 2 ^ (e2 + unit_exponent)) - cond_Zopp sx V)
                 = Z.abs (m2 * 2 ^ (e2 - ex + t) - N) * U).
  { rewrite HR. unfold V. fold U.
    replace (cond_Zopp sx (m2 * 2 ^ (e2 - ex + t) * U) - cond_Zopp sx (N * U))
      with (cond_Zopp sx ((m2 * 2 ^ (e2 - ex + t) - N) * U)) by (destruct sx; simpl; lia).
    destruct sx; simpl; rewrite ?Z.abs_opp, Z.abs_mul, (Z.abs_eq U) by lia; reflexivity. }
  rewrite Habs.
  assert (Hhalf : 2 * (Z.abs (m2 * 2 ^ (e2 - ex + t) - N) * U) <= 2 ^ (e1 + unit_exponent)).
  { replace (2 ^ (e1 + unit_exponent)) with (2 ^ (e1 - ex + t) * U)
      by (unfold U; rewrite <- Z.pow_add_r by lia; f_equal; lia).
    nia. }
  assert (HV : 0 <= V) by (unfold V; fold U; assert (0 <= 2 ^ t) by (apply Z.pow_nonneg; lia); nia).
  destruct (Z.le_gt_cases (d + ex - 53) (-1074)) as [Hsub|Hnorm].
  - replace e1 with (-1074) in Hhalf by lia.
    change (2 ^ (-1074 + unit_exponent)) with least_positive in Hhalf.
    change (2 ^ 54) with (2 ^ 53 * 2). assert (0 < 2 ^ 53) by reflexivity.
    revert Hhalf. generalize (Z.abs (m2 * 2 ^ (e2 - ex + t) - N) * U). intros err Hhalf.
    nia.
  - replace e1 with (d + ex - 53) in Hhalf by lia.
    assert (Hmx0 : 0 < mx).
    { destruct (Z.eq_dec mx 0) as [H0|H0]; [|lia].
      subst mx. unfold d in *. simpl in *. lia. }
    pose proof (Zdigits2_bounds mx Hmx0) as [Hlo _]. fold d in Hlo.
    assert (Hd1 : 1 <= d) by (unfold d; destruct mx; simpl; lia).
    assert (Hpow : 2 ^ 53 * 2 ^ (d + ex - 53 + unit_exponent) = 2 * (2 ^ (d - 1) * 2 ^ t * U)).
    { assert (E1 : 2 ^ (d + ex + unit_exponent) = 2 ^ 53 * 2 ^ (d + ex - 53 + unit_exponent)).
      { rewrite <- Z.pow_add_r by lia. f_equal. lia. }
      assert (E2 : 2 ^ (d + ex + unit_exponent) = 2 ^ 1 * (2 ^ (d - 1) * 2 ^ t * U)).
      { unfold U. rewrite <- (Z.pow_add_r 2 (d - 1) t) by lia.
        rewrite <- (Z.pow_add_r 2 (d - 1 + t)) by lia.
        rewrite <- Z.pow_add_r by lia. f_equal. lia. }
      rewrite <- E1, E2. reflexivity. }
    assert (HVlow : 2 ^ (d - 1) * 2 ^ t * U <= V).
    { unfold V. fold U. assert (0 <= 2 ^ t) by (apply Z.pow_nonneg; lia).
      apply Z.mul_le_mono_nonneg_r; [lia|].
      transitivity (mx * 2 ^ t); [apply Z.mul_le_mono_nonneg_r; lia|exact Hlow]. }
    change (2 ^ 54) with (2 ^ 53 * 2). assert (0 < 2 ^ 53) by reflexivity.
    assert (0 <= least_positive) by (unfold least_positive; apply Z.pow_nonneg; lia).
    revert Hhalf Hpow HVlow.
    generalize (Z.abs (m2 * 2 ^ (e2 - ex + t) - N) * U).
    generalize (2 ^ (d + ex - 53 + unit_exponent)). generalize (2 ^ (d - 1) * 2 ^ t * U).
    intros A B err Hhalf Hpow HVlow. nia.
Qed.

(** ** Alignment of mantissas *)

Lemma Pos_iter_xO (m d : positive) : Zpos (Pos.iter xO m d) = Zpos m * 2 ^ Zpos d.
Proof.
  induction d as [|d IH] using Pos.peano_ind.
  - simpl. lia.
  - rewrite Pos.iter_succ, Pos2Z.inj_succ, Z.pow_succ_r by lia.
    change (Zpos (Pos.iter xO m d)~0) with (2 * Zpos (Pos.iter xO m d)).
    rewrite IH. lia.
Qed.

Lemma shl_align_spec (mx : positive) (ex ez : Z) :
  ez <= ex ->
  Zpos (fst (shl_align mx ex ez)) = Zpos mx * 2 ^ (ex - ez) /\
  snd (shl_align mx ex ez) = ez.
Proof.
  intros Hle. unfold shl_align. destruct (ez - ex) as [|d|d] eqn:Hd; cbn [fst snd].
  - replace (ex - ez) with 0 by lia. simpl. lia.
  - lia.
  - rewrite Pos_iter_xO. replace (ex - ez) with (Zpos d) by lia. lia.
Qed.

Lemma shl_align_id (mx : positive) (ex ez : Z) :
  ex <= ez -> shl_align mx ex ez = (mx, ex).
Proof.
  intros Hle. unfold shl_align. destruct (ez - ex) as [|d|d] eqn:Hd; try reflexivity. lia.
Qed.

Lemma Zdigits2_unique (m a : Z) :
  0 < m -> 2 ^ (a - 1) <= m < 2 ^ a -> 1 <= a -> Zdigits2 m = a.
Proof.
  intros Hm [Hlo Hhi] Ha. pose proof (Zdigits2_bounds m Hm) as [Hlo' Hhi'].
  assert (Hd1 : 1 <= Zdigits2 m) by (destruct m; simpl; lia).
  destruct (Z.lt_trichotomy (Zdigits2 m) a) as [Hlt|[Heq|Hgt]]; [|exact Heq|].
  - assert (2 ^ Zdigits2 m <= 2 ^ (a - 1)) by (apply Z.pow_le_mono_r; lia). lia.
  - assert (2 ^ a <= 2 ^ (Zdigits2 m - 1)) by (apply Z.pow_le_mono_r; lia). lia.
Qed.

Lemma Zdigits2_mul_pow2 (m k : Z) :
  0 < m -> 0 <= k -> Zdigits2 (m * 2 ^ k) = Zdigits2 m + k.
Proof.
  intros Hm Hk. pose proof (Zdigits2_bounds m Hm) as [Hlo Hhi].
  assert (Hd1 : 1 <= Zdigits2 m) by (destruct m; simpl; lia).
  assert (HK : 0 < 2 ^ k) by (apply Z.pow_pos_nonneg; lia).
  apply Zdigits2_unique; [nia| |lia].
  replace (Zdigits2 m + k - 1) with (Zdigits2 m - 1 + k) by lia.
  rewrite !Z.pow_add_r by lia. nia.
Qed.

(** ** Rounding of an integer multiple of a power of two *)

Lemma binary_round_units (sx : bool) (p : positive) (e : Z) :
  -1074 <= e ->
  Zpos p * 2 ^ (e + unit_exponent) < 2 ^ (1023 + unit_exponent) ->
  let V := Zpos p * 2 ^ (e + unit_exponent) in
  let r := binary_round prec emax sx p e in
  SFfinite r = true /\
  2 ^ 54 * Z.abs (SFunits r - cond_Zopp sx V) <= 2 * V + 2 ^ 53 * least_positive.
Proof.
  intros He Hbig V r.
  assert (Hdig : Zdigits2 (Zpos p) + e <= 1023).
  { assert (Hp : Zpos p < 2 ^ (1023 - e)).
    { assert (HE : 0 < 2 ^ (e + unit_exponent)) by (apply Z.pow_pos_nonneg; unfold unit_exponent; lia).
      replace (2 ^ (1023 + unit_exponent)) with (2 ^ (1023 - e) * 2 ^ (e + unit_exponent)) in Hbig.
      - nia.
      - destruct (Z.le_gt_cases e 1023) as [Hle|Hgt].
        + rewrite <- Z.pow_add_r by (unfold unit_exponent; lia). f_equal. lia.
        + exfalso.
          assert (2 ^ (1023 + unit_exponent) <= 2 ^ (e + unit_exponent))
            by (apply Z.pow_le_mono_r; unfold unit_exponent; lia).
          nia. }
    destruct (Z.le_gt_cases e 1023) as [Hle|Hgt].
    - pose proof (Zdigits2_le (Zpos p) (1023 - e) ltac:(lia) ltac:(lia)). lia.
    - exfalso. rewrite Z.pow_neg_r in Hp by lia. lia. }
  unfold r, binary_round.
  change (Zpos (digits2_pos p)) with (Zdigits2 (Zpos p)).
  set (d := Zdigits2 (Zpos p)) in *.
  set (e1 := fexp prec emax (d + e)).
  assert (He1 : e1 = Z.max (d + e - 53) (-1074)) by reflexivity.
  destruct (Z.le_gt_cases e e1) as [Hle|Hgt].
  - rewrite shl_align_id by exact Hle.
    destruct (binary_round_aux_units sx (Zpos p) e loc_Exact (Zpos p) 0)
      as [Hfin Herr]; try lia.
    + simpl. lia.
    + exact Hle.
    + unfold unit_exponent. lia.
    + split; [exact Hfin|]. rewrite Z.sub_0_r in Herr. exact Herr.
  - pose proof (shl_align_spec p e e1 ltac:(lia)) as [Hm Hs].
    destruct (shl_align p e e1) as [mz ez]. cbn [fst snd] in Hm, Hs. subst ez.
    assert (Hdz : Zdigits2 (Zpos mz) = d + (e - e1)).
    { rewrite Hm. apply Zdigits2_mul_pow2; lia. }
    destruct (binary_round_aux_units sx (Zpos mz) e1 loc_Exact (Zpos mz) 0)
      as [Hfin Herr]; try lia.
    + simpl. lia.
    + rewrite Hdz. replace (d + (e - e1) + e1) with (d + e) by lia. fold e1. lia.
    + unfold unit_exponent. lia.
    + split; [exact Hfin|]. rewrite Z.sub_0_r in Herr.
      assert (HV : Zpos mz * 2 ^ (e1 + unit_exponent) = V).
      { unfold V. rewrite Hm, <- Z.mul_assoc, <- Z.pow_add_r by (unfold unit_exponent; lia).
        do 2 f_equal. lia. }
      rewrite HV in Herr. exact Herr.
Qed.

Lemma binary_normalize_units (M e : Z) (szero : bool) :
  -1074 <= e ->
  Z.abs M * 2 ^ (e + unit_exponent) < 2 ^ (1023 + unit_exponent) ->
  let V := M * 2 ^ (e + unit_exponent) in
  let r := binary_normalize prec emax M e szero in
  SFfinite r = true /\
  2 ^ 54 * Z.abs (SFunits r - V) <= 2 * Z.abs V + 2 ^ 53 * least_positive.
Proof.
  intros He Hbig V r. unfold r, V, binary_normalize.
  assert (HE : 0 < 2 ^ (e + unit_exponent)) by (apply Z.pow_pos_nonneg; unfold unit_exponent; lia).
  destruct M as [|p|p].
  - split; [reflexivity|]. simpl. unfold least_positive. 
    assert (0 <= 2 ^ (unit_exponent - 1074)) by (apply Z.pow_nonneg; lia). lia.
  - destruct (binary_round_units false p e He Hbig) as [Hfin Herr].
    split; [exact Hfin|]. cbn [cond_Zopp] in Herr.
    rewrite (Z.abs_eq (Zpos p * _)) by lia. exact Herr.
  - destruct (binary_round_units true p e He Hbig) as [Hfin Herr].
    split; [exact Hfin|]. cbn [cond_Zopp] in Herr.
    replace (Zneg p * 2 ^ (e + unit_exponent)) with (- (Zpos p * 2 ^ (e + unit_exponent))) by lia.
    rewrite Z.abs_opp, (Z.abs_eq (Zpos p * _)) by lia. exact Herr.
Qed.

(** ** Operations on valid numbers *)

Lemma valid_binary_finite (s : bool) (m : positive) (e : Z) :
  SpecFloat.valid_binary prec emax (S754_finite s m e) = true ->
  -1074 <= e <= 971 /\ Zdigits2 (Zpos m) <= 53 /\
  e = fexp prec emax (Zdigits2 (Zpos m) + e).
Proof.
  cbn [SpecFloat.valid_binary]. unfold bounded, canonical_mantissa.
  intros Hv. apply andb_true_iff in Hv as [Hc He].
  apply Z.eqb_eq in Hc. apply Z.leb_le in He.
  change (Zpos (digits2_pos m)) with (Zdigits2 (Zpos m)) in Hc.
  rewrite fexp_eq in Hc. unfold emax, prec in He. rewrite fexp_eq. lia.
Qed.

Lemma aligned_units (s : bool) (m : positive) (e ez : Z) :
  ez <= e -> -1074 <= ez ->
  cond_Zopp s (Zpos (fst (shl_align m e ez))) * 2 ^ (ez + unit_exponent)
  = SFunits (S754_finite s m e).
Proof.
  intros Hle Hez. destruct (shl_align_spec m e ez Hle) as [-> _].
  cbn [SFunits].
  replace (2 ^ (e + unit_exponent)) with (2 ^ (e - ez) * 2 ^ (ez + unit_exponent))
    by (rewrite <- Z.pow_add_r by (unfold unit_exponent; lia); f_equal; lia).
  generalize (2 ^ (e - ez)) (2 ^ (ez + unit_exponent)). intros A B.
  destruct s; cbn [cond_Zopp]; lia.
Qed.

Lemma least_positive_pos : 0 < least_positive.
Proof. reflexivity. Qed.

(** A sum or a difference of two finite numbers is finite when it lies
    below 2^1023, and is then the exact result up to 2^-53 of its
    magnitude and half the smallest positive number. *)
Lemma SFsub_units (x y : spec_float) :
  SpecFloat.valid_binary prec emax x = true -> SpecFloat.valid_binary prec emax y = true ->
  SFfinite x = true -> SFfinite y = true ->
  Z.abs (SFunits x - SFunits y) < 2 ^ (1023 + unit_exponent) ->
  SFfinite (SFsub prec emax x y) = true /\
  2 ^ 54 * Z.abs (SFunits (SFsub prec emax x y) - (SFunits x - SFunits y))
  <= 2 * Z.abs (SFunits x - SFunits y) + 2 ^ 53 * least_positive.
Proof.
  intros Hvx Hvy Hfx Hfy Hbig. pose proof least_positive_pos as Htiny.
  destruct x as [sx| | |sx mx ex], y as [sy| | |sy my ey]; try discriminate.
  - split; [now destruct sx, sy|]. destruct sx, sy; simpl; lia.
  - split; [reflexivity|]. cbn [SFsub SFunits].
    generalize (2 ^ (ey + unit_exponent)). intros T. destruct sy; cbn [negb cond_Zopp]; lia.
  - split; [reflexivity|]. cbn [SFsub SFunits].
    generalize (2 ^ (ex + unit_exponent)). intros T. lia.
  - apply valid_binary_finite in Hvx as (Hex & _ & _).
    apply valid_binary_finite in Hvy as (Hey & _ & _).
    cbn [SFsub]. set (ez := Z.min ex ey).
    pose proof (aligned_units sx mx ex ez ltac:(lia) ltac:(lia)) as Hx.
    pose proof (aligned_units sy my ey ez ltac:(lia) ltac:(lia)) as Hy.
    set (ax := cond_Zopp sx (Zpos (fst (shl_align mx ex ez)))) in *.
    set (ay := cond_Zopp sy (Zpos (fst (shl_align my ey ez)))) in *.
    assert (HV : (ax - ay) * 2 ^ (ez + unit_exponent)
                 = SFunits (S754_finite sx mx ex) - SFunits (S754_finite sy my ey))
      by (rewrite <- Hx, <- Hy; lia).
    rewrite <- HV in *.
    apply (binary_normalize_units (ax - ay) ez false); [lia|].
    rewrite <- (Z.abs_eq (2 ^ (ez + unit_exponent))), <- Z.abs_mul; [exact Hbig|].
    apply Z.pow_nonneg. lia.
Qed.

Lemma SFadd_units (x y : spec_float) :
  SpecFloat.valid_binary prec emax x = true -> SpecFloat.valid_binary prec emax y = true ->
  SFfinite x = true -> SFfinite y = true ->
  Z.abs (SFunits x + SFunits y) < 2 ^ (1023 + unit_exponent) ->
  SFfinite (SFadd prec emax x y) = true /\
  2 ^ 54 * Z.abs (SFunits (SFadd prec emax x y) - (SFunits x + SFunits y))
  <= 2 * Z.abs (SFunits x + SFunits y) + 2 ^ 53 * least_positive.
Proof.
  intros Hvx Hvy Hfx Hfy Hbig. pose proof least_positive_pos as Htiny.
  destruct x as [sx| | |sx mx ex], y as [sy| | |sy my ey]; try discriminate.
  - split; [now destruct sx, sy|]. destruct sx, sy; simpl; lia.
  - split; [reflexivity|]. cbn [SFadd SFunits].
    generalize (2 ^ (ey + unit_exponent)). intros T. lia.
  - split; [reflexivity|]. cbn [SFadd SFunits].
    generalize (2 ^ (ex + unit_exponent)). intros T. lia.
  - apply valid_binary_finite in Hvx as (Hex & _ & _).
    apply valid_binary_finite in Hvy as (Hey & _ & _).
    cbn [SFadd]. set (ez := Z.min ex ey).
    pose proof (aligned_units sx mx ex ez ltac:(lia) ltac:(lia)) as Hx.
    pose proof (aligned_units sy my ey ez ltac:(lia) ltac:(lia)) as Hy.
    set (ax := cond_Zopp sx (Zpos (fst (shl_align mx ex ez)))) in *.
    set (ay := cond_Zopp sy (Zpos (fst (shl_align my ey ez)))) in *.
    assert (HV : (ax + ay) * 2 ^ (ez + unit_exponent)
                 = SFunits (S754_finite sx mx ex) + SFunits (S754_finite sy my ey))
      by (rewrite <- Hx, <- Hy; lia).
    rewrite <- HV in *.
    apply (binary_normalize_units (ax + ay) ez false); [lia|].
    rewrite <- (Z.abs_eq (2 ^ (ez + unit_exponent))), <- Z.abs_mul; [exact Hbig|].
    apply Z.pow_nonneg. lia.
Qed.

Lemma pow2_lt_exponent (m a b : Z) :
  0 < m -> m * 2 ^ (a + unit_exponent) < 2 ^ (b + unit_exponent) -> 0 <= a + unit_exponent -> m < 2 ^ (b - a) /\ a < b.
Proof.
  intros Hm Hlt Ha.
  assert (HA : 0 < 2 ^ (a + unit_exponent)) by (apply Z.pow_pos_nonneg; lia).
  destruct (Z.le_gt_cases b a) as [Hle|Hgt].
  - exfalso. assert (2 ^ (b + unit_exponent) <= 2 ^ (a + unit_exponent)).
    { destruct (Z.le_gt_cases 0 (b + unit_exponent)).
      - apply Z.pow_le_mono_r; lia.
      - rewrite (Z.pow_neg_r 2 (b + unit_exponent)) by lia. lia. }
    nia.
  - split; [|exact Hgt].
    replace (2 ^ (b + unit_exponent)) with (2 ^ (b - a) * 2 ^ (a + unit_exponent)) in Hlt
      by (rewrite <- Z.pow_add_r by lia; f_equal; lia).
    nia.
Qed.

(** A product of two finite numbers is finite when it lies below 2^1023,
    and is then the exact product up to 2^-53 of its magnitude and half
    the smallest positive number.  The exact product, in units, is
    [SFunits x * SFunits y / 2^unit_exponent]. *)
Lemma SFmul_units (x y : spec_float) :
  SpecFloat.valid_binary prec emax x = true -> SpecFloat.valid_binary prec emax y = true ->
  SFfinite x = true -> SFfinite y = true ->
  Z.abs (SFunits x * SFunits y) < 2 ^ (1023 + unit_exponent) * 2 ^ unit_exponent ->
  SFfinite (SFmul prec emax x y) = true /\
  2 ^ 54 * Z.abs (SFunits (SFmul prec emax x y) * 2 ^ unit_exponent - SFunits x * SFunits y)
  <= 2 * Z.abs (SFunits x * SFunits y) + 2 ^ 53 * least_positive * 2 ^ unit_exponent.
Proof.
  intros Hvx Hvy Hfx Hfy Hbig. pose proof least_positive_pos as Htiny.
  assert (HS : 0 < 2 ^ unit_exponent) by reflexivity.
  destruct x as [sx| | |sx mx ex], y as [sy| | |sy my ey]; try discriminate;
    try (split; [reflexivity|]; cbn [SFmul SFunits];
         rewrite ?Z.mul_0_l, ?Z.mul_0_r; simpl Z.abs; nia).
  apply valid_binary_finite in Hvx as (Hex & Hdx & Hcx).
  apply valid_binary_finite in Hvy as (Hey & Hdy & Hcy).
  rewrite fexp_eq in Hcx, Hcy.
  cbn [SFmul]. rewrite Pos2Z.inj_mul.
  set (P := Zpos mx * Zpos my) in *.
  assert (HP : 0 < P) by (unfold P; lia).
  assert (Hprod : SFunits (S754_finite sx mx ex) * SFunits (S754_finite sy my ey)
                  = cond_Zopp (xorb sx sy) (P * 2 ^ (ex + ey + unit_exponent)) * 2 ^ unit_exponent).
  { cbn [SFunits]. unfold P.
    assert (E : 2 ^ (ex + unit_exponent) * 2 ^ (ey + unit_exponent) = 2 ^ (ex + ey + unit_exponent) * 2 ^ unit_exponent)
      by (rewrite <- !Z.pow_add_r by (unfold unit_exponent; lia); f_equal; lia).
    revert E. generalize (2 ^ (ex + unit_exponent)) (2 ^ (ey + unit_exponent)) (2 ^ (ex + ey + unit_exponent)) (2 ^ unit_exponent).
    intros A B C D E.
    destruct sx, sy; cbn [cond_Zopp xorb]; ring [E]. }
  rewrite Hprod in *. clear Hprod.
  set (V := P * 2 ^ (ex + ey + unit_exponent)) in *.
  assert (HV : 0 < V).
  { unfold V. assert (0 < 2 ^ (ex + ey + unit_exponent)) by (apply Z.pow_pos_nonneg; unfold unit_exponent; lia).
    nia. }
  assert (HbigV : V < 2 ^ (1023 + unit_exponent)).
  { assert (Habs : Z.abs (cond_Zopp (xorb sx sy) V * 2 ^ unit_exponent) = V * 2 ^ unit_exponent)
      by (destruct (xorb sx sy); cbn [cond_Zopp]; lia).
    rewrite Habs in Hbig. nia. }
  destruct (pow2_lt_exponent P (ex + ey) 1023 HP HbigV ltac:(unfold unit_exponent; lia)) as [HPlt Hlt].
  pose proof (Zdigits2_le P (1023 - (ex + ey)) ltac:(lia) ltac:(lia)) as HD.
  pose proof (Zdigits2_bounds (Zpos mx) ltac:(lia)) as [Hlx _].
  pose proof (Zdigits2_bounds (Zpos my) ltac:(lia)) as [Hly _].
  assert (Hdx1 : 1 <= Zdigits2 (Zpos mx)) by (simpl; lia).
  assert (Hdy1 : 1 <= Zdigits2 (Zpos my)) by (simpl; lia).
  assert (HDlow : Zdigits2 (Zpos mx) + Zdigits2 (Zpos my) - 1 <= Zdigits2 P).
  { destruct (Z.le_gt_cases (Zdigits2 (Zpos mx) + Zdigits2 (Zpos my) - 1) (Zdigits2 P))
      as [Hle|Hgt]; [exact Hle|exfalso].
    pose proof (Zdigits2_bounds P HP) as [_ Hhi].
    assert (Hmono : 2 ^ Zdigits2 P
                    <= 2 ^ (Zdigits2 (Zpos mx) - 1) * 2 ^ (Zdigits2 (Zpos my) - 1)).
    { rewrite <- Z.pow_add_r by lia. apply Z.pow_le_mono_r; lia. }
    assert (0 < 2 ^ (Zdigits2 (Zpos mx) - 1)) by (apply Z.pow_pos_nonneg; lia).
    assert (0 < 2 ^ (Zdigits2 (Zpos my) - 1)) by (apply Z.pow_pos_nonneg; lia).
    assert (2 ^ (Zdigits2 (Zpos mx) - 1) * 2 ^ (Zdigits2 (Zpos my) - 1) <= P)
      by (unfold P; apply Z.mul_le_mono_nonneg; lia).
    lia. }
  destruct (binary_round_aux_units (xorb sx sy) P (ex + ey) loc_Exact P 0)
    as [Hfin Herr]; try lia.
  - simpl. lia.
  - rewrite fexp_eq. lia.
  - unfold unit_exponent. lia.
  - split; [exact Hfin|]. rewrite Z.sub_0_r in Herr. fold V in Herr.
    replace (SFunits (binary_round_aux prec emax (xorb sx sy) P (ex + ey) loc_Exact) * 2 ^ unit_exponent
             - cond_Zopp (xorb sx sy) V * 2 ^ unit_exponent)
      with ((SFunits (binary_round_aux prec emax (xorb sx sy) P (ex + ey) loc_Exact)
             - cond_Zopp (xorb sx sy) V) * 2 ^ unit_exponent) by lia.
    rewrite Z.abs_mul, (Z.abs_eq (2 ^ unit_exponent)) by lia.
    assert (Habs : Z.abs (cond_Zopp (xorb sx sy) V * 2 ^ unit_exponent) = V * 2 ^ unit_exponent)
      by (destruct (xorb sx sy); cbn [cond_Zopp]; lia).
    rewrite Habs.
    revert Herr. generalize (Z.abs (SFunits (binary_round_aux prec emax (xorb sx sy) P (ex + ey) loc_Exact)
             - cond_Zopp (xorb sx sy) V)). intros err Herr.
    change (2 ^ 54) with 18014398509481984 in *. nia.
Qed.

(** A quotient by a power of two [2^k = 2^52 * 2^ey]: finite when it
    lies below 2^1023, and then exact up to 2^-53 of its magnitude and
    half the smallest positive number. *)
Lemma SFdiv_pow2_units (x : spec_float) (sy : bool) (ey : Z) :
  SpecFloat.valid_binary prec emax x = true -> SFfinite x = true ->
  -52 <= ey <= 971 ->
  Z.abs (SFunits x) < 2 ^ (1023 + unit_exponent) * 2 ^ (52 + ey) ->
  let y := S754_finite sy pow2_mantissa ey in
  SFfinite (SFdiv prec emax x y) = true /\
  2 ^ 54 * Z.abs (SFunits (SFdiv prec emax x y) * 2 ^ (52 + ey) - cond_Zopp sy (SFunits x))
  <= 2 * Z.abs (SFunits x) + 2 ^ 53 * least_positive * 2 ^ (52 + ey).
Proof.
  intros Hvx Hfx Hey Hbig y. pose proof least_positive_pos as Htiny.
  assert (HK : 0 < 2 ^ (52 + ey)) by (apply Z.pow_pos_nonneg; lia).
  destruct x as [sx| | |sx mx ex]; try discriminate.
  - split; [reflexivity|]. cbn [SFdiv y SFunits]. destruct sy; simpl Z.abs; nia.
  - apply valid_binary_finite in Hvx as (Hex & Hdx & Hcx). rewrite fexp_eq in Hcx.
    unfold y. cbn [SFdiv]. unfold SFdiv_core_binary.
    change (Zdigits2 (Zpos pow2_mantissa)) with 53.
    set (d1 := Zdigits2 (Zpos mx)) in *.
    set (e' := Z.min (fexp prec emax (d1 + ex - (53 + ey))) (ex - ey)).
    assert (He' : e' = Z.min (Z.max (d1 + ex - (53 + ey) - 53) (-1074)) (ex - ey)) by reflexivity.
    set (s := ex - ey - e').
    assert (Hs : 0 <= s) by (unfold s; lia).
    set (m' := match s with Zpos _ => Z.shiftl (Zpos mx) s | Z0 => Zpos mx | Zneg _ => 0 end).
    assert (Hm' : m' = Zpos mx * 2 ^ s).
    { unfold m'. destruct s as [|p|p] eqn:Es; [simpl; lia| |lia].
      now rewrite Z.shiftl_mul_pow2 by lia. }
    clearbody m'.
    pose proof (Z_div_mod m' (Zpos pow2_mantissa) ltac:(reflexivity)) as Hdiv.
    destruct (Z.div_eucl m' (Zpos pow2_mantissa)) as [q r]. destruct Hdiv as [Hqr Hr].
    change (Zpos pow2_mantissa) with (2 ^ 52) in *.
    assert (HS : 0 < 2 ^ s) by (apply Z.pow_pos_nonneg; lia).
    assert (Hq : 0 <= q) by nia.
    assert (Hin : inbetween q (new_location (2 ^ 52) r) m' 52).
    { apply inbetween_spec; [lia|]. unfold new_location.
      change (Z.even (2 ^ 52)) with true. cbv iota. unfold new_location_even.
      destruct (Z.eqb_spec r 0) as [Hr0|Hr0]; [lia|].
      destruct (Z.compare_spec (2 * r) (2 ^ 52)); lia. }
    assert (HV : Zpos mx * 2 ^ (ex + unit_exponent) = m' * 2 ^ (e' - 52 + unit_exponent) * 2 ^ (52 + ey)).
    { rewrite Hm', <- !Z.mul_assoc, <- !Z.pow_add_r by (unfold unit_exponent, s; lia).
      do 2 f_equal. unfold s. lia. }
    set (V := m' * 2 ^ (e' - 52 + unit_exponent)) in *.
    assert (HU : 0 < 2 ^ (e' - 52 + unit_exponent)) by (apply Z.pow_pos_nonneg; unfold unit_exponent; lia).
    assert (HVpos : 0 <= V) by (unfold V; nia).
    assert (Hunits : SFunits (S754_finite sx mx ex) = cond_Zopp sx V * 2 ^ (52 + ey)).
    { cbn [SFunits]. revert HV. generalize (2 ^ (ex + unit_exponent)) (2 ^ (52 + ey)).
      intros A B HV. destruct sx; cbn [cond_Zopp]; lia. }
    rewrite Hunits in *.
    assert (HbigV : V < 2 ^ (1023 + unit_exponent)).
    { assert (Habs : Z.abs (cond_Zopp sx V * 2 ^ (52 + ey)) = V * 2 ^ (52 + ey))
        by (destruct sx; cbn [cond_Zopp]; lia).
      rewrite Habs in Hbig. nia. }
    assert (Hn : e' <= fexp prec emax (Zdigits2 q + e')).
    { rewrite fexp_eq. destruct (Z.le_gt_cases e' (-1074)) as [Hle|Hgt]; [lia|].
      assert (Hs106 : 106 - d1 <= s) by (unfold s; lia).
      pose proof (Zdigits2_bounds (Zpos mx) ltac:(lia)) as [Hlo _]. fold d1 in Hlo.
      assert (Hd1 : 1 <= d1) by (unfold d1; simpl; lia).
      assert (H105 : 2 ^ 105 <= m').
      { rewrite Hm'. transitivity (2 ^ (d1 - 1) * 2 ^ s).
        - rewrite <- Z.pow_add_r by lia. apply Z.pow_le_mono_r; lia.
        - apply Z.mul_le_mono_nonneg_r; lia. }
      assert (Hq53 : 2 ^ 53 <= q).
      { change (2 ^ 105) with (2 ^ 52 * 2 ^ 53) in H105.
        change (2 ^ 52) with 4503599627370496 in *. nia. }
      pose proof (Zdigits2_bounds q ltac:(lia)) as [_ Hhi].
      assert (53 < Zdigits2 q).
      { apply (Z.pow_lt_mono_r_iff 2); [lia|apply Zdigits2_nonneg|lia]. }
      lia. }
    assert (Hd : Zdigits2 q + e' <= 1023).
    { destruct (Z.eq_dec q 0) as [->|Hq0]; [simpl; lia|].
      assert (Hqlt : q * 2 ^ (e' + unit_exponent) < 2 ^ (1023 + unit_exponent)).
      { assert (q * 2 ^ (e' + unit_exponent) <= V); [|lia].
        unfold V. replace (2 ^ (e' + unit_exponent)) with (2 ^ 52 * 2 ^ (e' - 52 + unit_exponent))
          by (rewrite <- Z.pow_add_r by (unfold unit_exponent; lia); f_equal; lia).
        nia. }
      destruct (pow2_lt_exponent q e' 1023 ltac:(lia) Hqlt ltac:(unfold unit_exponent; lia))
        as [Hlt1 Hlt2].
      pose proof (Zdigits2_le q (1023 - e') ltac:(lia) ltac:(lia)). lia. }
    destruct (binary_round_aux_units (xorb sx sy) q e' (new_location (2 ^ 52) r) m' 52
                Hq ltac:(lia) Hin Hn Hd ltac:(unfold unit_exponent; lia)) as [Hfin Herr].
    fold V in Herr. cbv zeta in Herr. split; [exact Hfin|].
    set (R := SFunits (binary_round_aux prec emax (xorb sx sy) q e' (new_location (2 ^ 52) r))) in *.
    replace (R * 2 ^ (52 + ey) - cond_Zopp sy (cond_Zopp sx V * 2 ^ (52 + ey)))
      with ((R - cond_Zopp (xorb sx sy) V) * 2 ^ (52 + ey))
      by (destruct sx, sy; cbn [cond_Zopp xorb]; lia).
    rewrite Z.abs_mul, (Z.abs_eq (2 ^ (52 + ey))) by lia.
    assert (Habs : Z.abs (cond_Zopp sx V * 2 ^ (52 + ey)) = V * 2 ^ (52 + ey))
      by (destruct sx; cbn [cond_Zopp]; lia).
    rewrite Habs.
    revert Herr. generalize (Z.abs (R - cond_Zopp (xorb sx sy) V)). intros err Herr.
    change (2 ^ 54) with 18014398509481984 in *. nia.
Qed.

(** ** Binary64 numbers *)

Lemma sub_units (x y : float) :
  finite_float x = true -> finite_float y = true ->
  Z.abs (units x - units y) < overflow_limit ->
  finite_float (x - y) = true /\
  2 ^ 54 * Z.abs (units (x - y) - (units x - units y))
  <= 2 * Z.abs (units x - units y) + 2 ^ 53 * least_positive.
Proof.
  unfold finite_float, units. rewrite sub_spec. intros Hx Hy Hbig.
  apply SFsub_units; try apply Prim2SF_valid; assumption.
Qed.

Lemma add_units (x y : float) :
  finite_float x = true -> finite_float y = true ->
  Z.abs (units x + units y) < overflow_limit ->
  finite_float (x + y) = true /\
  2 ^ 54 * Z.abs (units (x + y) - (units x + units y))
  <= 2 * Z.abs (units x + units y) + 2 ^ 53 * least_positive.
Proof.
  unfold finite_float, units. rewrite add_spec. intros Hx Hy Hbig.
  apply SFadd_units; try apply Prim2SF_valid; assumption.
Qed.

(** Multiplication by [c = +-2^k]. *)
Lemma mul_pow2_units (x c : float) (sc : bool) (ec : Z) :
  Prim2SF c = S754_finite sc pow2_mantissa ec -> -52 <= ec ->
  finite_float x = true ->
  2 ^ (52 + ec) * Z.abs (units x) < overflow_limit ->
  (finite_float (x * c) = true /\
   2 ^ 54 * Z.abs (units (x * c) - cond_Zopp sc (2 ^ (52 + ec) * units x))
   <= 2 * (2 ^ (52 + ec) * Z.abs (units x)) + 2 ^ 53 * least_positive) /\
  (finite_float (c * x) = true /\
   2 ^ 54 * Z.abs (units (c * x) - cond_Zopp sc (2 ^ (52 + ec) * units x))
   <= 2 * (2 ^ (52 + ec) * Z.abs (units x)) + 2 ^ 53 * least_positive).
Proof.
  intros Hc Hec Hx Hbig.
  assert (HT : 0 < 2 ^ unit_exponent) by reflexivity.
  assert (HK : 0 < 2 ^ (52 + ec)) by (apply Z.pow_pos_nonneg; lia).
  assert (Huc : units c = cond_Zopp sc (2 ^ (52 + ec)) * 2 ^ unit_exponent).
  { unfold units. rewrite Hc. cbn [SFunits].
    change (Zpos pow2_mantissa) with (2 ^ 52).
    assert (E : 2 ^ 52 * 2 ^ (ec + unit_exponent) = 2 ^ (52 + ec) * 2 ^ unit_exponent)
      by (rewrite <- !Z.pow_add_r by (unfold unit_exponent; lia); f_equal; lia).
    revert E. generalize (2 ^ 52) (2 ^ (ec + unit_exponent)) (2 ^ (52 + ec)) (2 ^ unit_exponent).
    intros A B C D E. destruct sc; cbn [cond_Zopp]; lia. }
  assert (Hfc : SFfinite (Prim2SF c) = true) by now rewrite Hc.
  assert (Hprod : units x * units c = cond_Zopp sc (2 ^ (52 + ec) * units x) * 2 ^ unit_exponent).
  { rewrite Huc. generalize (2 ^ (52 + ec)) (2 ^ unit_exponent) (units x). intros A B C.
    destruct sc; cbn [cond_Zopp]; lia. }
  assert (Habs : Z.abs (units x * units c) = 2 ^ (52 + ec) * Z.abs (units x) * 2 ^ unit_exponent).
  { rewrite Hprod, Z.abs_mul, (Z.abs_eq (2 ^ unit_exponent)) by lia. f_equal.
    destruct sc; cbn [cond_Zopp]; rewrite ?Z.abs_opp, Z.abs_mul, (Z.abs_eq (2 ^ (52 + ec))) by lia;
      reflexivity. }
  assert (Hpre : Z.abs (units x * units c) < 2 ^ (1023 + unit_exponent) * 2 ^ unit_exponent).
  { rewrite Habs. fold overflow_limit. apply Z.mul_lt_mono_pos_r; [exact HT|exact Hbig]. }
  assert (Hdiv : forall R,
             2 ^ 54 * Z.abs (R * 2 ^ unit_exponent - units x * units c)
             <= 2 * Z.abs (units x * units c) + 2 ^ 53 * least_positive * 2 ^ unit_exponent ->
             2 ^ 54 * Z.abs (R - cond_Zopp sc (2 ^ (52 + ec) * units x))
             <= 2 * (2 ^ (52 + ec) * Z.abs (units x)) + 2 ^ 53 * least_positive).
  { intros R HR. rewrite Habs, Hprod in HR.
    replace (R * 2 ^ unit_exponent - cond_Zopp sc (2 ^ (52 + ec) * units x) * 2 ^ unit_exponent)
      with ((R - cond_Zopp sc (2 ^ (52 + ec) * units x)) * 2 ^ unit_exponent) in HR by lia.
    rewrite Z.abs_mul, (Z.abs_eq (2 ^ unit_exponent)) in HR by lia.
    apply (Z.mul_le_mono_pos_r _ _ (2 ^ unit_exponent) HT). lia. }
  split.
  - unfold finite_float. fold (units (x * c)). unfold units at 1. rewrite mul_spec.
    destruct (SFmul_units (Prim2SF x) (Prim2SF c)) as [Hfin Herr];
      try apply Prim2SF_valid; try assumption.
    split; [exact Hfin|]. apply Hdiv. exact Herr.
  - unfold finite_float. fold (units (c * x)). unfold units at 1. rewrite mul_spec.
    destruct (SFmul_units (Prim2SF c) (Prim2SF x)) as [Hfin Herr];
      try apply Prim2SF_valid; try assumption.
    + fold (units c) (units x). now rewrite Z.mul_comm.
    + split; [exact Hfin|]. apply Hdiv. fold (units c) (units x) in Herr.
      now rewrite (Z.mul_comm (units x)).
Qed.

(** Division by [c = +-2^k]. *)
Lemma div_pow2_units (x c : float) (sc : bool) (ec : Z) :
  Prim2SF c = S754_finite sc pow2_mantissa ec -> -52 <= ec <= 971 ->
  finite_float x = true ->
  Z.abs (units x) < overflow_limit * 2 ^ (52 + ec) ->
  finite_float (x / c) = true /\
  2 ^ 54 * Z.abs (units (x / c) * 2 ^ (52 + ec) - cond_Zopp sc (units x))
  <= 2 * Z.abs (units x) + 2 ^ 53 * least_positive * 2 ^ (52 + ec).
Proof.
  intros Hc Hec Hx Hbig. unfold finite_float, units. rewrite div_spec, Hc.
  apply SFdiv_pow2_units; [apply Prim2SF_valid|exact Hx|exact Hec|exact Hbig].
Qed.

Lemma Prim2SF_span : Prim2SF (float_of_Z (int_add X2 (- X1))) = S754_finite false pow2_mantissa (-28).
Proof. vm_compute. reflexivity. Qed.

Lemma Prim2SF_X1 : Prim2SF (float_of_Z X1) = S754_finite true pow2_mantissa (-29).
Proof. vm_compute. reflexivity. Qed.

Lemma Prim2SF_X2 : Prim2SF (float_of_Z X2) = S754_finite false pow2_mantissa (-29).
Proof. vm_compute. reflexivity. Qed.

Lemma calibration_units (Y1 Y2 : float) :
  finite_float Y1 = true -> finite_float Y2 = true ->
  Z.abs (units Y1) <= range_limit -> Z.abs (units Y2) <= range_limit ->
  let ESLO := cal_ESLO Y1 Y2 in
  let EOFF := cal_EOFF Y1 Y2 in
  (finite_float (calibrate ESLO EOFF X1) = true /\
   2 ^ 49 * Z.abs (units (calibrate ESLO EOFF X1) - units Y1)
   <= Z.abs (units Y1) + Z.abs (units Y2) + 2 ^ 75 * least_positive) /\
  (finite_float (calibrate ESLO EOFF X2) = true /\
   2 ^ 49 * Z.abs (units (calibrate ESLO EOFF X2) - units Y2)
   <= Z.abs (units Y1) + Z.abs (units Y2) + 2 ^ 75 * least_positive).
Proof.
  intros Hf1 Hf2 Hb1 Hb2. cbv zeta.
  pose proof least_positive_pos as Htiny.
  assert (Hlimit0 : overflow_limit = 2 ^ 23 * range_limit) by reflexivity.
  assert (Htr : 2 ^ 100 * least_positive <= range_limit) by (vm_compute; discriminate).
  unfold calibrate, cal_EOFF, cal_ESLO. cbn [r_add r_sub r_mul r_div r_of_int Arith_float].
  set (a := units Y1) in *. set (b := units Y2) in *.
  set (A := Z.abs a + Z.abs b).
  assert (HA : Z.abs a <= A /\ Z.abs b <= A /\ Z.abs (b - a) <= A /\ 0 <= A <= 2 * range_limit)
    by (unfold A; lia).
  clearbody A.
  (* D = Y2 - Y1 *)
  destruct (sub_units Y2 Y1 Hf2 Hf1) as [HfD HD]; [fold a b; lia|]. fold a b in HD.
  set (D := (Y2 - Y1)%float) in *. set (uD := units D) in *.
  assert (E1 : 2 ^ 54 * Z.abs (uD - (b - a)) <= 2 * A + 2 ^ 53 * least_positive) by (clear - HD HA; lia).
  assert (C1 : Z.abs uD <= 2 * A + least_positive) by (clear - E1 HA Htiny; lia).
  clear HD.
  (* S = D / 2^24 *)
  destruct (div_pow2_units D _ _ _ Prim2SF_span ltac:(lia) HfD) as [HfS HS].
  { fold uD. change (2 ^ (52 + -28)) with (2 ^ 24). clear - C1 HA Hlimit0 Htr Htiny. lia. }
  fold uD in HS. change (2 ^ (52 + -28)) with (2 ^ 24) in HS. cbn [cond_Zopp] in HS.
  set (S := (D / float_of_Z (int_add X2 (- X1)))%float) in *. set (uS := units S) in *.
  assert (E2 : 2 ^ 54 * Z.abs (uS * 2 ^ 24 - uD) <= 4 * A + 2 ^ 78 * least_positive)
    by (clear - HS C1 Htiny; lia).
  assert (C2 : 2 ^ 23 * Z.abs uS <= 2 * A + 2 ^ 24 * least_positive) by (clear - E2 C1 HA Htiny; lia).
  clear HS.
  (* P = X1 * S, Q1 = S * X1, Q2 = S * X2 *)
  destruct (mul_pow2_units S _ _ _ Prim2SF_X1 ltac:(lia) HfS) as [[HfQ1 HQ1] [HfP HP]].
  { fold uS. change (2 ^ (52 + -29)) with (2 ^ 23). clear - C2 HA Hlimit0 Htr Htiny. lia. }
  fold uS in HQ1, HP. change (2 ^ (52 + -29)) with (2 ^ 23) in HQ1, HP.
  cbn [cond_Zopp] in HQ1, HP.
  destruct (mul_pow2_units S _ _ _ Prim2SF_X2 ltac:(lia) HfS) as [[HfQ2 HQ2] _].
  { fold uS. change (2 ^ (52 + -29)) with (2 ^ 23). clear - C2 HA Hlimit0 Htr Htiny. lia. }
  fold uS in HQ2. change (2 ^ (52 + -29)) with (2 ^ 23) in HQ2. cbn [cond_Zopp] in HQ2.
  set (P := (float_of_Z X1 * S)%float) in *. set (uP := units P) in *.
  set (Q1 := (S * float_of_Z X1)%float) in *. set (uQ1 := units Q1) in *.
  set (Q2 := (S * float_of_Z X2)%float) in *. set (uQ2 := units Q2) in *.
  assert (E3 : 2 ^ 54 * Z.abs (uP + 2 ^ 23 * uS) <= 4 * A + 2 ^ 54 * least_positive)
    by (clear - HP C2 Htiny; lia).
  assert (E5 : 2 ^ 54 * Z.abs (uQ1 + 2 ^ 23 * uS) <= 4 * A + 2 ^ 54 * least_positive)
    by (clear - HQ1 C2 Htiny; lia).
  assert (E7 : 2 ^ 54 * Z.abs (uQ2 - 2 ^ 23 * uS) <= 4 * A + 2 ^ 54 * least_positive)
    by (clear - HQ2 C2 Htiny; lia).
  assert (C3 : Z.abs uP <= 3 * A + 2 ^ 25 * least_positive) by (clear - E3 C2 HA Htiny; lia).
  clear HP HQ1 HQ2.
  (* O = Y1 - P *)
  destruct (sub_units Y1 P Hf1 HfP) as [HfO HO].
  { fold a uP. clear - C3 HA Hlimit0 Htr Htiny. lia. }
  fold a uP in HO.
  set (O := (Y1 - P)%float) in *. set (uO := units O) in *.
  assert (E4 : 2 ^ 54 * Z.abs (uO - (a - uP)) <= 8 * A + 2 ^ 54 * least_positive)
    by (clear - HO C3 HA Htiny; lia).
  clear HO.
  split.
  - assert (C5 : Z.abs (uQ1 + uO) <= 2 * A + 4 * least_positive) by (clear - E3 E4 E5 HA Htiny; lia).
    destruct (add_units Q1 O HfQ1 HfO) as [HfR HR].
    { fold uQ1 uO. clear - C5 HA Hlimit0 Htr Htiny. lia. }
    fold uQ1 uO in HR. split; [exact HfR|].
    set (uR := units (Q1 + O)) in *.
    assert (E6 : 2 ^ 54 * Z.abs (uR - (uQ1 + uO)) <= 4 * A + 2 ^ 54 * least_positive)
      by (clear - HR C5 Htiny; lia).
    clear - E3 E4 E5 E6 HA Htiny. lia.
  - assert (C5 : Z.abs (uQ2 + uO) <= 2 * A + 2 ^ 30 * least_positive)
      by (clear - E1 E2 E3 E4 E7 HA Htiny; lia).
    destruct (add_units Q2 O HfQ2 HfO) as [HfR HR].
    { fold uQ2 uO. clear - C5 HA Hlimit0 Htr Htiny. lia. }
    fold uQ2 uO in HR. split; [exact HfR|].
    set (uR := units (Q2 + O)) in *.
    assert (E6 : 2 ^ 54 * Z.abs (uR - (uQ2 + uO)) <= 4 * A + 2 ^ 54 * least_positive)
      by (clear - HR C5 Htiny; lia).
    clear - E1 E2 E3 E4 E7 E6 HA Htiny. lia.
Qed.

Lemma Qunit_pos : (0 < inject_Z (2 ^ unit_exponent))%Q.
Proof. reflexivity. Qed.

Lemma float_value_units (x : float) : (float_value x == Qunits (units x))%Q.
Proof.
  unfold float_value, units, Qunits. pose proof (Prim2SF_valid x) as Hv.
  destruct (Prim2SF x) as [s| | |s m e]; cbn [SF2Q SFunits]; try (unfold Qdiv; ring).
  apply valid_binary_finite in Hv as (He & _ & _).
  rewrite inject_Z_mult.
  assert (Hp : (inject_Z (2 ^ (e + unit_exponent)) == (2 # 1) ^ e * inject_Z (2 ^ unit_exponent))%Q).
  { rewrite !Zpower_Qpower by (unfold unit_exponent; lia).
    change (inject_Z 2) with (2 # 1). apply Qpower_plus. discriminate. }
  rewrite Hp. field. intros H0. pose proof Qunit_pos as Hpos. rewrite H0 in Hpos.
  discriminate.
Qed.

Lemma Qunits_le (x y : Z) : x <= y <-> (Qunits x <= Qunits y)%Q.
Proof.
  unfold Qunits, Qdiv. pose proof Qunit_pos as Hpos.
  assert (Hinv : (0 < / inject_Z (2 ^ unit_exponent))%Q) by now apply Qinv_lt_0_compat.
  split.
  - intros Hle. apply Qmult_le_compat_r; [now rewrite <- Zle_Qle|now apply Qlt_le_weak].
  - intros Hle. rewrite Zle_Qle. apply (Qmult_le_r _ _ _ Hinv). exact Hle.
Qed.

Lemma Qunits_abs (z : Z) : (Qabs (Qunits z) == Qunits (Z.abs z))%Q.
Proof.
  unfold Qunits, Qdiv. rewrite Qabs_Qmult, Qabs_Qinv.
  rewrite (Qabs_pos (inject_Z (2 ^ unit_exponent))) by (apply Qlt_le_weak, Qunit_pos).
  apply Qmult_comp; [|reflexivity]. unfold inject_Z. symmetry. apply Zabs_Qabs.
Qed.

Lemma Qunits_minus (x y : Z) : (Qunits x - Qunits y == Qunits (x - y))%Q.
Proof.
  unfold Qunits. unfold Z.sub. rewrite inject_Z_plus, inject_Z_opp. field.
  intros H0. pose proof Qunit_pos as Hpos. rewrite H0 in Hpos. discriminate.
Qed.

Lemma Qunits_plus (x y : Z) : (Qunits x + Qunits y == Qunits (x + y))%Q.
Proof.
  unfold Qunits. rewrite inject_Z_plus. field.
  intros H0. pose proof Qunit_pos as Hpos. rewrite H0 in Hpos. discriminate.
Qed.

Lemma units_bound_Q (ur ua a b : Z) :
  2 ^ 49 * Z.abs (ur - ua) <= Z.abs a + Z.abs b + 2 ^ 75 * least_positive ->
  (Qabs (Qunits ur - Qunits ua)
   <= (Qabs (Qunits a) + Qabs (Qunits b)) * (1 # 2 ^ 49) + (1 # 2 ^ 1048))%Q.
Proof.
  intros Hz. rewrite Qunits_minus, !Qunits_abs, Qunits_plus.
  assert (Htol : ((1 # 2 ^ 1048) == Qunits (2 ^ 75 * least_positive) * (1 # 2 ^ 49))%Q)
    by (vm_compute; reflexivity).
  rewrite Htol, <- Qmult_plus_distr_l, Qunits_plus.
  assert (Hx : (Qunits (Z.abs (ur - ua))
                == Qunits (2 ^ 49 * Z.abs (ur - ua)) * (1 # 2 ^ 49))%Q).
  { unfold Qunits. rewrite inject_Z_mult.
    change (inject_Z (2 ^ 49)) with (562949953421312 # 1).
    change (1 # 2 ^ 49) with (1 # 562949953421312).
    generalize (inject_Z (Z.abs (ur - ua))). intros X.
    pose proof Qunit_pos as Hpos. revert Hpos.
    generalize (inject_Z (2 ^ unit_exponent)). intros T Hpos. field.
    intros H0. rewrite H0 in Hpos. discriminate. }
  rewrite Hx. apply Qmult_le_compat_r; [|discriminate].
  apply (proj1 (Qunits_le _ _)). exact Hz.
Qed.

(** Binary64 calibration of a finite range within 2^1000: the ends of
    the raw-code domain are mapped to the ends of the range, up to the
    tolerance [calibration_tolerance]. *)
Lemma calibration_ends (Y1 Y2 : float) :
  finite_float Y1 = true -> finite_float Y2 = true ->
  (Qabs (float_value Y1) <= inject_Z (2 ^ 1000))%Q ->
  (Qabs (float_value Y2) <= inject_Z (2 ^ 1000))%Q ->
  let ESLO := cal_ESLO Y1 Y2 in
  let EOFF := cal_EOFF Y1 Y2 in
  finite_float (calibrate ESLO EOFF X1) = true /\
  (Qabs (float_value (calibrate ESLO EOFF X1) - float_value Y1) <= calibration_tolerance Y1 Y2)%Q /\
  finite_float (calibrate ESLO EOFF X2) = true /\
  (Qabs (float_value (calibrate ESLO EOFF X2) - float_value Y2) <= calibration_tolerance Y1 Y2)%Q.
Proof.
  intros Hf1 Hf2 Hb1 Hb2 ESLO EOFF.
  assert (Hlim : forall Y, (Qabs (float_value Y) <= inject_Z (2 ^ 1000))%Q ->
                           Z.abs (units Y) <= range_limit).
  { intros Y HY. rewrite float_value_units, Qunits_abs in HY.
    apply (proj2 (Qunits_le _ _)). eapply Qle_trans; [exact HY|].
    assert (Hlimit : (Qunits range_limit == inject_Z (2 ^ 1000))%Q) by (vm_compute; reflexivity).
    rewrite Hlimit. apply Qle_refl. }
  destruct (calibration_units Y1 Y2 Hf1 Hf2 (Hlim Y1 Hb1) (Hlim Y2 Hb2))
    as [[HfX1 HX1] [HfX2 HX2]].
  fold ESLO EOFF in HfX1, HX1, HfX2, HX2. unfold calibration_tolerance.
  split; [exact HfX1|]. split; [|split; [exact HfX2|]].
  - rewrite !float_value_units. apply units_bound_Q. exact HX1.
  - rewrite !float_value_units. apply units_bound_Q. exact HX2.
Qed.


(** * Properties *)

Lemma wrap_int_id (z : Z) : INT_MIN <= z <= INT_MAX -> wrap_int z = z.
Proof.
  unfold wrap_int, INT_MIN, INT_MAX. intros Hz.
  rewrite Z.mod_small by lia. lia.
Qed.

Section Properties.
Context `{Accumulator} `{Platform}.

(** ** Reasoning about member functions *)

Lemma bind_Ok {A B} (m : M A) (f : A -> M B) s a s1 :
  m s = Ok a s1 -> (m ≫= f) s = f a s1.
Proof. intros Hm. unfold mbind, M_bind. now rewrite Hm. Qed.

Lemma bind_Ok_inv {A B} (m : M A) (f : A -> M B) s b s' :
  (m ≫= f) s = Ok b s' -> exists a s1, m s = Ok a s1 /\ f a s1 = Ok b s'.
Proof.
  unfold mbind, M_bind. destruct (m s) as [a s1| | |] eqn:Hm; try discriminate.
  intros Hf. now exists a, s1.
Qed.

(** Running a member function from a state, one call at a time. *)
Lemma bind_eq {A B} (m : M A) (f : A -> M B) s :
  (m ≫= f) s = match m s with
               | Ok a s' => f a s'
               | Exited c s' => Exited c s'
               | Aborted s' => Aborted s'
               | Undefined => Undefined
               end.
Proof. reflexivity. Qed.

Lemma run_mret {A} (a : A) (s : device) : (mret a : M A) s = Ok a s.
Proof. reflexivity. Qed.

Lemma run_log e (s : device) : log e s = Ok tt (with_trace (e :: trace s) s).
Proof. reflexivity. Qed.

Lemma run_modify f (s : device) : modify f s = Ok tt (f s).
Proof. reflexivity. Qed.

Lemma run_gets {A} (f : device -> A) (s : device) : gets f s = Ok (f s) s.
Proof. reflexivity. Qed.

Lemma run_of_option {A} (a : A) (s : device) : (of_option (Some a) : M A) s = Ok a s.
Proof. reflexivity. Qed.

Lemma run_exit {A} c (s : device) : @exit _ A c s = Exited c s.
Proof. reflexivity. Qed.

Lemma valid_list_0 (s : device) : valid_list s 0 = true.
Proof. unfold valid_list. apply andb_true_iff. split; [reflexivity|]. apply Z.ltb_lt. lia. Qed.

Lemma run_setDoubleParam list index v (s : device) :
  valid_list s list = true ->
  param_type index = Some asynParamFloat64 ->
  setDoubleParam list index v s
  = Ok asynSuccess (with_params (<[(list, index) := PDouble v]> (params s)) s).
Proof.
  intros Hl Hi. unfold setDoubleParam, set_param. now rewrite Hl, Hi.
Qed.

Lemma run_setIntegerParam list index v (s : device) :
  valid_list s list = true ->
  param_type index = Some asynParamInt32 ->
  setIntegerParam list index v s
  = Ok asynSuccess (with_params (<[(list, index) := PInt v]> (params s)) s).
Proof.
  intros Hl Hi. unfold setIntegerParam, set_param. now rewrite Hl, Hi.
Qed.

Lemma run_load_int index z (s : device) :
  getIntegerParam 0 index s = Some z -> load_int index s = Ok z s.
Proof. intros Hz. unfold load_int. now rewrite Hz. Qed.

Lemma run_callParamCallbacks list (s : device) :
  callParamCallbacks list s
  = Ok (callbacks_status list) (with_trace (EvParamCallbacks list :: trace s) s).
Proof. reflexivity. Qed.

Ltac mrun :=
  repeat first
    [ rewrite bind_eq
    | rewrite run_mret
    | rewrite run_log
    | rewrite run_modify
    | rewrite run_gets
    | rewrite run_of_option
    | rewrite run_exit
    | rewrite run_callParamCallbacks
    | progress cbv beta iota ].

(** The events a call added, when they are a handful. *)
Ltac new_events :=
  first
    [ exists []; split; [reflexivity|]
    | eexists [_]; split; [reflexivity|]
    | eexists [_; _]; split; [reflexivity|]
    | eexists [_; _; _]; split; [reflexivity|]
    | eexists [_; _; _; _]; split; [reflexivity|]
    | eexists [_; _; _; _; _]; split; [reflexivity|] ].

Section Rel.
Context (R : relation device) `{!PreOrder R}.

Lemma rel_ret {A} (a : A) : rel R (mret a).
Proof. intros s s' [= <-]. reflexivity. Qed.

Lemma rel_bind {A B} (m : M A) (f : A -> M B) :
  rel R m -> (forall a, rel R (f a)) -> rel R (m ≫= f).
Proof.
  intros Hm Hf s s'. unfold mbind, M_bind.
  destruct (m s) as [a s1|c s1|s1|] eqn:Em; simpl; intros Hs.
  - transitivity s1.
    + apply Hm. now rewrite Em.
    + now apply (Hf a).
  - apply Hm. now rewrite Em.
  - apply Hm. now rewrite Em.
  - discriminate.
Qed.

(** The same at one starting state. *)
Lemma rel_bind_at {A B} (m : M A) (f : A -> M B) s s' :
  state_of ((m ≫= f) s) = Some s' ->
  (forall s1, state_of (m s) = Some s1 -> R s s1) ->
  (forall a, rel R (f a)) ->
  R s s'.
Proof.
  intros Hs Hm Hf. rewrite bind_eq in Hs.
  destruct (m s) as [a s1|c s1|s1|] eqn:Em; simpl in Hs.
  - transitivity s1; [now apply Hm|now apply (Hf a)].
  - injection Hs as <-. now apply Hm.
  - injection Hs as <-. now apply Hm.
  - discriminate.
Qed.

Lemma rel_gets {A} (f : device -> A) : rel R (gets f).
Proof. intros s s' [= <-]. reflexivity. Qed.

Lemma rel_exit {A} c : rel R (@exit _ A c).
Proof. intros s s' [= <-]. reflexivity. Qed.

Lemma rel_assert_fail {A} : rel R (@assert_fail _ A).
Proof. intros s s' [= <-]. reflexivity. Qed.

Lemma rel_undefined {A} : rel R (@undefined _ A).
Proof. intros s s' [=]. Qed.

Lemma rel_of_option {A} (o : option A) : rel R (of_option o).
Proof. destruct o; [apply rel_ret | apply rel_undefined]. Qed.

Lemma rel_load_int index : rel R (load_int index).
Proof.
  intros s s'. unfold load_int.
  destruct (getIntegerParam 0 index s); intros [= <-]. reflexivity.
Qed.

Lemma rel_modify (f : device -> device) :
  (forall s, R s (f s)) -> rel R (modify f).
Proof. intros Hf s s' [= <-]. apply Hf. Qed.

Lemma rel_if {A} (b : bool) (m1 m2 : M A) :
  rel R m1 -> rel R m2 -> rel R (if b then m1 else m2).
Proof. now destruct b. Qed.

Lemma rel_for_loop {L} (body : Z -> L -> M L) (n : nat) :
  forall i0 l,
    (forall i l, i0 <= i < i0 + Z.of_nat n -> rel R (body i l)) ->
    rel R (for_loop n i0 body l).
Proof.
  induction n as [|n IH]; intros i0 l Hbody; simpl.
  - apply rel_ret.
  - apply rel_bind.
    + apply Hbody. lia.
    + intros l'. apply IH. intros i l0 Hi. apply Hbody. lia.
Qed.

Lemma rel_set_param ty list index v (k : asynStatus -> device -> result device asynStatus) :
  (forall s, R s (with_params (<[(list, index) := v]> (params s)) s)) ->
  forall s s',
    (forall st s1, state_of (k st s1) = Some s' -> s1 = s') ->
    state_of (let '(st, s1) := set_param ty list index v s in k st s1) = Some s' ->
    R s s'.
Proof.
  intros HR s s' Hk. unfold set_param.
  destruct (negb (valid_list s list)); [|destruct (param_type index) as [ty'|];
    [destruct (asynParamType_eqb ty ty')|]];
    intros Hs; apply Hk in Hs; subst s'; try reflexivity. apply HR.
Qed.

Lemma rel_setIntegerParam list index v :
  (forall s, R s (with_params (<[(list, index) := PInt v]> (params s)) s)) ->
  rel R (setIntegerParam list index v).
Proof.
  intros HR s s'. unfold setIntegerParam. apply rel_set_param; [exact HR|].
  now intros st s1 [= ->].
Qed.

Lemma rel_setDoubleParam list index v :
  (forall s, R s (with_params (<[(list, index) := PDouble v]> (params s)) s)) ->
  rel R (setDoubleParam list index v).
Proof.
  intros HR s s'. unfold setDoubleParam. apply rel_set_param; [exact HR|].
  now intros st s1 [= ->].
Qed.

End Rel.

#[local] Instance keeps_preorder {A} (f : device -> A) : PreOrder (keeps f).
Proof.
  split.
  - intros s. reflexivity.
  - intros s1 s2 s3 H12 H23. unfold keeps in *. congruence.
Qed.

#[local] Instance ext_preorder (P : event -> Prop) : PreOrder (ext P).
Proof.
  split.
  - intros s. now exists [].
  - intros s1 s2 s3 (n1 & E1 & F1) (n2 & E2 & F2). exists (n2 ++ n1). split.
    + rewrite E2, E1. now rewrite app_assoc.
    + now apply Forall_app.
Qed.

(** The structure of a member function, peeled one construct at a time;
    what is left are the state updates themselves. *)
Ltac rel_step :=
  lazymatch goal with
  | |- rel _ (mret _) => apply rel_ret; typeclasses eauto
  | |- rel _ (_ ≫= _) => apply rel_bind; [typeclasses eauto| |intros ?]
  | |- rel _ (for_loop _ _ _ _) => apply rel_for_loop; [typeclasses eauto|intros ? ? ?]
  | |- rel _ (if _ then _ else _) => apply rel_if
  | |- rel _ (gets _) => apply rel_gets; typeclasses eauto
  | |- rel _ (of_option _) => apply rel_of_option; typeclasses eauto
  | |- rel _ (load_int _) => apply rel_load_int; typeclasses eauto
  | |- rel _ (exit _) => apply rel_exit; typeclasses eauto
  | |- rel _ assert_fail => apply rel_assert_fail; typeclasses eauto
  | |- rel _ undefined => apply rel_undefined
  | |- rel _ (log _) => unfold log; apply rel_modify; intros ?
  | |- rel _ (modify _) => apply rel_modify; intros ?
  | |- rel _ (setIntegerParam _ _ _) => apply rel_setIntegerParam; [typeclasses eauto|intros ?]
  | |- rel _ (setDoubleParam _ _ _) => apply rel_setDoubleParam; [typeclasses eauto|intros ?]
  | |- rel _ (callParamCallbacks _) => unfold callParamCallbacks
  | |- rel _ (doCallbacksFloat64Array _ _ _ _) => unfold doCallbacksFloat64Array
  | |- rel _ (store _ _ _) => unfold store
  | |- rel _ (report ?st _ _ _ _) => unfold report; destruct st
  | |- rel _ (match ?o with Some _ => _ | None => _ end) => destruct o
  end.

Ltac rel_steps := cbv zeta; repeat rel_step.

(** New events, each satisfying the predicate. *)
Ltac ext_events :=
  solve [ (eexists []; split; [reflexivity|constructor])
        | (eexists [_]; split; [reflexivity|repeat constructor; simpl; auto]) ].

(** *** Loops *)

Lemma for_loop_S {L} (body : Z -> L -> M L) n i0 l :
  for_loop (S n) i0 body l = (body i0 l ≫= for_loop n (i0 + 1) body).
Proof. reflexivity. Qed.

(** The last turn of a loop that returned. *)
Lemma for_loop_Ok_last {L} (body : Z -> L -> M L) n :
  forall i0 l s l' s',
    for_loop (S n) i0 body l s = Ok l' s' ->
    exists l1 s1,
      for_loop n i0 body l s = Ok l1 s1 /\ body (i0 + Z.of_nat n) l1 s1 = Ok l' s'.
Proof.
  induction n as [|n IH]; intros i0 l s l' s' Hrun.
  - rewrite for_loop_S in Hrun. apply bind_Ok_inv in Hrun as (la & sa & Hb & Hrest).
    simpl in Hrest. injection Hrest as <- <-.
    exists l, s. split; [reflexivity|]. now rewrite Z.add_0_r.
  - rewrite for_loop_S in Hrun. apply bind_Ok_inv in Hrun as (la & sa & Hb & Hrest).
    apply IH in Hrest as (l1 & s1 & Hinit & Hlast).
    exists l1, s1. split.
    + rewrite for_loop_S. now rewrite (bind_Ok _ _ _ _ _ Hb).
    + rewrite <- Hlast. f_equal. lia.
Qed.

(** An invariant of the turns that return is an invariant of the loop. *)
Lemma for_loop_Ok_inv {L} (I : Z -> L -> device -> Prop) (body : Z -> L -> M L) n :
  forall i0 l s l' s',
    for_loop n i0 body l s = Ok l' s' ->
    I i0 l s ->
    (forall i l s l' s',
        i0 <= i < i0 + Z.of_nat n -> I i l s -> body i l s = Ok l' s' -> I (i + 1) l' s') ->
    I (i0 + Z.of_nat n) l' s'.
Proof.
  induction n as [|n IH]; intros i0 l s l' s' Hrun HI Hstep.
  - simpl in Hrun. injection Hrun as <- <-. now rewrite Z.add_0_r.
  - rewrite for_loop_S in Hrun. apply bind_Ok_inv in Hrun as (la & sa & Hb & Hrest).
    replace (i0 + Z.of_nat (S n)) with ((i0 + 1) + Z.of_nat n) by lia.
    eapply IH; [exact Hrest| |].
    + eapply Hstep; [|exact HI|exact Hb]. lia.
    + intros i l0 s0 l0' s0' Hi. apply Hstep. lia.
Qed.

(** A loop whose turns return, returns. *)
Lemma for_loop_returns {L} (I : Z -> L -> device -> Prop) (body : Z -> L -> M L) n :
  forall i0 l s,
    I i0 l s ->
    (forall i l s,
        i0 <= i < i0 + Z.of_nat n -> I i l s ->
        exists l' s', body i l s = Ok l' s' /\ I (i + 1) l' s') ->
    exists l' s', for_loop n i0 body l s = Ok l' s' /\ I (i0 + Z.of_nat n) l' s'.
Proof.
  induction n as [|n IH]; intros i0 l s HI Hstep.
  - exists l, s. rewrite Z.add_0_r. now split.
  - destruct (Hstep i0 l s) as (la & sa & Hb & HIa); [lia|exact HI|].
    destruct (IH (i0 + 1) la sa HIa) as (l' & s' & Hrun & HI').
    + intros i l0 s0 Hi. apply Hstep. lia.
    + exists l', s'. split.
      * rewrite for_loop_S. now rewrite (bind_Ok _ _ _ _ _ Hb).
      * replace (i0 + Z.of_nat (S n)) with ((i0 + 1) + Z.of_nat n) by lia. exact HI'.
Qed.

(** ** Binary64 comparisons *)

Lemma SFcompare_antisym (x y : spec_float) (c : comparison) :
  SFcompare x y = Some c -> SFcompare y x = Some (CompOpp c).
Proof.
  destruct x as [sx|sx| |sx mx ex], y as [sy|sy| |sy my ey]; simpl;
    try discriminate; intros [= <-];
    try (destruct sx; reflexivity); try (destruct sy; reflexivity);
    try (destruct sx, sy; reflexivity).
  destruct sx, sy; try reflexivity; f_equal;
    rewrite (Z.compare_antisym ex ey); destruct (ex ?= ey); simpl; try reflexivity.
  - rewrite Pos.compare_cont_antisym. simpl. now rewrite CompOpp_involutive.
  - now rewrite Pos.compare_cont_antisym.
Qed.

Lemma float_leb_not_ltb (x y : float) :
  PrimFloat.leb y x = true -> PrimFloat.ltb x y = false.
Proof.
  rewrite leb_spec, ltb_spec. unfold SFleb, SFltb.
  destruct (SFcompare (Prim2SF y) (Prim2SF x)) as [c|] eqn:E; [|discriminate].
  rewrite (SFcompare_antisym _ _ _ E). now destruct c.
Qed.

(** ** Parameters *)

Lemma getIntegerParam_with_trace index t s :
  getIntegerParam 0 index (with_trace t s) = getIntegerParam 0 index s.
Proof. reflexivity. Qed.

(** ** Writes of the update time *)

Lemma getIntegerParam_insert_ne list index v index' s :
  (list, index) <> (0, index') ->
  getIntegerParam 0 index' (with_params (<[(list, index) := v]> (params s)) s)
  = getIntegerParam 0 index' s.
Proof. intros Hne. unfold getIntegerParam. simpl. now rewrite lookup_insert_ne. Qed.

(** C6. A write of the update time below MIN_UPDATE_TIME (0.02) stores
    the floor instead, traces a warning and returns the status of the
    callback dispatch, asynSuccess when the dispatch succeeds; a write at
    or above the floor stores the value as written and traces no
    warning. *)
Theorem writeFloat64_update_time_floor (s : device) (value : float) (run : Z) :
  getIntegerParam 0 P_Run s = Some run ->
  callbacks_status 0 = asynSuccess ->
  (PrimFloat.ltb value MIN_UPDATE_TIME = true ->
   exists s',
     writeFloat64 P_UpdateTime value s = Ok asynSuccess s' /\
     getDoubleParam 0 P_UpdateTime s' = Some MIN_UPDATE_TIME /\
     exists new, trace s' = new ++ trace s /\ In (update_time_warning value) new) /\
  (PrimFloat.leb MIN_UPDATE_TIME value = true ->
   exists s',
     writeFloat64 P_UpdateTime value s = Ok asynSuccess s' /\
     getDoubleParam 0 P_UpdateTime s' = Some value /\
     exists new, trace s' = new ++ trace s /\ Forall (fun e => ~ is_warning e) new).
Proof.
  intros Hrun Hcb. split.
  - intros Hlt. unfold writeFloat64. rewrite Z.eqb_refl, Hlt.
    mrun. rewrite run_setDoubleParam by (apply valid_list_0 || reflexivity).
    mrun. rewrite run_setDoubleParam by (apply valid_list_0 || reflexivity).
    mrun. erewrite run_load_int.
    2:{ repeat (rewrite getIntegerParam_with_trace
                || rewrite getIntegerParam_insert_ne by discriminate).
        exact Hrun. }
    mrun. destruct (run =? 0); mrun; rewrite Hcb; unfold report; mrun;
      eexists; (split; [reflexivity|]);
      (split; [unfold getDoubleParam; simpl; now rewrite lookup_insert_eq|]);
      new_events; simpl; unfold update_time_warning; tauto.
  - intros Hle. apply float_leb_not_ltb in Hle.
    unfold writeFloat64. rewrite Z.eqb_refl, Hle.
    mrun. rewrite run_setDoubleParam by (apply valid_list_0 || reflexivity).
    mrun. erewrite run_load_int.
    2:{ repeat (rewrite getIntegerParam_with_trace
                || rewrite getIntegerParam_insert_ne by discriminate).
        exact Hrun. }
    mrun. destruct (run =? 0); mrun; rewrite Hcb; unfold report; mrun;
      eexists; (split; [reflexivity|]);
      (split; [unfold getDoubleParam; simpl; now rewrite lookup_insert_eq|]);
      new_events; repeat constructor; simpl; tauto.
Qed.

(** ** Reads of the arrays *)

(** C10. A read of the waveform parameter always runs into [assert(0)];
    a read of the time base copies min(maxPoints, nElements) elements
    into the caller's array and reports that count in [*nIn]; a read of
    any other parameter copies nothing and leaves [*nIn] alone. *)
Theorem readFloat64Array_serves_time_base
    (s : device) (function : Z) (value : list float) (nElements maxPoints : Z) :
  getIntegerParam 0 P_MaxPoints s = Some maxPoints ->
  0 <= maxPoints < 2 ^ 64 ->
  let ncopy := Z.min maxPoints nElements in
  (function = P_Waveform ->
   readFloat64Array function value nElements s = Aborted s) /\
  (function = P_TimeBase ->
   ncopy <= Z.of_nat (length (pTimeBase_ s)) ->
   ncopy <= Z.of_nat (length value) ->
   exists s',
     readFloat64Array function value nElements s
     = Ok {| rd_status := asynSuccess;
             rd_value := take (Z.to_nat ncopy) (pTimeBase_ s) ++ drop (Z.to_nat ncopy) value;
             rd_nIn := Some ncopy |} s' /\
     pTimeBase_ s' = pTimeBase_ s) /\
  (function <> P_Waveform -> function <> P_TimeBase ->
   exists s',
     readFloat64Array function value nElements s
     = Ok {| rd_status := asynSuccess; rd_value := value; rd_nIn := None |} s').
Proof.
  intros Hmp Hrange ncopy.
  assert (Hncopy : (if nElements <? size_t_of_int maxPoints
                    then nElements else size_t_of_int maxPoints) = ncopy).
  { unfold size_t_of_int, ncopy. rewrite Z.mod_small by lia.
    destruct (Z.ltb_spec nElements maxPoints); lia. }
  split; [|split].
  - intros ->. unfold readFloat64Array. mrun. rewrite (run_load_int _ _ _ Hmp).
    mrun. rewrite Z.eqb_refl. reflexivity.
  - intros -> Htb Hval. unfold readFloat64Array. mrun. rewrite (run_load_int _ _ _ Hmp).
    mrun. rewrite Hncopy.
    replace (P_TimeBase =? P_Waveform) with false by reflexivity.
    rewrite Z.eqb_refl. mrun. unfold memcpy.
    replace ((ncopy <=? Z.of_nat (length (pTimeBase_ s))) && (ncopy <=? Z.of_nat (length value)))
      with true.
    2:{ symmetry. apply andb_true_iff. split; now apply Z.leb_le. }
    mrun. unfold report. mrun. eexists. split; reflexivity.
  - intros Hw Ht. unfold readFloat64Array. mrun. rewrite (run_load_int _ _ _ Hmp).
    mrun. apply Z.eqb_neq in Hw, Ht. rewrite Hw, Ht. mrun. unfold report. mrun.
    eexists. reflexivity.
Qed.

(** ** Calibration *)

Lemma X2_minus_X1 : int_add X2 (- X1) = 2 ^ 24.
Proof. reflexivity. Qed.

Lemma compute_cal_Ok (card : Acq2xx) (s s' : device) :
  compute_cal card s = Ok tt s' ->
  length (eslo s') = Z.to_nat (nchan s) /\
  length (eoff s') = Z.to_nat (nchan s) /\
  forall ic, 0 <= ic < nchan s ->
    exists r,
      card_ranges card !! Z.to_nat (ic + 1) = Some r /\
      eslo s' !! Z.to_nat ic = Some (cal_ESLO (vmin r) (vmax r)) /\
      eoff s' !! Z.to_nat ic = Some (cal_EOFF (vmin r) (vmax r)).
Proof.
  unfold compute_cal. intros Hrun.
  apply bind_Ok_inv in Hrun as (n & s0 & Hn & Hrun). injection Hn as <- <-.
  apply bind_Ok_inv in Hrun as (cal & s1 & Hloop & Hmod). injection Hmod as <-.
  pose (I := fun (i : Z) (cal : list float * list float) (si : device) =>
    si = s /\ 0 <= i /\
    length (fst cal) = Z.to_nat i /\ length (snd cal) = Z.to_nat i /\
    forall ic, 0 <= ic < i ->
      exists r,
        card_ranges card !! Z.to_nat (ic + 1) = Some r /\
        fst cal !! Z.to_nat ic = Some (cal_ESLO (vmin r) (vmax r)) /\
        snd cal !! Z.to_nat ic = Some (cal_EOFF (vmin r) (vmax r))).
  assert (HI : I (0 + Z.of_nat (Z.to_nat (nchan s))) cal s1).
  { eapply (for_loop_Ok_inv I); [exact Hloop| |].
    - unfold I. repeat split; try reflexivity. intros ic Hic. lia.
    - clear Hloop. unfold I at 1. intros i l si l' si' Hi (-> & Hi0 & Hl1 & Hl2 & Hall) Hbody.
      apply bind_Ok_inv in Hbody as (r & sr & Hr & Hret).
      destruct (card_ranges card !! Z.to_nat (i + 1)) as [r0|] eqn:Er; [|discriminate].
      injection Hr as -> ->. injection Hret as <- <-. unfold I. simpl.
      repeat split; try lia.
      + rewrite length_app, Hl1. simpl. lia.
      + rewrite length_app, Hl2. simpl. lia.
      + intros ic Hic. destruct (Z.eq_dec ic i) as [->|Hne].
        * exists r. split; [exact Er|]. split.
          -- rewrite lookup_app_r by lia. rewrite Hl1, Nat.sub_diag. reflexivity.
          -- rewrite lookup_app_r by lia. rewrite Hl2, Nat.sub_diag. reflexivity.
        * destruct (Hall ic) as (r1 & Hr1 & He1 & He2); [lia|].
          exists r1. split; [exact Hr1|]. split.
          -- rewrite lookup_app_l by lia. exact He1.
          -- rewrite lookup_app_l by lia. exact He2. }
  unfold I in HI. destruct HI as (-> & _ & Hl1 & Hl2 & Hall). simpl.
  split; [|split].
  - rewrite Hl1. lia.
  - rewrite Hl2. lia.
  - intros ic Hic. apply Hall. lia.
Qed.


(** ** What the frame handler leaves alone *)

Ltac blind f :=
  first [ apply (blind_pData f) | apply (blind_acc f) | apply (blind_trace f)
        | apply (blind_params f); auto ]; assumption.

Lemma convert_frame_keeps {A} (f : device -> A) cf maxPoints :
  frame_blind f -> rel (keeps f) (convert_frame cf maxPoints).
Proof.
  intros Hf. unfold convert_frame, channel_step, sample_step.
  rel_steps; solve [blind f].
Qed.

Lemma flush_keeps {A} (f : device -> A) period :
  frame_blind f -> rel (keeps f) (flush period).
Proof.
  intros Hf. unfold flush. rel_steps; solve [blind f].
Qed.

Lemma publish_keeps {A} (f : device -> A) cf maxPoints :
  frame_blind f -> (forall s c, f (with_cursor c s) = f s) ->
  rel (keeps f) (publish cf maxPoints).
Proof.
  intros Hf Hc. unfold publish. rel_steps; solve [blind f | apply Hc].
Qed.

Lemma onFrame_keeps {A} (f : device -> A) cf :
  frame_blind f -> (forall s c, f (with_cursor c s) = f s) ->
  rel (keeps f) (onFrame cf).
Proof.
  intros Hf Hc. unfold onFrame, get_maxPoints.
  rel_steps; try solve [apply Hc].
  - now apply convert_frame_keeps.
  - now apply flush_keeps.
  - now apply publish_keeps.
Qed.

Lemma streamData_rel (R : relation device) `{!PreOrder R} frames :
  (forall cf, rel R (onFrame cf)) -> rel R (streamData frames).
Proof.
  intros Hf. induction frames as [|cf rest IH]; simpl.
  - now apply rel_ret.
  - apply rel_bind; [typeclasses eauto|apply Hf|intros _; exact IH].
Qed.

Lemma blind_field_pTimeBase : frame_blind pTimeBase_.
Proof. now split. Qed.

Lemma blind_field_nchan : frame_blind nchan.
Proof. now split. Qed.

Lemma blind_field_eslo : frame_blind eslo.
Proof. now split. Qed.

Lemma blind_field_eoff : frame_blind eoff.
Proof. now split. Qed.

Lemma blind_field_cursor : frame_blind cursor.
Proof. now split. Qed.

Lemma blind_int_param index :
  index <> P_Scalar -> index <> P_UpdateTime -> frame_blind (getIntegerParam 0 index).
Proof.
  intros H1 H2. split; try reflexivity.
  intros s list i v Hi. apply getIntegerParam_insert_ne. intros [= _ ->]. tauto.
Qed.

Lemma blind_maxPoints : frame_blind (getIntegerParam 0 P_MaxPoints).
Proof. now apply blind_int_param. Qed.

Lemma blind_scanFreq : frame_blind (getIntegerParam 0 P_ScanFreq).
Proof. now apply blind_int_param. Qed.

(** ** The time base *)

Lemma fill_time_base_lookup maxPoints n :
  forall i tb,
    0 <= i -> (Z.to_nat i + n <= length tb)%nat ->
    length (fill_time_base n i maxPoints tb) = length tb /\
    forall j, 0 <= j < Z.of_nat (length tb) ->
      fill_time_base n i maxPoints tb !! Z.to_nat j
      = if decide (i <= j < i + Z.of_nat n)
        then Some (time_base_at maxPoints j) else tb !! Z.to_nat j.
Proof.
  induction n as [|n IH]; intros i tb Hi Hlen; simpl.
  - split; [reflexivity|]. intros j Hj. case_decide; [lia|reflexivity].
  - destruct (IH (i + 1) (<[Z.to_nat i := time_base_at maxPoints i]> tb)) as [Hl Hlook].
    + lia.
    + rewrite length_insert. lia.
    + rewrite length_insert in Hl, Hlook. split; [exact Hl|].
      intros j Hj. rewrite (Hlook j Hj).
      repeat case_decide; try lia; try reflexivity.
      * assert (j = i) as -> by lia. apply list_lookup_insert_eq. lia.
      * apply list_lookup_insert_ne. lia.
Qed.

Lemma set_param_pTimeBase ty list index v (s : device) :
  pTimeBase_ (set_param ty list index v s).2 = pTimeBase_ s.
Proof.
  unfold set_param.
  destruct (negb (valid_list s list)); [reflexivity|].
  destruct (param_type index) as [ty'|]; [|reflexivity].
  now destruct (asynParamType_eqb ty ty').
Qed.

Lemma Acq164Device_time_base (maxArraySize _nchan : Z) :
  let maxPoints := if maxArraySize <? 1 then 100 else maxArraySize in
  length (pTimeBase_ (Acq164Device maxArraySize _nchan)) = Z.to_nat maxPoints /\
  forall i, 0 <= i < maxPoints ->
    pTimeBase_ (Acq164Device maxArraySize _nchan) !! Z.to_nat i
    = Some (time_base_at maxPoints i).
Proof.
  intros maxPoints. unfold Acq164Device, init_params. fold maxPoints.
  cbv zeta. rewrite !set_param_pTimeBase. simpl pTimeBase_.
  assert (Hmp : 1 <= maxPoints).
  { unfold maxPoints. destruct (Z.ltb_spec maxArraySize 1); lia. }
  destruct (fill_time_base_lookup maxPoints (Z.to_nat maxPoints) 0
              (replicate (Z.to_nat maxPoints) PrimFloat.zero)) as [Hl Hlook].
  - lia.
  - rewrite length_replicate. simpl. lia.
  - rewrite length_replicate in Hl, Hlook. split; [exact Hl|].
    intros i Hi. rewrite Hlook by lia. case_decide; [reflexivity|lia].
Qed.

Lemma perform_keeps_time_base (c : call) : rel (keeps pTimeBase_) (perform c).
Proof.
  destruct c as [function value|function value|function value nElements|cf|card frames];
    unfold perform.
  - unfold writeInt32. rel_steps; reflexivity.
  - unfold writeFloat64. rel_steps; reflexivity.
  - unfold readFloat64Array. rel_steps; reflexivity.
  - apply onFrame_keeps; [apply blind_field_pTimeBase|reflexivity].
  - unfold task, compute_cal, setup. rel_steps; try reflexivity.
    apply streamData_rel; [typeclasses eauto|]. intros cf.
    apply onFrame_keeps; [apply blind_field_pTimeBase|reflexivity].
Qed.

Lemma perform_all_keeps_time_base (cs : list call) :
  rel (keeps pTimeBase_) (perform_all cs).
Proof.
  induction cs as [|c rest IH]; simpl.
  - apply rel_ret. typeclasses eauto.
  - apply rel_bind; [typeclasses eauto|apply perform_keeps_time_base|intros _; exact IH].
Qed.

(** The constructor fills the time base with
    (double)i / (maxPoints-1) * NUM_DIVISIONS for every i below maxPoints
    (100 when the requested size is below 1), and no sequence of calls by
    asyn clients or the transport whose stores all land within the cells
    allocated for the waveform buffer changes it. *)
Theorem time_base_computed_once
    (maxArraySize _nchan : Z) (calls : list call) (s' : device) (i : Z) :
  let maxPoints := if maxArraySize <? 1 then 100 else maxArraySize in
  maxArraySize <= INT_MAX ->
  state_of (perform_all calls (Acq164Device maxArraySize _nchan)) = Some s' ->
  Forall (in_allocation (pData_cells maxArraySize _nchan)) (stores (trace s')) ->
  0 <= i < maxPoints ->
  NUM_DIVISIONS = 10 /\
  pTimeBase_ s' = pTimeBase_ (Acq164Device maxArraySize _nchan) /\
  length (pTimeBase_ s') = Z.to_nat maxPoints /\
  pTimeBase_ s' !! Z.to_nat i
  = Some (PrimFloat.mul
            (PrimFloat.div (float_of_Z i) (float_of_Z (maxPoints - 1)))
            (float_of_Z NUM_DIVISIONS)).
Proof.
  intros maxPoints Hmax Hrun _ Hi.
  pose proof (perform_all_keeps_time_base calls _ _ Hrun) as Hkeep.
  unfold keeps in Hkeep.
  destruct (Acq164Device_time_base maxArraySize _nchan) as [Hlen Hlook].
  fold maxPoints in Hlen, Hlook.
  split; [reflexivity|]. split; [exact Hkeep|]. rewrite Hkeep.
  split; [exact Hlen|]. rewrite (Hlook i Hi). unfold time_base_at, int_add.
  rewrite wrap_int_id; [reflexivity|].
  unfold maxPoints, INT_MIN, INT_MAX in *.
  destruct (Z.ltb_spec maxArraySize 1); lia.
Qed.

(** ** The cursor and the publication of waveforms *)

Lemma array_callbacks_app reason (t1 t2 : list event) :
  array_callbacks reason (t1 ++ t2)
  = array_callbacks reason t2 ++ array_callbacks reason t1.
Proof. unfold array_callbacks. now rewrite rev_app_distr, omap_app. Qed.

Lemma array_callbacks_quiet reason (new : list event) :
  Forall quiet new -> array_callbacks reason new = [].
Proof.
  induction 1 as [|e new He _ IH]; [reflexivity|].
  change (e :: new) with ([e] ++ new). rewrite array_callbacks_app, IH.
  now destruct e.
Qed.

Lemma convert_frame_quiet cf maxPoints : rel (ext quiet) (convert_frame cf maxPoints).
Proof.
  unfold convert_frame, channel_step, sample_step. rel_steps; ext_events.
Qed.

Lemma flush_quiet period : rel (ext quiet) (flush period).
Proof. unfold flush. rel_steps; ext_events. Qed.

Lemma setDoubleParam_Ok list index v (s : device) :
  exists st s1,
    setDoubleParam list index v s = Ok st s1 /\
    trace s1 = trace s /\ nchan s1 = nchan s /\ cursor s1 = cursor s.
Proof.
  unfold setDoubleParam, set_param.
  destruct (negb (valid_list s list)); [now eexists _, _|].
  destruct (param_type index) as [ty'|]; [|now eexists _, _].
  destruct (asynParamType_eqb asynParamFloat64 ty'); now eexists _, _.
Qed.

Lemma publish_loop_Ok maxPoints n (s s' : device) :
  for_loop n 0
    (fun ic _ => doCallbacksFloat64Array (int_mul ic maxPoints) maxPoints P_Waveform ic)
    tt s = Ok tt s' ->
  cursor s' = cursor s /\ nchan s' = nchan s /\
  exists new,
    trace s' = new ++ trace s /\
    array_callbacks P_Waveform new = seqZ 0 (Z.of_nat n).
Proof.
  intros Hrun.
  pose (I := fun (i : Z) (_ : unit) (si : device) =>
    cursor si = cursor s /\ nchan si = nchan s /\
    exists new, trace si = new ++ trace s /\
                array_callbacks P_Waveform new = seqZ 0 i).
  assert (HI : I (0 + Z.of_nat n) tt s').
  { eapply (for_loop_Ok_inv I); [exact Hrun| |].
    - unfold I. repeat split. now exists [].
    - clear Hrun. unfold I. intros i [] si [] si' Hi (Hc & Hn & new & Ht & Hcb) Hbody.
      unfold doCallbacksFloat64Array in Hbody. revert Hbody. mrun. intros [= <-].
      simpl. repeat split; [exact Hc|exact Hn|].
      eexists (_ :: new). split; [now rewrite Ht|].
      change (?e :: new) with ([e] ++ new). rewrite array_callbacks_app, Hcb.
      simpl. replace (i + 1) with (Z.of_nat (S (Z.to_nat i))) by lia.
      rewrite seqZ_S. rewrite Z2Nat.id by lia. reflexivity. }
  exact HI.
Qed.

Lemma publish_Ok cf maxPoints (s s' : device) :
  publish cf maxPoints s = Ok tt s' ->
  nchan s' = nchan s /\
  exists new,
    trace s' = new ++ trace s /\
    if maxPoints <=? cursor s
    then array_callbacks P_Waveform new = seqZ 0 (nchan s) /\ cursor s' = 0
    else new = [] /\ cursor s' = cursor s.
Proof.
  unfold publish. mrun. destruct (maxPoints <=? cursor s); mrun.
  - destruct (setDoubleParam_Ok 0 P_UpdateTime (float_of_Z (startSampleNumber cf)) s)
      as (st & s1 & -> & Ht1 & Hn1 & Hc1).
    mrun. intros Hrun.
    apply bind_Ok_inv in Hrun as ([] & s2 & Hloop & Hmod).
    revert Hmod. mrun. intros [= <-].
    apply publish_loop_Ok in Hloop as (Hc2 & Hn2 & new & Ht2 & Hcb).
    simpl in Hn2, Ht2. split; [simpl; congruence|].
    exists (new ++ [EvParamCallbacks 0]). split.
    + simpl. rewrite Ht2, Ht1, <- app_assoc. reflexivity.
    + split; [|reflexivity].
      rewrite array_callbacks_app, Hcb. simpl. rewrite Hn1.
      destruct (Z.le_gt_cases 0 (nchan s)) as [Hn|Hn].
      * now rewrite Z2Nat.id.
      * rewrite (seqZ_nil _ (nchan s)) by lia.
        replace (Z.to_nat (nchan s)) with 0%nat by lia. reflexivity.
  - intros [= <-]. split; [reflexivity|]. now exists [].
Qed.

Lemma load_int_Ok_inv index (s : device) z s' :
  load_int index s = Ok z s' -> getIntegerParam 0 index s = Some z /\ s' = s.
Proof.
  unfold load_int. destruct (getIntegerParam 0 index s); [|discriminate].
  now intros [= -> ->].
Qed.

Lemma of_option_Ok_inv {A} (o : option A) (s : device) a s' :
  of_option o s = Ok a s' -> o = Some a /\ s' = s.
Proof. destruct o; [|discriminate]. now intros [= -> ->]. Qed.

(** The steps of a frame that was processed to the end. *)
Lemma onFrame_Ok_inv cf (s s' : device) :
  onFrame cf s = Ok tt s' ->
  exists maxPoints scan_freq period s1 s3,
    getIntegerParam 0 P_MaxPoints s = Some maxPoints /\
    convert_frame cf maxPoints s = Ok tt s1 /\
    getIntegerParam 0 P_ScanFreq s1 = Some scan_freq /\
    c_div NSPS scan_freq = Some period /\
    flush period (with_cursor (int_add (cursor s1) FRAME_SAMPLES) s1) = Ok tt s3 /\
    publish cf maxPoints s3 = Ok tt s'.
Proof.
  unfold onFrame, get_maxPoints. intros Hrun.
  apply bind_Ok_inv in Hrun as (maxPoints & s0 & Hmp & Hrun).
  apply load_int_Ok_inv in Hmp as [Hmp ->].
  apply bind_Ok_inv in Hrun as ([] & s1 & Hconv & Hrun).
  apply bind_Ok_inv in Hrun as ([] & s2 & Hmod & Hrun). injection Hmod as <-.
  apply bind_Ok_inv in Hrun as (scan_freq & s2' & Hsf & Hrun).
  apply load_int_Ok_inv in Hsf as [Hsf ->].
  apply bind_Ok_inv in Hrun as (period & s2' & Hdiv & Hrun).
  apply of_option_Ok_inv in Hdiv as [Hdiv ->].
  apply bind_Ok_inv in Hrun as ([] & s3 & Hflush & Hpub).
  now exists maxPoints, scan_freq, period, s1, s3.
Qed.

(** One frame: where the cursor ends up, and whether the waveforms were
    published. *)
Lemma onFrame_cursor cf (s s' : device) maxPoints :
  getIntegerParam 0 P_MaxPoints s = Some maxPoints ->
  onFrame cf s = Ok tt s' ->
  exists new,
    trace s' = new ++ trace s /\
    if maxPoints <=? int_add (cursor s) FRAME_SAMPLES
    then array_callbacks P_Waveform new = seqZ 0 (nchan s) /\ cursor s' = 0
    else array_callbacks P_Waveform new = [] /\
         cursor s' = int_add (cursor s) FRAME_SAMPLES.
Proof.
  intros Hmp Hrun.
  apply onFrame_Ok_inv in Hrun
    as (mp & sf & period & s1 & s3 & Hmp' & Hconv & Hsf & Hdiv & Hflush & Hpub).
  assert (mp = maxPoints) as -> by congruence.
  assert (Hs1 : state_of (convert_frame cf maxPoints s) = Some s1) by now rewrite Hconv.
  pose proof (convert_frame_keeps cursor cf maxPoints blind_field_cursor _ _ Hs1) as Hc1.
  pose proof (convert_frame_keeps nchan cf maxPoints blind_field_nchan _ _ Hs1) as Hn1.
  pose proof (convert_frame_quiet cf maxPoints _ _ Hs1) as (new1 & Ht1 & Hq1).
  assert (Hs3 : state_of (flush period (with_cursor (int_add (cursor s1) FRAME_SAMPLES) s1))
                = Some s3) by now rewrite Hflush.
  pose proof (flush_keeps cursor period blind_field_cursor _ _ Hs3) as Hc3.
  pose proof (flush_keeps nchan period blind_field_nchan _ _ Hs3) as Hn3.
  pose proof (flush_quiet period _ _ Hs3) as (new3 & Ht3 & Hq3).
  unfold keeps in *. simpl in Hc3, Hn3, Ht3.
  apply publish_Ok in Hpub as (Hn' & new & Ht' & Hpub).
  rewrite Hc3, Hc1, Hn3, Hn1 in Hpub.
  exists (new ++ new3 ++ new1). split.
  { rewrite Ht', Ht3, Ht1. now rewrite !app_assoc. }
  rewrite !array_callbacks_app.
  rewrite (array_callbacks_quiet _ _ Hq1), (array_callbacks_quiet _ _ Hq3). simpl.
  destruct (maxPoints <=? int_add (cursor s) FRAME_SAMPLES).
  - exact Hpub.
  - destruct Hpub as [-> ->]. split; [reflexivity|]. congruence.
Qed.

Lemma streamData_Ok_inv (I : device -> Prop) frames :
  (forall cf s s', I s -> onFrame cf s = Ok tt s' -> I s') ->
  forall s s', I s -> streamData frames s = Ok tt s' -> I s'.
Proof.
  intros Hstep. induction frames as [|cf rest IH]; intros s s' HI Hrun.
  - injection Hrun as <-. exact HI.
  - simpl in Hrun. apply bind_Ok_inv in Hrun as ([] & s1 & Hf & Hrest).
    eapply IH; [|exact Hrest]. eapply Hstep; [exact HI|exact Hf].
Qed.

Lemma onFrame_keeps_maxPoints cf (s s' : device) :
  state_of (onFrame cf s) = Some s' ->
  getIntegerParam 0 P_MaxPoints s' = getIntegerParam 0 P_MaxPoints s.
Proof.
  apply (onFrame_keeps (getIntegerParam 0 P_MaxPoints) cf).
  - apply blind_maxPoints.
  - reflexivity.
Qed.

Lemma onFrame_cursor_range cf (s s' : device) maxPoints :
  1 <= maxPoints -> 0 <= FRAME_SAMPLES -> maxPoints + FRAME_SAMPLES <= INT_MAX ->
  getIntegerParam 0 P_MaxPoints s = Some maxPoints ->
  0 <= cursor s < maxPoints ->
  onFrame cf s = Ok tt s' ->
  0 <= cursor s' < maxPoints /\
  exists new,
    trace s' = new ++ trace s /\
    if maxPoints <=? cursor s + FRAME_SAMPLES
    then array_callbacks P_Waveform new = seqZ 0 (nchan s) /\ cursor s' = 0
    else array_callbacks P_Waveform new = [] /\ cursor s' = cursor s + FRAME_SAMPLES.
Proof.
  intros Hmp1 Hfs Hmax Hmp Hcur Hrun.
  destruct (onFrame_cursor cf s s' maxPoints Hmp Hrun) as (new & Ht & Hif).
  unfold int_add in Hif. rewrite wrap_int_id in Hif by (unfold INT_MIN, INT_MAX in *; lia).
  split.
  - destruct (Z.leb_spec maxPoints (cursor s + FRAME_SAMPLES)); destruct Hif as [_ ->]; lia.
  - now exists new.
Qed.

(** C4. Starting from cursor 0, after every frame that is processed to
    the end the cursor lies in [0, maxPoints); the frame publishes the
    waveforms, one callback per channel in channel order, and leaves the
    cursor at 0 when the cursor advanced by FRAME_SAMPLES reaches
    maxPoints, and publishes nothing and leaves the advanced cursor
    otherwise. *)
Theorem cursor_invariant (maxPoints : Z) (frames : list Frame) (s0 s : device) :
  getIntegerParam 0 P_MaxPoints s0 = Some maxPoints ->
  1 <= maxPoints -> 0 <= FRAME_SAMPLES -> maxPoints + FRAME_SAMPLES <= INT_MAX ->
  cursor s0 = 0 ->
  streamData frames s0 = Ok tt s ->
  0 <= cursor s < maxPoints /\
  forall cf s',
    onFrame cf s = Ok tt s' ->
    0 <= cursor s' < maxPoints /\
    exists new,
      trace s' = new ++ trace s /\
      if maxPoints <=? cursor s + FRAME_SAMPLES
      then array_callbacks P_Waveform new = seqZ 0 (nchan s) /\ cursor s' = 0
      else array_callbacks P_Waveform new = [] /\ cursor s' = cursor s + FRAME_SAMPLES.
Proof.
  intros Hmp Hmp1 Hfs Hmax Hc0 Hrun.
  assert (HI : getIntegerParam 0 P_MaxPoints s = Some maxPoints /\ 0 <= cursor s < maxPoints).
  { apply (streamData_Ok_inv
             (fun s => getIntegerParam 0 P_MaxPoints s = Some maxPoints /\
                       0 <= cursor s < maxPoints) frames) with (s := s0).
    - intros cf s1 s2 [Hmp' Hc] Hf. split.
      + rewrite (onFrame_keeps_maxPoints cf s1 s2); [exact Hmp'|now rewrite Hf].
      + now apply (onFrame_cursor_range cf s1 s2 maxPoints).
    - split; [exact Hmp|lia].
    - exact Hrun. }
  destruct HI as [Hmp' Hc]. split; [exact Hc|].
  intros cf s' Hf. now apply (onFrame_cursor_range cf s s' maxPoints).
Qed.

(** ** The flush period *)

Lemma setDoubleParam_returns list index v (s : device) :
  exists st s1, setDoubleParam list index v s = Ok st s1.
Proof.
  destruct (setDoubleParam_Ok list index v s) as (st & s1 & Hrun & _).
  now exists st, s1.
Qed.

Lemma flush_returns period (s : device) : exists s', flush period s = Ok tt s'.
Proof.
  unfold flush. mrun. destruct (acc_update_timestamp period (acc s)).1; mrun.
  - match goal with
    | |- context [for_loop ?n 0 ?body tt ?s0] =>
        destruct (for_loop_returns (fun _ _ _ => True) body n 0 tt s0 I)
          as ([] & s1 & Hloop & _)
    end.
    + intros i [] si _ _. mrun.
      destruct (setDoubleParam_returns i P_Scalar (acc_get i (acc si)) si)
        as (st & s1 & ->).
      mrun. now eexists tt, _.
    + rewrite Hloop. mrun. now eexists.
  - now eexists.
Qed.

Lemma publish_returns cf maxPoints (s : device) :
  exists s', publish cf maxPoints s = Ok tt s'.
Proof.
  unfold publish. mrun. destruct (maxPoints <=? cursor s); mrun; [|now eexists].
  destruct (setDoubleParam_returns 0 P_UpdateTime (float_of_Z (startSampleNumber cf)) s)
    as (st & s1 & ->).
  mrun.
  match goal with
  | |- context [for_loop ?n 0 ?body tt ?s0] =>
      destruct (for_loop_returns (fun _ _ _ => True) body n 0 tt s0 I)
        as ([] & s2 & Hloop & _)
  end.
  - intros i [] si _ _. unfold doCallbacksFloat64Array. mrun. now eexists tt, _.
  - rewrite Hloop. mrun. now eexists.
Qed.

Lemma c_div_defined a b :
  INT_MIN < a -> b <> 0 -> c_div a b = Some (Z.quot a b).
Proof.
  intros Ha Hb. unfold c_div.
  apply Z.eqb_neq in Hb. rewrite Hb.
  replace (a =? INT_MIN) with false; [reflexivity|].
  symmetry. apply Z.eqb_neq. lia.
Qed.

(** What the frame handler does once the samples are converted. *)
Lemma onFrame_after_convert
    (cf : Frame) (s s1 : device) (maxPoints scan_freq : Z) :
  getIntegerParam 0 P_MaxPoints s = Some maxPoints ->
  getIntegerParam 0 P_ScanFreq s = Some scan_freq ->
  convert_frame cf maxPoints s = Ok tt s1 ->
  INT_MIN < NSPS ->
  (scan_freq = 0 -> onFrame cf s = Undefined) /\
  (scan_freq <> 0 ->
   onFrame cf s
   = (flush (Z.quot NSPS scan_freq);; publish cf maxPoints)
       (with_cursor (int_add (cursor s1) FRAME_SAMPLES) s1) /\
   exists s', onFrame cf s = Ok tt s').
Proof.
  intros Hmp Hsf Hconv Hnsps.
  assert (Hsf1 : getIntegerParam 0 P_ScanFreq s1 = Some scan_freq).
  { rewrite <- Hsf.
    apply (convert_frame_keeps (getIntegerParam 0 P_ScanFreq) cf maxPoints).
    - apply blind_scanFreq.
    - now rewrite Hconv. }
  assert (Hrun : onFrame cf s
                 = (period ← of_option (c_div NSPS scan_freq);
                    flush period;; publish cf maxPoints)
                     (with_cursor (int_add (cursor s1) FRAME_SAMPLES) s1)).
  { unfold onFrame, get_maxPoints.
    rewrite (bind_Ok _ _ _ _ _ (run_load_int _ _ _ Hmp)).
    rewrite (bind_Ok _ _ _ _ _ Hconv).
    rewrite bind_eq, run_modify. cbv beta iota.
    now rewrite (bind_Ok _ _ _ _ _
                   (run_load_int P_ScanFreq scan_freq (with_cursor _ s1) Hsf1)). }
  split.
  - intros ->. rewrite Hrun. reflexivity.
  - intros Hne. rewrite Hrun, bind_eq, (c_div_defined _ _ Hnsps Hne), run_of_option.
    cbv beta iota. split; [reflexivity|].
    rewrite bind_eq.
    destruct (flush_returns (Z.quot NSPS scan_freq)
                (with_cursor (int_add (cursor s1) FRAME_SAMPLES) s1)) as (s3 & ->).
    apply publish_returns.
Qed.

(** C9. Once the samples of a frame are converted, the frame handler
    reads the scan frequency from the parameter library and divides NSPS
    by it as it is: the frame handler is left without defined behaviour
    exactly when the scan frequency is 0, and with any other value it
    goes on to the flush with the period NSPS / scan_freq (C division). *)
Theorem flush_period_unguarded
    (cf : Frame) (s s1 : device) (maxPoints scan_freq : Z) :
  getIntegerParam 0 P_MaxPoints s = Some maxPoints ->
  getIntegerParam 0 P_ScanFreq s = Some scan_freq ->
  convert_frame cf maxPoints s = Ok tt s1 ->
  INT_MIN < NSPS ->
  (onFrame cf s = Undefined <-> scan_freq = 0) /\
  (scan_freq <> 0 ->
   onFrame cf s
   = (flush (Z.quot NSPS scan_freq);; publish cf maxPoints)
       (with_cursor (int_add (cursor s1) FRAME_SAMPLES) s1)).
Proof.
  intros Hmp Hsf Hconv Hnsps.
  destruct (onFrame_after_convert cf s s1 maxPoints scan_freq Hmp Hsf Hconv Hnsps)
    as [Hzero Hscan].
  split; [split|].
  - intros Hundef. destruct (Z.eq_dec scan_freq 0) as [Hz|Hnz]; [exact Hz|].
    destruct (Hscan Hnz) as (_ & s' & Hok). congruence.
  - exact Hzero.
  - intros Hnz. now destruct (Hscan Hnz).
Qed.

(** ** Where the samples are stored *)

#[local] Instance storing_preorder maxPoints cur n : PreOrder (storing maxPoints cur n).
Proof.
  split.
  - intros s Hc Hn. repeat split; [exact Hc|exact Hn|reflexivity].
  - intros s1 s2 s3 H12 H23 Hc Hn.
    destruct (H12 Hc Hn) as (Hc2 & Hn2 & He2).
    destruct (H23 Hc2 Hn2) as (Hc3 & Hn3 & He3).
    repeat split; [exact Hc3|exact Hn3|]. now transitivity s2.
Qed.

Lemma stores_app (t1 t2 : list event) : stores (t1 ++ t2) = stores t2 ++ stores t1.
Proof. unfold stores. now rewrite rev_app_distr, omap_app. Qed.

Lemma sample_step_Ok cf ic ix0 raw id cz (s : device) cz' s' :
  sample_step cf ic ix0 raw id cz s = Ok cz' s' ->
  trace s' = EvStore ic (int_add (int_add ix0 (cursor s)) id) :: trace s /\
  cursor s' = cursor s.
Proof.
  unfold sample_step. mrun.
  destruct (raw !! Z.to_nat id) as [yy|]; [|discriminate]. mrun.
  destruct (yy =? 0); mrun.
  - destruct (60 <? int_add cz 1); mrun; [discriminate|].
    destruct (eslo s !! Z.to_nat ic) as [m|]; [|discriminate]. mrun.
    destruct (eoff s !! Z.to_nat ic) as [c|]; [|discriminate]. mrun.
    unfold store. mrun. now intros [= <- <-].
  - destruct (eslo s !! Z.to_nat ic) as [m|]; [|discriminate]. mrun.
    destruct (eoff s !! Z.to_nat ic) as [c|]; [|discriminate]. mrun.
    unfold store. mrun. now intros [= <- <-].
Qed.

Lemma sample_step_storing cf maxPoints cur n ic raw id cz :
  0 <= ic < n -> 0 <= id < FRAME_SAMPLES ->
  rel (storing maxPoints cur n) (sample_step cf ic (int_mul ic maxPoints) raw id cz).
Proof.
  intros Hic Hid s s' Hs Hc Hn. revert Hs. unfold sample_step. mrun.
  destruct (raw !! Z.to_nat id) as [yy|]; [|discriminate]. mrun.
  assert (Hstore : forall s0 : device,
    trace s0 = trace s -> cursor s0 = cursor s ->
    store_at maxPoints cur n
      (EvStore ic (int_add (int_add (int_mul ic maxPoints) (cursor s0)) id))).
  { intros s0 _ Hc0. simpl. split; [exact Hic|]. exists id. split; [exact Hid|]. congruence. }
  destruct (yy =? 0); mrun.
  - destruct (60 <? int_add cz 1); mrun.
    + intros [= <-]. split; [exact Hc|split; [exact Hn|]]. new_events.
      constructor; [exact I|constructor].
    + destruct (eslo s !! Z.to_nat ic) as [m|]; [|discriminate]. mrun.
      destruct (eoff s !! Z.to_nat ic) as [c|]; [|discriminate]. mrun.
      unfold store. mrun. intros [= <-]. split; [exact Hc|split; [exact Hn|]].
      new_events. constructor; [now apply Hstore|constructor].
  - destruct (eslo s !! Z.to_nat ic) as [m|]; [|discriminate]. mrun.
    destruct (eoff s !! Z.to_nat ic) as [c|]; [|discriminate]. mrun.
    unfold store. mrun. intros [= <-]. split; [exact Hc|split; [exact Hn|]].
    new_events. constructor; [now apply Hstore|constructor].
Qed.

Lemma convert_frame_storing cf maxPoints (s s' : device) :
  state_of (convert_frame cf maxPoints s) = Some s' ->
  ext (store_at maxPoints (cursor s) (nchan s)) s s'.
Proof.
  unfold convert_frame. rewrite bind_eq, run_gets. cbv beta iota. intros Hs.
  enough (Hst : storing maxPoints (cursor s) (nchan s) s s') by now apply Hst.
  revert Hs. apply rel_for_loop; [typeclasses eauto|].
  intros ic [] Hic. unfold channel_step. cbv zeta.
  apply rel_bind; [typeclasses eauto| |intros ?; apply rel_ret; typeclasses eauto].
  apply rel_for_loop; [typeclasses eauto|].
  intros id cz Hid. apply sample_step_storing; lia.
Qed.

(** After the samples are converted the frame handler stores nothing. *)
Lemma flush_publish_storing cf maxPoints cur n :
  rel (ext (store_at maxPoints cur n))
    (modify (fun s => with_cursor (int_add (cursor s) FRAME_SAMPLES) s);;
     scan_freq ← load_int P_ScanFreq;
     period ← of_option (c_div NSPS scan_freq);
     flush period;;
     publish cf maxPoints).
Proof.
  unfold flush, publish. rel_steps; ext_events.
Qed.

Lemma onFrame_storing cf maxPoints (s s' : device) :
  getIntegerParam 0 P_MaxPoints s = Some maxPoints ->
  state_of (onFrame cf s) = Some s' ->
  ext (store_at maxPoints (cursor s) (nchan s)) s s'.
Proof.
  intros Hmp. unfold onFrame, get_maxPoints.
  rewrite (bind_Ok _ _ _ _ _ (run_load_int _ _ _ Hmp)). intros Hs.
  eapply rel_bind_at; [typeclasses eauto|exact Hs| |].
  - intros s1. apply convert_frame_storing.
  - intros []. apply flush_publish_storing.
Qed.

(** Stores of that shape stay in their channel's segment as long as the
    frame fits below [maxPoints]. *)
Lemma store_at_in_segment maxPoints cur n (new : list event) :
  0 <= cur -> cur + FRAME_SAMPLES <= maxPoints ->
  0 <= n -> n * maxPoints + FRAME_SAMPLES <= INT_MAX ->
  Forall (store_at maxPoints cur n) new ->
  Forall (in_segment maxPoints) (stores new).
Proof.
  intros Hcur Hfit Hn Hmax. induction 1 as [|e new He _ IH]; [constructor|].
  change (e :: new) with ([e] ++ new). rewrite stores_app.
  apply Forall_app. split; [exact IH|].
  destruct e; try constructor; [|constructor].
  destruct He as (Hic & id & Hid & ->). unfold in_segment. simpl.
  assert (Hprod : 0 <= ic * maxPoints <= (n - 1) * maxPoints) by nia.
  unfold int_add, int_mul.
  rewrite (wrap_int_id (ic * maxPoints)) by (unfold INT_MIN, INT_MAX in *; nia).
  rewrite (wrap_int_id (ic * maxPoints + cur)) by (unfold INT_MIN, INT_MAX in *; nia).
  rewrite wrap_int_id by (unfold INT_MIN, INT_MAX in *; nia).
  nia.
Qed.

(** *** A frame that does not fit below maxPoints *)

Lemma sample_step_keeps {A} (f : device -> A) cf ic ix0 raw id cz :
  frame_blind f -> rel (keeps f) (sample_step cf ic ix0 raw id cz).
Proof. intros Hf. unfold sample_step. rel_steps; solve [blind f]. Qed.

Lemma sample_step_quiet cf ic ix0 raw id cz :
  rel (ext quiet) (sample_step cf ic ix0 raw id cz).
Proof. unfold sample_step. rel_steps; ext_events. Qed.

Lemma channel_step_quiet cf maxPoints ic :
  rel (ext quiet) (channel_step cf maxPoints ic).
Proof. unfold channel_step, sample_step. rel_steps; ext_events. Qed.

(** The last sample of channel 0 is stored at [cursor + FRAME_SAMPLES - 1]. *)
Lemma convert_frame_last_store cf maxPoints (s s1 : device) :
  convert_frame cf maxPoints s = Ok tt s1 ->
  1 <= nchan s -> 1 <= FRAME_SAMPLES ->
  exists new,
    trace s1 = new ++ trace s /\
    In (EvStore 0 (int_add (int_add (int_mul 0 maxPoints) (cursor s)) (FRAME_SAMPLES - 1))) new.
Proof.
  intros Hrun Hn Hfs. unfold convert_frame in Hrun.
  rewrite bind_eq, run_gets in Hrun. cbv beta iota in Hrun.
  destruct (Z.to_nat (nchan s)) as [|k] eqn:Ek; [lia|].
  rewrite for_loop_S in Hrun. apply bind_Ok_inv in Hrun as ([] & sa & Hch & Hrest).
  assert (Hext2 : ext quiet sa s1).
  { assert (Hs : state_of (for_loop k (0 + 1)
                             (fun ic _ => channel_step cf maxPoints ic) tt sa) = Some s1)
      by now rewrite Hrest.
    revert Hs. apply rel_for_loop; [typeclasses eauto|].
    intros ic [] _. apply channel_step_quiet. }
  destruct Hext2 as (n2 & Ht2 & _).
  unfold channel_step in Hch. cbv zeta in Hch.
  apply bind_Ok_inv in Hch as (cz & sa' & Hloop & Hret). injection Hret as <-.
  destruct (Z.to_nat FRAME_SAMPLES) as [|m] eqn:Em; [lia|].
  apply for_loop_Ok_last in Hloop as (l1 & sb & Hinit & Hlast).
  assert (Hsb : state_of (for_loop m 0
                  (sample_step cf 0 (int_mul 0 maxPoints)
                     (default [] (channels cf !! Z.to_nat 0))) 0 s) = Some sb)
    by now rewrite Hinit.
  assert (Hcb : cursor sb = cursor s).
  { revert Hsb. apply (rel_for_loop (keeps cursor)).
    intros id cz0 _. apply sample_step_keeps, blind_field_cursor. }
  assert (Hext1 : ext quiet s sb).
  { revert Hsb. apply rel_for_loop; [typeclasses eauto|].
    intros id cz0 _. apply sample_step_quiet. }
  destruct Hext1 as (n1 & Ht1 & _).
  apply sample_step_Ok in Hlast as [Hta _].
  rewrite Hcb in Hta. replace (0 + Z.of_nat m) with (FRAME_SAMPLES - 1) in Hta by lia.
  eexists (n2 ++ _ :: n1). split.
  - rewrite Ht2, Hta, Ht1. now rewrite <- app_assoc.
  - apply in_or_app. right. now left.
Qed.

Lemma channel0_last_index maxPoints cur :
  1 <= FRAME_SAMPLES -> 0 <= cur -> cur + FRAME_SAMPLES <= INT_MAX ->
  int_add (int_add (int_mul 0 maxPoints) cur) (FRAME_SAMPLES - 1)
  = cur + FRAME_SAMPLES - 1.
Proof.
  intros Hfs Hc Hmax. unfold int_add, int_mul. rewrite Z.mul_0_l.
  change (wrap_int 0) with 0. rewrite Z.add_0_l.
  rewrite (wrap_int_id cur) by (unfold INT_MIN, INT_MAX in *; lia).
  rewrite wrap_int_id by (unfold INT_MIN, INT_MAX in *; lia). lia.
Qed.

Lemma onFrame_last_store cf maxPoints (s s' : device) :
  getIntegerParam 0 P_MaxPoints s = Some maxPoints ->
  onFrame cf s = Ok tt s' ->
  1 <= nchan s -> 1 <= FRAME_SAMPLES ->
  0 <= cursor s -> cursor s + FRAME_SAMPLES <= INT_MAX ->
  exists new,
    trace s' = new ++ trace s /\
    In (0, cursor s + FRAME_SAMPLES - 1) (stores new).
Proof.
  intros Hmp Hrun Hn Hfs Hc Hmax.
  apply onFrame_Ok_inv in Hrun
    as (mp & sf & period & s1 & s3 & Hmp' & Hconv & Hsf & Hdiv & Hflush & Hpub).
  assert (mp = maxPoints) as -> by congruence.
  destruct (convert_frame_last_store cf maxPoints s s1 Hconv Hn Hfs) as (new1 & Ht1 & Hin).
  assert (Hs3 : state_of (flush period (with_cursor (int_add (cursor s1) FRAME_SAMPLES) s1))
                = Some s3) by now rewrite Hflush.
  pose proof (flush_quiet period _ _ Hs3) as (new3 & Ht3 & _). simpl in Ht3.
  apply publish_Ok in Hpub as (_ & new & Ht' & _).
  exists (new ++ new3 ++ new1). split.
  { rewrite Ht', Ht3, Ht1. now rewrite !app_assoc. }
  rewrite !stores_app. apply in_or_app. left. apply in_or_app. left.
  unfold stores. apply list_elem_of_In, list_elem_of_omap.
  eexists. split; [apply list_elem_of_In; apply -> in_rev; exact Hin|].
  now rewrite channel0_last_index.
Qed.

(** *** Frames without a zero sample *)

Lemma sample_step_returns cf ic ix0 raw id cz (s : device) yy :
  raw !! Z.to_nat id = Some yy -> yy <> 0 ->
  (Z.to_nat ic < length (eslo s))%nat -> (Z.to_nat ic < length (eoff s))%nat ->
  exists s',
    sample_step cf ic ix0 raw id cz s = Ok cz s' /\
    eslo s' = eslo s /\ eoff s' = eoff s.
Proof.
  intros Hraw Hyy Hel Heo. unfold sample_step. mrun. rewrite Hraw. mrun.
  apply Z.eqb_neq in Hyy. rewrite Hyy. mrun.
  destruct (lookup_lt_is_Some_2 _ _ Hel) as [m ->].
  destruct (lookup_lt_is_Some_2 _ _ Heo) as [c ->].
  mrun. unfold store. mrun. now eexists.
Qed.

Lemma convert_frame_ones_returns maxPoints (s : device) :
  (Z.to_nat (nchan s) <= length (eslo s))%nat ->
  (Z.to_nat (nchan s) <= length (eoff s))%nat ->
  exists s1, convert_frame (ones_frame (nchan s)) maxPoints s = Ok tt s1.
Proof.
  intros Hel Heo. unfold convert_frame. rewrite bind_eq, run_gets. cbv beta iota.
  pose (I := fun (_ : Z) (_ : unit) (si : device) => eslo si = eslo s /\ eoff si = eoff s).
  destruct (for_loop_returns I
              (fun ic _ => channel_step (ones_frame (nchan s)) maxPoints ic)
              (Z.to_nat (nchan s)) 0 tt s) as ([] & s1 & Hrun & _).
  - now split.
  - intros ic [] si Hic [Hsl Hso]. unfold channel_step. cbv zeta. rewrite bind_eq.
    pose (J := fun (_ : Z) (_ : Z) (sj : device) => eslo sj = eslo s /\ eoff sj = eoff s).
    match goal with
    | |- context [for_loop ?n 0 ?body 0 si] =>
        destruct (for_loop_returns J body n 0 0 si) as (cz & sj & Hloop & HJ)
    end.
    + now split.
    + intros id cz sj Hid [Hjl Hjo].
      destruct (sample_step_returns (ones_frame (nchan s)) ic (int_mul ic maxPoints)
                  (default [] (channels (ones_frame (nchan s)) !! Z.to_nat ic))
                  id cz sj 1) as (s' & Hstep & Hl' & Ho').
      * simpl. rewrite lookup_replicate_2 by lia. simpl.
        apply lookup_replicate_2. lia.
      * discriminate.
      * rewrite Hjl. lia.
      * rewrite Hjo. lia.
      * exists cz, s'. split; [exact Hstep|]. unfold J. split; congruence.
    + rewrite Hloop. mrun. exists tt, sj. split; [reflexivity|exact HJ].
  - now exists s1.
Qed.

Lemma ready_onFrame cf maxPoints scan_freq n (s s' : device) :
  ready maxPoints scan_freq n s ->
  state_of (onFrame cf s) = Some s' ->
  ready maxPoints scan_freq n s'.
Proof.
  intros (Hmp & Hsf & Hn & Hel & Heo) Hs. unfold ready.
  rewrite (onFrame_keeps (getIntegerParam 0 P_MaxPoints) cf
             blind_maxPoints ltac:(reflexivity) _ _ Hs).
  rewrite (onFrame_keeps (getIntegerParam 0 P_ScanFreq) cf
             blind_scanFreq ltac:(reflexivity) _ _ Hs).
  rewrite (onFrame_keeps nchan cf blind_field_nchan ltac:(reflexivity) _ _ Hs).
  rewrite (onFrame_keeps eslo cf blind_field_eslo ltac:(reflexivity) _ _ Hs).
  rewrite (onFrame_keeps eoff cf blind_field_eoff ltac:(reflexivity) _ _ Hs).
  tauto.
Qed.

Lemma onFrame_ones_returns maxPoints scan_freq n (s : device) :
  ready maxPoints scan_freq n s -> scan_freq <> 0 -> INT_MIN < NSPS ->
  exists s', onFrame (ones_frame n) s = Ok tt s'.
Proof.
  intros (Hmp & Hsf & <- & Hel & Heo) Hne Hnsps.
  destruct (convert_frame_ones_returns maxPoints s Hel Heo) as (s1 & Hconv).
  now apply (onFrame_after_convert _ s s1 maxPoints scan_freq Hmp Hsf Hconv Hnsps).
Qed.

Lemma streamData_app (fs1 fs2 : list Frame) (s : device) :
  streamData (fs1 ++ fs2) s = (streamData fs1;; streamData fs2) s.
Proof.
  revert s. induction fs1 as [|cf fs1 IH]; intros s; simpl.
  - reflexivity.
  - rewrite !bind_eq. destruct (onFrame cf s) as [[] s1| | |]; try reflexivity.
    rewrite IH. now rewrite bind_eq.
Qed.

(** [j] frames that fit below maxPoints advance the cursor [j] times. *)
Lemma streamData_ones maxPoints scan_freq n (j : nat) :
  scan_freq <> 0 -> INT_MIN < NSPS -> 0 <= FRAME_SAMPLES ->
  maxPoints + FRAME_SAMPLES <= INT_MAX ->
  forall s,
    ready maxPoints scan_freq n s ->
    0 <= cursor s -> cursor s + Z.of_nat j * FRAME_SAMPLES < maxPoints ->
    exists s',
      streamData (replicate j (ones_frame n)) s = Ok tt s' /\
      ready maxPoints scan_freq n s' /\
      cursor s' = cursor s + Z.of_nat j * FRAME_SAMPLES.
Proof.
  intros Hne Hnsps Hfs Hmax. induction j as [|j IH]; intros s Hready Hc Hfit.
  - exists s. split; [reflexivity|split; [exact Hready|lia]].
  - destruct (onFrame_ones_returns maxPoints scan_freq n s Hready Hne Hnsps) as (s1 & Hf).
    assert (Hready1 : ready maxPoints scan_freq n s1).
    { apply (ready_onFrame (ones_frame n) _ _ _ s); [exact Hready|now rewrite Hf]. }
    destruct Hready as (Hmp & _).
    destruct (onFrame_cursor _ s s1 maxPoints Hmp Hf) as (new & _ & Hif).
    unfold int_add in Hif.
    rewrite wrap_int_id in Hif by (unfold INT_MIN, INT_MAX in *; nia).
    destruct (Z.leb_spec maxPoints (cursor s + FRAME_SAMPLES)) as [Hle|Hlt]; [nia|].
    destruct Hif as [_ Hc1].
    destruct (IH s1 Hready1) as (s' & Hrun & Hready' & Hc'); [lia|nia|].
    exists s'. split; [|split; [exact Hready'|nia]].
    simpl. now rewrite (bind_Ok _ _ _ _ _ Hf).
Qed.

(** When FRAME_SAMPLES divides maxPoints the cursor stays a multiple of
    FRAME_SAMPLES and every store stays in its segment. *)
Lemma streamData_in_segment maxPoints n (frames : list Frame) :
  1 <= maxPoints -> 1 <= FRAME_SAMPLES -> 1 <= n ->
  n * maxPoints + FRAME_SAMPLES <= INT_MAX ->
  (FRAME_SAMPLES | maxPoints) ->
  forall s s',
    getIntegerParam 0 P_MaxPoints s = Some maxPoints ->
    nchan s = n ->
    0 <= cursor s < maxPoints -> (FRAME_SAMPLES | cursor s) ->
    Forall (in_segment maxPoints) (stores (trace s)) ->
    state_of (streamData frames s) = Some s' ->
    Forall (in_segment maxPoints) (stores (trace s')).
Proof.
  intros Hmp1 Hfs Hn Hmax [q Hq].
  assert (Hmpn : maxPoints <= n * maxPoints) by nia.
  induction frames as [|cf rest IH]; intros s s' Hmp Hns Hc [c Hdiv] Hseg Hs.
  - injection Hs as <-. exact Hseg.
  - assert (Hcq : c < q) by (apply (Z.mul_lt_mono_pos_r FRAME_SAMPLES); lia).
    assert (Hfit : cursor s + FRAME_SAMPLES <= maxPoints).
    { assert ((c + 1) * FRAME_SAMPLES <= q * FRAME_SAMPLES)
        by (apply Z.mul_le_mono_nonneg_r; lia).
      lia. }
    assert (Hstep : forall s1, state_of (onFrame cf s) = Some s1 ->
                               Forall (in_segment maxPoints) (stores (trace s1))).
    { intros s1 Hs1.
      destruct (onFrame_storing cf maxPoints s s1 Hmp Hs1) as (new & Ht & Hnew).
      rewrite Ht, stores_app. apply Forall_app. split; [exact Hseg|].
      rewrite Hns in Hnew.
      apply (store_at_in_segment maxPoints (cursor s) n); try assumption; lia. }
    simpl in Hs. rewrite bind_eq in Hs.
    destruct (onFrame cf s) as [[] s1|code s1|s1|] eqn:Hf; simpl in Hs.
    + assert (Hs1 : state_of (onFrame cf s) = Some s1) by now rewrite Hf.
      destruct (onFrame_cursor cf s s1 maxPoints Hmp Hf) as (new & _ & Hif).
      unfold int_add in Hif.
      rewrite wrap_int_id in Hif by (unfold INT_MIN, INT_MAX in *; lia).
      apply (IH s1 s').
      * rewrite <- Hmp. apply (onFrame_keeps_maxPoints cf). now rewrite Hf.
      * rewrite <- Hns. apply (onFrame_keeps nchan cf blind_field_nchan); [reflexivity|].
        now rewrite Hf.
      * destruct (Z.leb_spec maxPoints (cursor s + FRAME_SAMPLES));
          destruct Hif as [_ ->]; lia.
      * destruct (Z.leb_spec maxPoints (cursor s + FRAME_SAMPLES));
          destruct Hif as [_ ->].
        -- apply Z.divide_0_r.
        -- exists (c + 1). lia.
      * now apply Hstep.
      * exact Hs.
    + injection Hs as <-. now apply Hstep.
    + injection Hs as <-. now apply Hstep.
    + discriminate.
Qed.

Lemma streamData_reaches maxPoints n (frames : list Frame) (s0 s : device) :
  1 <= maxPoints -> 0 <= FRAME_SAMPLES -> maxPoints + FRAME_SAMPLES <= INT_MAX ->
  getIntegerParam 0 P_MaxPoints s0 = Some maxPoints ->
  nchan s0 = n -> cursor s0 = 0 ->
  streamData frames s0 = Ok tt s ->
  getIntegerParam 0 P_MaxPoints s = Some maxPoints /\
  nchan s = n /\ 0 <= cursor s < maxPoints.
Proof.
  intros Hmp1 Hfs Hmax Hmp Hn Hc Hrun.
  apply (streamData_Ok_inv
           (fun s => getIntegerParam 0 P_MaxPoints s = Some maxPoints /\
                     nchan s = n /\ 0 <= cursor s < maxPoints) frames) with (s := s0).
  - intros cf s1 s2 (Hmp' & Hn' & Hc') Hf.
    assert (Hs2 : state_of (onFrame cf s1) = Some s2) by now rewrite Hf.
    split; [|split].
    + rewrite <- Hmp'. now apply (onFrame_keeps_maxPoints cf).
    + rewrite <- Hn'. now apply (onFrame_keeps nchan cf blind_field_nchan).
    + now apply (onFrame_cursor_range cf s1 s2 maxPoints).
  - repeat split; [exact Hmp|exact Hn|lia|lia].
  - exact Hrun.
Qed.

(** C8. A frame processed while cursor + FRAME_SAMPLES exceeds maxPoints
    stores a sample at or beyond the end of its channel's segment, and
    the stores of every frame sequence stay inside the segment of their
    channel exactly when FRAME_SAMPLES divides maxPoints. *)
Theorem stores_in_segment_iff_divides (s0 : device) (maxPoints scan_freq : Z) :
  getIntegerParam 0 P_MaxPoints s0 = Some maxPoints ->
  getIntegerParam 0 P_ScanFreq s0 = Some scan_freq ->
  (Z.to_nat (nchan s0) <= length (eslo s0))%nat ->
  (Z.to_nat (nchan s0) <= length (eoff s0))%nat ->
  scan_freq <> 0 -> INT_MIN < NSPS ->
  1 <= nchan s0 -> 1 <= maxPoints -> 1 <= FRAME_SAMPLES ->
  nchan s0 * maxPoints + FRAME_SAMPLES <= INT_MAX ->
  cursor s0 = 0 -> trace s0 = [] ->
  (forall frames s cf s',
      streamData frames s0 = Ok tt s ->
      onFrame cf s = Ok tt s' ->
      maxPoints < cursor s + FRAME_SAMPLES ->
      exists new ic idx,
        trace s' = new ++ trace s /\
        In (ic, idx) (stores new) /\
        (ic + 1) * maxPoints <= idx) /\
  ((forall frames s',
       state_of (streamData frames s0) = Some s' ->
       Forall (in_segment maxPoints) (stores (trace s')))
   <-> (FRAME_SAMPLES | maxPoints)).
Proof.
  intros Hmp Hsf Hel Heo Hne Hnsps Hn Hmp1 Hfs Hmax Hc0 Ht0.
  assert (Hmpn : maxPoints <= nchan s0 * maxPoints) by nia.
  split; [|split].
  - intros frames s cf s' Hrun Hf Hover.
    destruct (streamData_reaches maxPoints (nchan s0) frames s0 s)
      as (Hmp' & Hn' & Hc'); try assumption; try lia.
    destruct (onFrame_last_store cf maxPoints s s' Hmp' Hf) as (new & Ht & Hin); try lia.
    exists new, 0, (cursor s + FRAME_SAMPLES - 1). split; [exact Ht|].
    split; [exact Hin|lia].
  - intros Hall.
    destruct (Z.eq_dec (maxPoints mod FRAME_SAMPLES) 0) as [Hz|Hnz].
    { apply Z.mod_divide; [lia|exact Hz]. }
    exfalso.
    assert (Hdm : maxPoints = FRAME_SAMPLES * (maxPoints / FRAME_SAMPLES)
                              + maxPoints mod FRAME_SAMPLES)
      by (apply Z.div_mod; lia).
    assert (Hrb : 0 <= maxPoints mod FRAME_SAMPLES < FRAME_SAMPLES)
      by (apply Z.mod_pos_bound; lia).
    assert (Hk : 0 <= maxPoints / FRAME_SAMPLES) by (apply Z.div_pos; lia).
    set (k := maxPoints / FRAME_SAMPLES) in *.
    set (f := ones_frame (nchan s0)).
    destruct (streamData_ones maxPoints scan_freq (nchan s0) (Z.to_nat k)
                Hne Hnsps) with (s := s0)
      as (sk & Hrun & Hready & Hck).
    { lia. }
    { lia. }
    { unfold ready. tauto. }
    { lia. }
    { rewrite Hc0, Z2Nat.id by lia. lia. }
    rewrite Hc0, Z2Nat.id in Hck by lia.
    destruct (onFrame_ones_returns maxPoints scan_freq (nchan s0) sk Hready Hne Hnsps)
      as (s' & Hf).
    destruct Hready as (Hmpk & _ & Hnk & _).
    destruct (onFrame_last_store f maxPoints sk s' Hmpk Hf) as (new & Ht & Hin); try lia.
    assert (Hs' : state_of (streamData (replicate (Z.to_nat k) f ++ [f]) s0) = Some s').
    { rewrite streamData_app, (bind_Ok _ _ _ _ _ Hrun). simpl.
      now rewrite (bind_Ok _ _ _ _ _ Hf). }
    apply Hall in Hs'. rewrite Ht, stores_app in Hs'.
    apply Forall_app in Hs' as [_ Hnew].
    rewrite Forall_forall in Hnew. apply list_elem_of_In, Hnew in Hin.
    unfold in_segment in Hin. simpl in Hin. lia.
  - intros Hdiv frames s' Hs'.
    apply (streamData_in_segment maxPoints (nchan s0) frames) with (s := s0);
      try assumption; try reflexivity; try lia.
    + rewrite Hc0. apply Z.divide_0_r.
    + rewrite Ht0. constructor.
Qed.

(** ** The stuck-at-zero fault *)

Lemma faults_ret {A} diag (a : A) : faults diag (mret a).
Proof. intros s. now exists []. Qed.

Lemma faults_bind {A B} diag (m : M A) (f : A -> M B) :
  faults diag m -> (forall a, faults diag (f a)) -> faults diag (m ≫= f).
Proof.
  intros Hm Hf s. rewrite bind_eq. specialize (Hm s).
  destruct (m s) as [a s1|c s1|s1|]; try exact Hm.
  destruct Hm as (new1 & Ht1 & Hs1). specialize (Hf a s1).
  destruct (f a s1) as [b s2|c s2|s2|]; try exact Hf.
  - destruct Hf as (new2 & Ht2 & Hs2). exists (new2 ++ new1). split.
    + rewrite Ht2, Ht1. now rewrite app_assoc.
    + now apply Forall_app.
  - destruct Hf as (Hc & new2 & Ht2 & Hs2). split; [exact Hc|].
    exists (new2 ++ new1). split.
    + rewrite Ht2, Ht1. now rewrite app_assoc.
    + now apply Forall_app.
Qed.

Lemma faults_for_loop {L} diag (body : Z -> L -> M L) n :
  (forall i l, faults diag (body i l)) ->
  forall i0 l, faults diag (for_loop n i0 body l).
Proof.
  intros Hbody. induction n as [|n IH]; intros i0 l.
  - apply faults_ret.
  - rewrite for_loop_S. apply faults_bind; [apply Hbody|]. intros l'. apply IH.
Qed.

Lemma sample_step_faults cf ic ix0 raw id cz :
  faults (zeros_detected cf) (sample_step cf ic ix0 raw id cz).
Proof.
  intros s. unfold sample_step. mrun.
  destruct (raw !! Z.to_nat id) as [yy|]; [|exact I]. mrun.
  destruct (yy =? 0); mrun.
  - destruct (60 <? int_add cz 1); mrun.
    + split; [reflexivity|]. now exists [].
    + destruct (eslo s !! Z.to_nat ic) as [m|]; [|exact I]. mrun.
      destruct (eoff s !! Z.to_nat ic) as [c|]; [|exact I]. mrun.
      unfold store. mrun. new_events. now repeat constructor.
  - destruct (eslo s !! Z.to_nat ic) as [m|]; [|exact I]. mrun.
    destruct (eoff s !! Z.to_nat ic) as [c|]; [|exact I]. mrun.
    unfold store. mrun. new_events. now repeat constructor.
Qed.

Lemma convert_frame_faults cf maxPoints :
  faults (zeros_detected cf) (convert_frame cf maxPoints).
Proof.
  unfold convert_frame. apply faults_bind.
  - intros s. now exists [].
  - intros n. apply faults_for_loop. intros ic []. unfold channel_step. cbv zeta.
    apply faults_bind; [|intros ?; apply faults_ret].
    apply faults_for_loop. intros id cz. apply sample_step_faults.
Qed.

(** Past the conversion of the samples nothing ends the process. *)
Lemma flush_publish_no_exit cf maxPoints (s : device) code s' :
  (modify (fun s => with_cursor (int_add (cursor s) FRAME_SAMPLES) s);;
   scan_freq ← load_int P_ScanFreq;
   period ← of_option (c_div NSPS scan_freq);
   flush period;;
   publish cf maxPoints) s <> Exited code s'.
Proof.
  mrun. unfold load_int.
  destruct (getIntegerParam 0 P_ScanFreq _) as [sf|]; [|discriminate]. mrun.
  destruct (c_div NSPS sf) as [period|]; [|discriminate]. mrun.
  match goal with
  | |- context [flush period ?s2] => destruct (flush_returns period s2) as (s3 & ->)
  end.
  mrun. destruct (publish_returns cf maxPoints s3) as (s4 & ->). discriminate.
Qed.

(** Whatever a sample is, the counter of zeros never goes back: a zero
    adds one to it and any other sample leaves it as it is. *)
Lemma sample_step_counts_zeros cf ic ix0 raw id cz (s : device) yy cz' s' :
  raw !! Z.to_nat id = Some yy ->
  sample_step cf ic ix0 raw id cz s = Ok cz' s' ->
  cz' = if yy =? 0 then int_add cz 1 else cz.
Proof.
  intros Hraw. unfold sample_step. mrun. rewrite Hraw. mrun.
  destruct (yy =? 0); mrun.
  - destruct (60 <? int_add cz 1); mrun; [discriminate|].
    destruct (eslo s !! Z.to_nat ic) as [m|]; [|discriminate]. mrun.
    destruct (eoff s !! Z.to_nat ic) as [c|]; [|discriminate]. mrun.
    unfold store. mrun. now intros [= <- _].
  - destruct (eslo s !! Z.to_nat ic) as [m|]; [|discriminate]. mrun.
    destruct (eoff s !! Z.to_nat ic) as [c|]; [|discriminate]. mrun.
    unfold store. mrun. now intros [= <- _].
Qed.

(** C3. When the frame handler raises the stuck-at-zero fault it has
    stored samples and nothing else, prints one line that carries the
    function name and the frame's start-sample number, and ends the
    process with status 1: the streaming loop hands no further frame to
    it. *)
Theorem stuck_at_zero_halts (cf : Frame) (rest : list Frame) (s s' : device) (code : Z) :
  onFrame cf s = Exited code s' ->
  code = 1 /\
  (exists new,
      trace s' = zeros_detected cf :: new ++ trace s /\ Forall is_store new) /\
  zeros_detected cf
  = EvPrintf stdout "%s zeros detected at %lld\n"
      [ArgS "onFrame"; ArgI (startSampleNumber cf)] /\
  streamData (cf :: rest) s = Exited 1 s'.
Proof.
  intros Hrun.
  assert (Hfault : code = 1 /\
            exists new, trace s' = zeros_detected cf :: new ++ trace s /\
                        Forall is_store new).
  { revert Hrun. unfold onFrame, get_maxPoints. rewrite bind_eq. unfold load_int.
    destruct (getIntegerParam 0 P_MaxPoints s) as [maxPoints|]; [|discriminate].
    cbv beta iota. rewrite bind_eq.
    pose proof (convert_frame_faults cf maxPoints s) as Hconv.
    destruct (convert_frame cf maxPoints s) as [[] s1|c s1|s1|]; try discriminate.
    - intros Hrest. now apply flush_publish_no_exit in Hrest.
    - intros [= -> ->]. exact Hconv. }
  destruct Hfault as [-> Hnew]. repeat split; try exact Hnew.
  simpl. now rewrite bind_eq, Hrun.
Qed.

(** ** A card that is not idle *)

(** C2. When the card reports a state other than ST_STOP, setup prints
    a line on stderr and sends no command to the card, and task goes on:
    it registers the frame handler and enters the streaming loop, which
    hands every frame the transport delivers to the frame handler. *)
Theorem task_streams_when_card_not_idle
    (card : Acq2xx) (frames : list Frame) (s s1 : device) (state : STATE) :
  card_state card = Some state ->
  state <> ST_STOP ->
  compute_cal card s = Ok tt s1 ->
  setup card s1 = Ok tt (with_trace (let_it_run state :: trace s1) s1) /\
  commands (let_it_run state :: trace s1) = commands (trace s1) /\
  task card frames s
  = streamData frames
      (with_trace (EvStreamData :: EvAddFrameHandler :: let_it_run state :: trace s1) s1).
Proof.
  intros Hstate Hne Hcal.
  assert (Hsetup : setup card s1 = Ok tt (with_trace (let_it_run state :: trace s1) s1)).
  { unfold setup. rewrite Hstate. destruct state; try reflexivity. congruence. }
  split; [exact Hsetup|]. split.
  - unfold commands. simpl. rewrite omap_app. simpl. now rewrite app_nil_r.
  - unfold task. rewrite (bind_Ok _ _ _ _ _ Hcal), (bind_Ok _ _ _ _ _ Hsetup).
    mrun. reflexivity.
Qed.

(** * More of the driver *)

(** ** Writes by asyn clients *)

Lemma param_type_Some_range index ty :
  param_type index = Some ty -> 0 <= index < 11.
Proof.
  unfold param_type. destruct (Z.ltb_spec index 0); [discriminate|].
  intros Hl. apply lookup_lt_Some in Hl. simpl in Hl. lia.
Qed.

Lemma getIntegerParam_insert_eq list index v (s : device) :
  getIntegerParam list index (with_params (<[(list, index) := PInt v]> (params s)) s)
  = Some v.
Proof. unfold getIntegerParam. simpl. now rewrite lookup_insert_eq. Qed.

(** A write of an int32 parameter reads back, and touches nothing else
    of the driver but the trace. *)
Theorem writeInt32_round_trip (function value : Z) (s : device) :
  param_type function = Some asynParamInt32 ->
  exists s',
    writeInt32 function value s = Ok (callbacks_status 0) s' /\
    getIntegerParam 0 function s' = Some value /\
    (forall key, key <> (0, function) -> params s' !! key = params s !! key) /\
    cursor s' = cursor s /\ pData_ s' = pData_ s /\ pTimeBase_ s' = pTimeBase_ s /\
    eslo s' = eslo s /\ eoff s' = eoff s /\ acc s' = acc s.
Proof.
  intros Hty. unfold writeInt32. mrun.
  rewrite run_setIntegerParam by (apply valid_list_0 || exact Hty). mrun.
  destruct (function =? P_Run); [destruct (value =? 0)|]; mrun;
    unfold report; destruct (callbacks_status 0); mrun;
    (eexists; split; [reflexivity|]);
    (split; [apply getIntegerParam_insert_eq|]);
    (split; [intros key Hkey; simpl; now rewrite lookup_insert_ne|]);
    repeat split; reflexivity.
Qed.

(** The writes wake the task exactly when they should: [writeInt32] when
    it sets the run flag to a non-zero value, [writeFloat64] when it
    writes the update time while the run flag is non-zero. *)
Theorem writes_wake_task (function : Z) (s : device) (run : Z) :
  getIntegerParam 0 P_Run s = Some run ->
  (forall value, exists s',
      writeInt32 function value s = Ok (callbacks_status 0) s' /\
      exists new, trace s' = new ++ trace s /\
                  (In EvEventSignal new <-> function = P_Run /\ value <> 0)) /\
  (forall value, exists s',
      writeFloat64 function value s = Ok (callbacks_status 0) s' /\
      exists new, trace s' = new ++ trace s /\
                  (In EvEventSignal new <-> function = P_UpdateTime /\ run <> 0)).
Proof.
  intros Hrun. split; intros value.
  - unfold writeInt32. rewrite bind_eq. unfold setIntegerParam, set_param.
    rewrite valid_list_0. cbn [negb].
    destruct (param_type function) as [ty|];
      [destruct (asynParamType_eqb asynParamInt32 ty)|];
      mrun; destruct (Z.eqb_spec function P_Run) as [Hf|Hf];
      try destruct (Z.eqb_spec value 0) as [Hv|Hv];
      mrun; unfold report; destruct (callbacks_status 0); mrun;
      (eexists; split; [reflexivity|]); new_events; simpl;
      intuition (try discriminate; try congruence).
  - unfold writeFloat64.
    destruct (Z.eqb_spec function P_UpdateTime) as [->|Hf].
    + rewrite bind_eq, run_setDoubleParam by (apply valid_list_0 || reflexivity). mrun.
      destruct (PrimFloat.ltb value MIN_UPDATE_TIME); mrun.
      * rewrite run_setDoubleParam by (apply valid_list_0 || reflexivity). mrun.
        erewrite run_load_int.
        2:{ repeat (rewrite getIntegerParam_with_trace
                    || rewrite getIntegerParam_insert_ne by discriminate).
            exact Hrun. }
        mrun. destruct (Z.eqb_spec run 0) as [Hr|Hr]; mrun;
          unfold report; destruct (callbacks_status 0); mrun;
          (eexists; split; [reflexivity|]); new_events; simpl;
          intuition (try discriminate; try congruence).
      * erewrite run_load_int.
        2:{ rewrite getIntegerParam_insert_ne by discriminate. exact Hrun. }
        mrun. destruct (Z.eqb_spec run 0) as [Hr|Hr]; mrun;
          unfold report; destruct (callbacks_status 0); mrun;
          (eexists; split; [reflexivity|]); new_events; simpl;
          intuition (try discriminate; try congruence).
    + rewrite bind_eq. unfold setDoubleParam, set_param.
      rewrite valid_list_0. cbn [negb].
      destruct (param_type function) as [ty|];
        [destruct (asynParamType_eqb asynParamFloat64 ty)|];
        mrun; unfold report; destruct (callbacks_status 0); mrun;
        (eexists; split; [reflexivity|]); new_events; simpl;
        intuition (try discriminate; try congruence).
Qed.

(** The status of the set is overwritten by the status of the callback
    dispatch: a write the parameter library refuses (the parameter is of
    another type, or there is none of that index) changes no parameter
    and still returns what the dispatch reports. *)
Theorem write_status_hides_refused_set (function : Z) (s : device) :
  (param_type function <> Some asynParamInt32 ->
   forall value, exists s',
     writeInt32 function value s = Ok (callbacks_status 0) s' /\
     params s' = params s) /\
  (param_type function <> Some asynParamFloat64 ->
   forall value, exists s',
     writeFloat64 function value s = Ok (callbacks_status 0) s' /\
     params s' = params s).
Proof.
  split; intros Hty value.
  - unfold writeInt32. rewrite bind_eq. unfold setIntegerParam, set_param.
    rewrite valid_list_0. cbn [negb].
    assert (Hrun : function <> P_Run) by (intros ->; now apply Hty).
    apply Z.eqb_neq in Hrun. rewrite Hrun.
    destruct (param_type function) as [[]|]; try congruence;
      cbn [asynParamType_eqb]; mrun; unfold report; destruct (callbacks_status 0); mrun;
      eexists; split; reflexivity.
  - unfold writeFloat64. rewrite bind_eq. unfold setDoubleParam at 1. unfold set_param.
    rewrite valid_list_0. cbn [negb].
    assert (Hup : function <> P_UpdateTime) by (intros ->; now apply Hty).
    apply Z.eqb_neq in Hup. rewrite Hup.
    destruct (param_type function) as [[]|]; try congruence;
      cbn [asynParamType_eqb]; mrun; unfold report; destruct (callbacks_status 0); mrun;
      eexists; split; reflexivity.
Qed.

(** The floor is the update time's alone: a write of any other double
    parameter stores the value as written, however small, without a
    warning and without waking the task. *)
Theorem writeFloat64_other_parameter (function : Z) (value : float) (s : device) :
  param_type function = Some asynParamFloat64 ->
  function <> P_UpdateTime ->
  exists s',
    writeFloat64 function value s = Ok (callbacks_status 0) s' /\
    getDoubleParam 0 function s' = Some value /\
    (forall key, key <> (0, function) -> params s' !! key = params s !! key) /\
    exists new,
      trace s' = new ++ trace s /\
      Forall (fun e => ~ is_warning e /\ e <> EvEventSignal) new.
Proof.
  intros Hty Hup. unfold writeFloat64.
  rewrite bind_eq, run_setDoubleParam by (apply valid_list_0 || exact Hty).
  apply Z.eqb_neq in Hup. rewrite Hup. mrun.
  unfold report. destruct (callbacks_status 0); mrun;
    (eexists; split; [reflexivity|]);
    (split; [unfold getDoubleParam; simpl; now rewrite lookup_insert_eq|]);
    (split; [intros key Hkey; simpl; now rewrite lookup_insert_ne|]);
    new_events; repeat constructor; simpl; try tauto; discriminate.
Qed.

(** ** Publication of the waveforms *)

Lemma publish_loop_exact maxPoints n :
  forall i0 (s : device),
    for_loop n i0
      (fun ic _ => doCallbacksFloat64Array (int_mul ic maxPoints) maxPoints P_Waveform ic)
      tt s
    = Ok tt (with_trace
               (rev (map (waveform_event (pData_ s) maxPoints) (seqZ i0 (Z.of_nat n)))
                ++ trace s) s).
Proof.
  induction n as [|n IH]; intros i0 s.
  - simpl. now destruct s.
  - rewrite for_loop_S, bind_eq. unfold doCallbacksFloat64Array at 1. mrun.
    rewrite IH. f_equal. cbn [pData_ trace with_trace].
    rewrite (seqZ_cons i0) by lia. cbn [map rev].
    replace (Z.pred (Z.of_nat (S n))) with (Z.of_nat n) by lia.
    rewrite <- app_assoc. reflexivity.
Qed.

(** What [publish] does when the waveform is full. *)
Lemma publish_exact cf maxPoints (s : device) :
  maxPoints <= cursor s ->
  publish cf maxPoints s
  = Ok tt (with_cursor 0
             (with_trace
                (rev (map (waveform_event (pData_ s) maxPoints) (seqZ 0 (nchan s)))
                 ++ EvParamCallbacks 0 :: trace s)
                (with_params
                   (<[(0, P_UpdateTime) := PDouble (float_of_Z (startSampleNumber cf))]>
                      (params s)) s))).
Proof.
  intros Hfull. unfold publish. mrun.
  apply Z.leb_le in Hfull. rewrite Hfull.
  rewrite bind_eq, run_setDoubleParam by (apply valid_list_0 || reflexivity). mrun.
  rewrite publish_loop_exact. mrun. cbn [pData_ trace nchan with_trace with_params].
  destruct (Z.le_gt_cases 0 (nchan s)) as [Hn|Hn].
  - now rewrite Z2Nat.id.
  - replace (Z.to_nat (nchan s)) with 0%nat by lia.
    now rewrite (seqZ_nil _ (nchan s)) by lia.
Qed.

Ltac fblind f :=
  first [ apply (fblind_pData f) | apply (fblind_acc f) | apply (fblind_trace f)
        | apply (fblind_cursor f) | apply (fblind_params f) ]; assumption.

(** Up to the publication the frame handler writes cells, accumulator,
    cursor, trace and scalars only. *)
Lemma convert_flush_keeps {A} (f : device -> A) cf maxPoints (s s1 s3 : device) period :
  flush_blind f ->
  convert_frame cf maxPoints s = Ok tt s1 ->
  flush period (with_cursor (int_add (cursor s1) FRAME_SAMPLES) s1) = Ok tt s3 ->
  f s3 = f s.
Proof.
  intros Hf Hconv Hflush.
  assert (H1 : rel (keeps f) (convert_frame cf maxPoints)).
  { unfold convert_frame, channel_step, sample_step. rel_steps; solve [fblind f]. }
  assert (H3 : rel (keeps f) (flush period)).
  { unfold flush. rel_steps; solve [fblind f]. }
  rewrite (H3 _ s3) by now rewrite Hflush.
  rewrite (fblind_cursor f Hf). apply H1. now rewrite Hconv.
Qed.

Lemma fblind_update_time : flush_blind (getDoubleParam 0 P_UpdateTime).
Proof.
  split; try reflexivity. intros s list v. unfold getDoubleParam. simpl.
  now rewrite lookup_insert_ne.
Qed.

(** A frame that fills the waveform overwrites the update time with its
    start-sample number, whatever the floor [writeFloat64] keeps; any
    other frame leaves the update time as it is. *)
Theorem frame_overwrites_update_time cf (s s' : device) maxPoints :
  getIntegerParam 0 P_MaxPoints s = Some maxPoints ->
  onFrame cf s = Ok tt s' ->
  getDoubleParam 0 P_UpdateTime s'
  = if maxPoints <=? int_add (cursor s) FRAME_SAMPLES
    then Some (float_of_Z (startSampleNumber cf))
    else getDoubleParam 0 P_UpdateTime s.
Proof.
  intros Hmp Hrun.
  apply onFrame_Ok_inv in Hrun
    as (mp & sf & period & s1 & s3 & Hmp' & Hconv & Hsf & Hdiv & Hflush & Hpub).
  assert (mp = maxPoints) as -> by congruence.
  assert (Hcur : cursor s3 = int_add (cursor s) FRAME_SAMPLES).
  { assert (Hs3 : state_of (flush period (with_cursor (int_add (cursor s1) FRAME_SAMPLES) s1))
                  = Some s3) by now rewrite Hflush.
    rewrite (flush_keeps cursor period blind_field_cursor _ _ Hs3). simpl. f_equal.
    apply (convert_frame_keeps cursor cf maxPoints blind_field_cursor). now rewrite Hconv. }
  pose proof (convert_flush_keeps (getDoubleParam 0 P_UpdateTime) cf maxPoints s s1 s3 period
                fblind_update_time Hconv Hflush) as Hut.
  rewrite <- Hcur. destruct (Z.leb_spec maxPoints (cursor s3)) as [Hfull|Hnot].
  - rewrite publish_exact in Hpub by exact Hfull. injection Hpub as <-.
    unfold getDoubleParam. simpl. now rewrite lookup_insert_eq.
  - unfold publish in Hpub. revert Hpub. mrun.
    apply Z.leb_gt in Hnot. rewrite Hnot. intros [= <-]. exact Hut.
Qed.

Lemma snapshot_lookup (d : gmap Z float) ix0 n k :
  0 <= k < n ->
  snapshot d ix0 n !! Z.to_nat k = Some (default PrimFloat.zero (d !! (ix0 + k))).
Proof.
  intros Hk. unfold snapshot. rewrite list_lookup_fmap.
  rewrite (lookup_seqZ_lt 0 n (Z.to_nat k)) by lia. simpl. do 3 f_equal. lia.
Qed.

(** When a frame fills the waveform, the subscribers of channel [ic] get
    the maxPoints cells of that channel's segment as they are after the
    frame, channel after channel, right after the parameter callbacks of
    the update time; before that the frame makes no array callback. *)
Theorem published_waveforms_are_segments cf (s s' : device) maxPoints :
  getIntegerParam 0 P_MaxPoints s = Some maxPoints ->
  onFrame cf s = Ok tt s' ->
  maxPoints <= int_add (cursor s) FRAME_SAMPLES ->
  (exists new,
      trace s'
      = rev (map (waveform_event (pData_ s') maxPoints) (seqZ 0 (nchan s)))
        ++ EvParamCallbacks 0 :: new ++ trace s /\
      Forall quiet new) /\
  forall ic k, 0 <= k < maxPoints ->
    waveform_event (pData_ s') maxPoints ic
    = EvFloat64Array (snapshot (pData_ s') (int_mul ic maxPoints) maxPoints) P_Waveform ic /\
    length (snapshot (pData_ s') (int_mul ic maxPoints) maxPoints) = Z.to_nat maxPoints /\
    snapshot (pData_ s') (int_mul ic maxPoints) maxPoints !! Z.to_nat k
    = Some (default PrimFloat.zero (pData_ s' !! (int_mul ic maxPoints + k))).
Proof.
  intros Hmp Hrun Hfull.
  apply onFrame_Ok_inv in Hrun
    as (mp & sf & period & s1 & s3 & Hmp' & Hconv & Hsf & Hdiv & Hflush & Hpub).
  assert (mp = maxPoints) as -> by congruence.
  assert (Hs1 : state_of (convert_frame cf maxPoints s) = Some s1) by now rewrite Hconv.
  assert (Hs3 : state_of (flush period (with_cursor (int_add (cursor s1) FRAME_SAMPLES) s1))
                = Some s3) by now rewrite Hflush.
  pose proof (convert_frame_keeps cursor cf maxPoints blind_field_cursor _ _ Hs1) as Hc1.
  pose proof (convert_frame_keeps nchan cf maxPoints blind_field_nchan _ _ Hs1) as Hn1.
  pose proof (convert_frame_quiet cf maxPoints _ _ Hs1) as (new1 & Ht1 & Hq1).
  pose proof (flush_keeps cursor period blind_field_cursor _ _ Hs3) as Hc3.
  pose proof (flush_keeps nchan period blind_field_nchan _ _ Hs3) as Hn3.
  pose proof (flush_quiet period _ _ Hs3) as (new3 & Ht3 & Hq3).
  unfold keeps in *. simpl in Hc3, Hn3, Ht3.
  rewrite publish_exact in Hpub by (rewrite Hc3, Hc1; exact Hfull).
  injection Hpub as <-. cbn [pData_ trace with_cursor with_trace with_params].
  split.
  - exists (new3 ++ new1). split.
    + rewrite Hn3, Hn1, Ht3, Ht1. now rewrite <- app_assoc.
    + now apply Forall_app.
  - intros ic k Hk. split; [reflexivity|]. split.
    + unfold snapshot. rewrite length_map, length_seqZ. reflexivity.
    + now apply snapshot_lookup.
Qed.

(** ** The cells a frame writes *)

(** One turn of the loop over the samples, when it returns. *)
Lemma sample_step_Ok_exact cf ic ix0 raw id cz (s : device) cz' s' :
  sample_step cf ic ix0 raw id cz s = Ok cz' s' ->
  exists yy m c,
    raw !! Z.to_nat id = Some yy /\
    eslo s !! Z.to_nat ic = Some m /\
    eoff s !! Z.to_nat ic = Some c /\
    cz' = (if yy =? 0 then int_add cz 1 else cz) /\
    (yy = 0 -> int_add cz 1 <= 60) /\
    s' = with_acc (acc_set ic (calibrate m c yy) (acc s))
           (with_trace (EvStore ic (int_add (int_add ix0 (cursor s)) id) :: trace s)
              (with_pData (<[int_add (int_add ix0 (cursor s)) id := calibrate m c yy]>
                             (pData_ s)) s)).
Proof.
  unfold sample_step. mrun.
  destruct (raw !! Z.to_nat id) as [yy|]; [|discriminate]. mrun.
  destruct (Z.eqb_spec yy 0) as [Hz|Hnz]; mrun.
  - destruct (Z.ltb_spec 60 (int_add cz 1)); mrun; [discriminate|].
    destruct (eslo s !! Z.to_nat ic) as [m|]; [|discriminate]. mrun.
    destruct (eoff s !! Z.to_nat ic) as [c|]; [|discriminate]. mrun.
    unfold store. mrun. intros [= <- <-]. exists yy, m, c.
    split; [reflexivity|]. split; [reflexivity|]. split; [reflexivity|].
    split; [now rewrite Hz|]. split; [intros _; lia|reflexivity].
  - destruct (eslo s !! Z.to_nat ic) as [m|]; [|discriminate]. mrun.
    destruct (eoff s !! Z.to_nat ic) as [c|]; [|discriminate]. mrun.
    unfold store. mrun. intros [= <- <-]. exists yy, m, c.
    split; [reflexivity|]. split; [reflexivity|]. split; [reflexivity|].
    split; [now rewrite (proj2 (Z.eqb_neq yy 0) Hnz)|].
    split; [intros Hz; contradiction|reflexivity].
Qed.

(** The samples of one channel, stored from [base] on. *)
Lemma channel_step_cells cf maxPoints ic (s s' : device) base :
  channel_step cf maxPoints ic s = Ok tt s' ->
  (forall id, 0 <= id < FRAME_SAMPLES ->
     int_add (int_add (int_mul ic maxPoints) (cursor s)) id = base + id) ->
  eslo s' = eslo s /\ eoff s' = eoff s /\ cursor s' = cursor s /\
  (forall id, 0 <= id < FRAME_SAMPLES ->
     exists raw yy m c,
       channels cf !! Z.to_nat ic = Some raw /\
       raw !! Z.to_nat id = Some yy /\
       eslo s !! Z.to_nat ic = Some m /\
       eoff s !! Z.to_nat ic = Some c /\
       pData_ s' !! (base + id) = Some (calibrate m c yy)) /\
  (forall idx, ~ (base <= idx < base + FRAME_SAMPLES) ->
     pData_ s' !! idx = pData_ s !! idx).
Proof.
  unfold channel_step. cbv zeta. intros Hrun Hidx.
  apply bind_Ok_inv in Hrun as (cz & s1 & Hloop & Hret). injection Hret as <-.
  set (raw := default [] (channels cf !! Z.to_nat ic)) in *.
  pose (J := fun (id : Z) (_ : Z) (si : device) =>
    eslo si = eslo s /\ eoff si = eoff s /\ cursor si = cursor s /\
    (forall id', 0 <= id' < id ->
       exists yy m c,
         raw !! Z.to_nat id' = Some yy /\
         eslo s !! Z.to_nat ic = Some m /\
         eoff s !! Z.to_nat ic = Some c /\
         pData_ si !! (base + id') = Some (calibrate m c yy)) /\
    (forall idx, ~ (base <= idx < base + id) -> pData_ si !! idx = pData_ s !! idx)).
  assert (HJ : J (0 + Z.of_nat (Z.to_nat FRAME_SAMPLES)) cz s1).
  { eapply (for_loop_Ok_inv J); [exact Hloop| |].
    - unfold J. repeat split; try reflexivity. intros id' Hid'. lia.
    - clear Hloop. unfold J.
      intros id l si l' si' Hid (Hel & Heo & Hc & Hdone & Hrest) Hstep.
      apply sample_step_Ok_exact in Hstep
        as (yy & m & c & Hyy & Hm & Hcc & _ & _ & ->).
      rewrite Hc, Hidx by lia. rewrite Hel in Hm. rewrite Heo in Hcc.
      cbn [eslo eoff cursor pData_ with_acc with_trace with_pData].
      repeat split; try assumption.
      + intros id' Hid'. destruct (Z.eq_dec id' id) as [->|Hne].
        * exists yy, m, c. repeat split; try assumption. apply lookup_insert_eq.
        * destruct (Hdone id') as (yy' & m' & c' & H1 & H2 & H3 & H4); [lia|].
          exists yy', m', c'. repeat split; try assumption.
          rewrite lookup_insert_ne by lia. exact H4.
      + intros idx Hout. rewrite lookup_insert_ne by lia. apply Hrest. lia. }
  unfold J in HJ. destruct HJ as (Hel & Heo & Hc & Hdone & Hrest).
  repeat split; try assumption.
  - intros id Hid. destruct (Hdone id) as (yy & m & c & H1 & H2 & H3 & H4); [lia|].
    unfold raw in H1. destruct (channels cf !! Z.to_nat ic) as [r|] eqn:Hch.
    + exists r, yy, m, c. repeat split; assumption.
    + simpl in H1. rewrite lookup_nil in H1. discriminate.
  - intros idx Hout. apply Hrest. lia.
Qed.

Lemma cell_index maxPoints cur n ic id :
  0 <= cur -> cur + FRAME_SAMPLES <= maxPoints -> n * maxPoints <= INT_MAX ->
  0 <= ic < n -> 0 <= id < FRAME_SAMPLES ->
  int_add (int_add (int_mul ic maxPoints) cur) id = ic * maxPoints + cur + id.
Proof.
  intros Hcur Hfit Hmax Hic Hid. unfold int_add, int_mul.
  assert (0 <= ic * maxPoints) by nia.
  assert (ic * maxPoints + maxPoints <= n * maxPoints) by nia.
  rewrite (wrap_int_id (ic * maxPoints)) by (unfold INT_MIN, INT_MAX in *; lia).
  rewrite (wrap_int_id (ic * maxPoints + cur)) by (unfold INT_MIN, INT_MAX in *; lia).
  apply wrap_int_id. unfold INT_MIN, INT_MAX in *. lia.
Qed.

(** The samples of a frame that fits below maxPoints, once converted. *)
Lemma convert_frame_cells cf maxPoints (s s1 : device) :
  convert_frame cf maxPoints s = Ok tt s1 ->
  0 <= cursor s -> cursor s + FRAME_SAMPLES <= maxPoints ->
  nchan s * maxPoints <= INT_MAX ->
  (forall ic id, 0 <= ic < nchan s -> 0 <= id < FRAME_SAMPLES ->
     exists raw yy m c,
       channels cf !! Z.to_nat ic = Some raw /\
       raw !! Z.to_nat id = Some yy /\
       eslo s !! Z.to_nat ic = Some m /\
       eoff s !! Z.to_nat ic = Some c /\
       pData_ s1 !! (ic * maxPoints + cursor s + id) = Some (calibrate m c yy)) /\
  (forall idx,
     (forall ic, 0 <= ic < nchan s ->
        ~ (ic * maxPoints + cursor s <= idx < ic * maxPoints + cursor s + FRAME_SAMPLES)) ->
     pData_ s1 !! idx = pData_ s !! idx).
Proof.
  intros Hrun Hcur Hfit Hmax. unfold convert_frame in Hrun.
  rewrite bind_eq, run_gets in Hrun. cbv beta iota in Hrun.
  pose (I := fun (i : Z) (_ : unit) (si : device) =>
    eslo si = eslo s /\ eoff si = eoff s /\ cursor si = cursor s /\
    (forall ic id, 0 <= ic < i -> 0 <= id < FRAME_SAMPLES ->
       exists raw yy m c,
         channels cf !! Z.to_nat ic = Some raw /\
         raw !! Z.to_nat id = Some yy /\
         eslo s !! Z.to_nat ic = Some m /\
         eoff s !! Z.to_nat ic = Some c /\
         pData_ si !! (ic * maxPoints + cursor s + id) = Some (calibrate m c yy)) /\
    (forall idx,
       (forall ic, 0 <= ic < i ->
          ~ (ic * maxPoints + cursor s <= idx < ic * maxPoints + cursor s + FRAME_SAMPLES)) ->
       pData_ si !! idx = pData_ s !! idx)).
  assert (HI : I (0 + Z.of_nat (Z.to_nat (nchan s))) tt s1).
  { eapply (for_loop_Ok_inv I); [exact Hrun| |].
    - unfold I. repeat split; try reflexivity. intros ic id Hic. lia.
    - clear Hrun. unfold I.
      intros i [] si [] si' Hi (Hel & Heo & Hc & Hdone & Hrest) Hstep.
      destruct (channel_step_cells cf maxPoints i si si' (i * maxPoints + cursor s) Hstep)
        as (Hel' & Heo' & Hc' & Hnew & Hout).
      { intros id Hid. rewrite Hc, (cell_index maxPoints (cursor s) (nchan s)) by lia. lia. }
      split; [congruence|]. split; [congruence|]. split; [congruence|]. split.
      + intros ic id Hic Hid. destruct (Z.eq_dec ic i) as [->|Hne].
        * destruct (Hnew id Hid) as (raw & yy & m & c & H1 & H2 & H3 & H4 & H5).
          exists raw, yy, m, c. rewrite Hel in H3. rewrite Heo in H4.
          rewrite <- Z.add_assoc in H5. rewrite <- Z.add_assoc.
          repeat split; assumption.
        * destruct (Hdone ic id) as (raw & yy & m & c & H1 & H2 & H3 & H4 & H5);
            [lia|lia|].
          exists raw, yy, m, c. repeat split; try assumption.
          rewrite Hout; [exact H5|]. nia.
      + intros idx Hfree. rewrite Hout.
        * apply Hrest. intros ic Hic. apply Hfree. lia.
        * apply Hfree. lia. }
  unfold I in HI. destruct HI as (_ & _ & _ & Hdone & Hrest). split.
  - intros ic id Hic Hid. apply Hdone; lia.
  - intros idx Hfree. apply Hrest. intros ic Hic. apply Hfree. lia.
Qed.

Lemma flush_publish_keep_cells cf maxPoints period :
  rel (keeps pData_) (flush period;; publish cf maxPoints).
Proof. unfold flush, publish. rel_steps; reflexivity. Qed.

(** A frame that fits below maxPoints and is processed to the end leaves
    sample [id] of channel [ic], calibrated with that channel's scale
    and offset, in cell [ic*maxPoints + cursor + id] of the waveform
    buffer, and leaves every cell outside these ranges as it was. *)
Theorem onFrame_stores_calibrated_samples cf (s s' : device) maxPoints :
  getIntegerParam 0 P_MaxPoints s = Some maxPoints ->
  onFrame cf s = Ok tt s' ->
  0 <= cursor s -> cursor s + FRAME_SAMPLES <= maxPoints ->
  nchan s * maxPoints <= INT_MAX ->
  (forall ic id, 0 <= ic < nchan s -> 0 <= id < FRAME_SAMPLES ->
     exists raw yy scale offset,
       channels cf !! Z.to_nat ic = Some raw /\
       raw !! Z.to_nat id = Some yy /\
       eslo s !! Z.to_nat ic = Some scale /\
       eoff s !! Z.to_nat ic = Some offset /\
       pData_ s' !! (ic * maxPoints + cursor s + id)
       = Some (PrimFloat.add (PrimFloat.mul scale (float_of_Z yy)) offset)) /\
  (forall idx,
     (forall ic, 0 <= ic < nchan s ->
        ~ (ic * maxPoints + cursor s <= idx < ic * maxPoints + cursor s + FRAME_SAMPLES)) ->
     pData_ s' !! idx = pData_ s !! idx).
Proof.
  intros Hmp Hrun Hcur Hfit Hmax.
  apply onFrame_Ok_inv in Hrun
    as (mp & sf & period & s1 & s3 & Hmp' & Hconv & Hsf & Hdiv & Hflush & Hpub).
  assert (mp = maxPoints) as -> by congruence.
  assert (Hcells : pData_ s' = pData_ s1).
  { apply (flush_publish_keep_cells cf maxPoints period
             (with_cursor (int_add (cursor s1) FRAME_SAMPLES) s1) s').
    now rewrite (bind_Ok _ _ _ _ _ Hflush), Hpub. }
  rewrite Hcells. exact (convert_frame_cells cf maxPoints s s1 Hconv Hcur Hfit Hmax).
Qed.

(** ** Which frames raise the stuck-at-zero fault *)

Lemma zeros_cons yy l : count_zeros (yy :: l) = (if yy =? 0 then 1 else 0) + count_zeros l.
Proof. unfold count_zeros. simpl. destruct (yy =? 0); simpl length; lia. Qed.

Lemma zeros_nonneg l : 0 <= count_zeros l.
Proof. unfold count_zeros. lia. Qed.

(** One sample: the handler goes on with the new count, or ends the
    process when the count passes 60. *)
Lemma sample_step_outcome cf ic ix0 raw id cz (s : device) yy :
  raw !! Z.to_nat id = Some yy -> 0 <= cz <= 60 ->
  is_Some (eslo s !! Z.to_nat ic) -> is_Some (eoff s !! Z.to_nat ic) ->
  let cz' := (if yy =? 0 then 1 else 0) + cz in
  if cz' <=? 60
  then exists s', sample_step cf ic ix0 raw id cz s = Ok cz' s' /\
                  eslo s' = eslo s /\ eoff s' = eoff s
  else exists s', sample_step cf ic ix0 raw id cz s = Exited 1 s'.
Proof.
  intros Hraw Hcz [m Hm] [c Hc]. unfold sample_step. cbv zeta.
  destruct (Z.eqb_spec yy 0) as [Hz|Hnz].
  - assert (Hadd : int_add cz 1 = 1 + cz).
    { unfold int_add. rewrite wrap_int_id by (unfold INT_MIN, INT_MAX; lia). lia. }
    destruct (Z.leb_spec (1 + cz) 60) as [Hle|Hgt].
    + mrun. rewrite Hraw. mrun. rewrite (proj2 (Z.eqb_eq yy 0) Hz). mrun.
      rewrite Hadd. rewrite (proj2 (Z.ltb_ge 60 (1 + cz)) Hle). mrun.
      rewrite Hm. mrun. rewrite Hc. mrun. unfold store. mrun.
      eexists. split; [reflexivity|]. split; reflexivity.
    + mrun. rewrite Hraw. mrun. rewrite (proj2 (Z.eqb_eq yy 0) Hz). mrun.
      rewrite Hadd. rewrite (proj2 (Z.ltb_lt 60 (1 + cz)) Hgt). mrun.
      eexists. reflexivity.
  - rewrite Z.add_0_l. rewrite (proj2 (Z.leb_le cz 60)) by lia.
    mrun. rewrite Hraw. mrun. rewrite (proj2 (Z.eqb_neq yy 0) Hnz). mrun.
    rewrite Hm. mrun. rewrite Hc. mrun. unfold store. mrun.
    eexists. split; [reflexivity|]. split; reflexivity.
Qed.

(** The loop over the samples of one channel, from sample [i0] on. *)
Lemma sample_loop_outcome cf ic ix0 raw k :
  forall i0 cz (s : device),
    0 <= i0 -> 0 <= cz <= 60 ->
    (Z.to_nat i0 + k <= length raw)%nat ->
    is_Some (eslo s !! Z.to_nat ic) -> is_Some (eoff s !! Z.to_nat ic) ->
    let z := cz + count_zeros (take k (drop (Z.to_nat i0) raw)) in
    if z <=? 60
    then exists s', for_loop k i0 (sample_step cf ic ix0 raw) cz s = Ok z s' /\
                    eslo s' = eslo s /\ eoff s' = eoff s
    else exists s', for_loop k i0 (sample_step cf ic ix0 raw) cz s = Exited 1 s'.
Proof.
  induction k as [|k IH]; intros i0 cz s Hi0 Hcz Hlen Hm Hc; cbv zeta.
  - rewrite take_0. change (count_zeros []) with 0. rewrite Z.add_0_r.
    rewrite (proj2 (Z.leb_le cz 60)) by lia.
    exists s. split; [reflexivity|]. split; reflexivity.
  - destruct (lookup_lt_is_Some_2 raw (Z.to_nat i0)) as [yy Hyy]; [lia|].
    rewrite (drop_S _ _ _ Hyy). rewrite firstn_cons, zeros_cons.
    pose proof (zeros_nonneg (take k (drop (S (Z.to_nat i0)) raw))) as Hz.
    pose proof (sample_step_outcome cf ic ix0 raw i0 cz s yy Hyy Hcz Hm Hc) as Hstep.
    cbv zeta in Hstep. rewrite for_loop_S, bind_eq.
    set (cz' := (if yy =? 0 then 1 else 0) + cz) in *.
    assert (Hcz' : 0 <= cz') by (unfold cz'; destruct (yy =? 0); lia).
    destruct (Z.leb_spec cz' 60) as [Hle|Hgt].
    + destruct Hstep as (s1 & -> & Hel & Heo).
      specialize (IH (i0 + 1) cz' s1).
      replace (Z.to_nat (i0 + 1)) with (S (Z.to_nat i0)) in IH by lia.
      cbv zeta in IH.
      replace (cz + ((if yy =? 0 then 1 else 0) + count_zeros (take k (drop (S (Z.to_nat i0)) raw))))
        with (cz' + count_zeros (take k (drop (S (Z.to_nat i0)) raw))) by (unfold cz'; lia).
      destruct (Z.leb_spec (cz' + count_zeros (take k (drop (S (Z.to_nat i0)) raw))) 60).
      * destruct IH as (s' & Hrun & Hel' & Heo');
          [lia|lia|lia|now rewrite Hel|now rewrite Heo|].
        exists s'. split; [exact Hrun|]. split; congruence.
      * apply IH; [lia|lia|lia|now rewrite Hel|now rewrite Heo].
    + destruct Hstep as (s1 & ->).
      rewrite (proj2 (Z.leb_gt _ 60)) by (unfold cz' in *; lia).
      now exists s1.
Qed.

(** One channel: the handler goes on when at most 60 of its samples are
    zero, and ends the process otherwise. *)
Lemma channel_step_outcome cf maxPoints ic (s : device) :
  0 <= ic ->
  (Z.to_nat FRAME_SAMPLES <= length (raw_samples cf ic))%nat ->
  is_Some (eslo s !! Z.to_nat ic) -> is_Some (eoff s !! Z.to_nat ic) ->
  if zeros_in cf ic <=? 60
  then exists s', channel_step cf maxPoints ic s = Ok tt s' /\
                  eslo s' = eslo s /\ eoff s' = eoff s
  else exists s', channel_step cf maxPoints ic s = Exited 1 s'.
Proof.
  intros Hic Hlen Hm Hc. unfold channel_step. cbv zeta. rewrite bind_eq.
  pose proof (sample_loop_outcome cf ic (int_mul ic maxPoints) (raw_samples cf ic)
                (Z.to_nat FRAME_SAMPLES) 0 0 s ltac:(lia) ltac:(lia)) as Hloop.
  cbv zeta in Hloop. change (Z.to_nat 0) with 0%nat in Hloop.
  rewrite drop_0, Z.add_0_l in Hloop. fold (zeros_in cf ic) in Hloop.
  specialize (Hloop ltac:(simpl; lia) Hm Hc).
  unfold raw_samples in Hloop.
  destruct (zeros_in cf ic <=? 60).
  - destruct Hloop as (s' & -> & Hel & Heo). mrun. now exists s'.
  - destruct Hloop as (s' & ->). now exists s'.
Qed.

(** The loop over the channels, from channel [i0] on. *)
Lemma channel_loop_outcome cf maxPoints k :
  forall i0 (s : device),
    0 <= i0 ->
    (forall ic, i0 <= ic < i0 + Z.of_nat k ->
       (Z.to_nat FRAME_SAMPLES <= length (raw_samples cf ic))%nat) ->
    (Z.to_nat i0 + k <= length (eslo s))%nat ->
    (Z.to_nat i0 + k <= length (eoff s))%nat ->
    ((forall ic, i0 <= ic < i0 + Z.of_nat k -> zeros_in cf ic <= 60) /\
     exists s', for_loop k i0 (fun ic _ => channel_step cf maxPoints ic) tt s = Ok tt s' /\
                eslo s' = eslo s /\ eoff s' = eoff s) \/
    ((exists ic, i0 <= ic < i0 + Z.of_nat k /\ 60 < zeros_in cf ic) /\
     exists s', for_loop k i0 (fun ic _ => channel_step cf maxPoints ic) tt s = Exited 1 s').
Proof.
  induction k as [|k IH]; intros i0 s Hi0 Hfull Hel Heo.
  - left. split; [intros ic Hic; lia|]. exists s. split; [reflexivity|]. split; reflexivity.
  - pose proof (channel_step_outcome cf maxPoints i0 s Hi0) as Hstep.
    assert (Hm : is_Some (eslo s !! Z.to_nat i0)) by (apply lookup_lt_is_Some_2; lia).
    assert (Hc : is_Some (eoff s !! Z.to_nat i0)) by (apply lookup_lt_is_Some_2; lia).
    specialize (Hstep ltac:(apply Hfull; lia) Hm Hc).
    rewrite for_loop_S, bind_eq.
    destruct (Z.leb_spec (zeros_in cf i0) 60) as [Hle|Hgt].
    + destruct Hstep as (s1 & -> & Hel1 & Heo1).
      destruct (IH (i0 + 1) s1) as [(Hall & s' & Hrun & Hel' & Heo')|((ic & Hic & Hbad) & s' & Hrun)].
      * lia.
      * intros ic Hic. apply Hfull. lia.
      * rewrite Hel1. lia.
      * rewrite Heo1. lia.
      * left. split.
        -- intros ic Hic. destruct (Z.eq_dec ic i0) as [->|Hne]; [exact Hle|].
           apply Hall. lia.
        -- exists s'. split; [exact Hrun|]. split; congruence.
      * right. split; [exists ic; split; [lia|exact Hbad]|]. now exists s'.
    + destruct Hstep as (s1 & ->). right. split.
      * exists i0. split; [lia|exact Hgt].
      * now exists s1.
Qed.

(** The conversion of a frame returns when no channel holds more than
    60 zeros, and ends the process when one does. *)
Lemma convert_frame_outcome cf maxPoints (s : device) :
  full_frame (nchan s) cf ->
  (Z.to_nat (nchan s) <= length (eslo s))%nat ->
  (Z.to_nat (nchan s) <= length (eoff s))%nat ->
  ((forall ic, 0 <= ic < nchan s -> zeros_in cf ic <= 60) /\
   exists s', convert_frame cf maxPoints s = Ok tt s') \/
  ((exists ic, 0 <= ic < nchan s /\ 60 < zeros_in cf ic) /\
   exists s', convert_frame cf maxPoints s = Exited 1 s').
Proof.
  intros Hfull Hel Heo. unfold convert_frame. rewrite bind_eq, run_gets. cbv beta iota.
  destruct (channel_loop_outcome cf maxPoints (Z.to_nat (nchan s)) 0 s)
    as [(Hall & s' & Hrun & _)|((ic & Hic & Hbad) & s' & Hrun)].
  - lia.
  - intros ic Hic. apply Hfull. lia.
  - simpl. lia.
  - simpl. lia.
  - left. split; [intros ic Hic; apply Hall; lia|]. now exists s'.
  - right. split; [exists ic; split; [lia|exact Hbad]|]. now exists s'.
Qed.

Lemma onFrame_outcome cf maxPoints scan_freq n (s : device) :
  ready maxPoints scan_freq n s -> scan_freq <> 0 -> INT_MIN < NSPS ->
  full_frame n cf ->
  ((forall ic, 0 <= ic < n -> zeros_in cf ic <= 60) /\
   exists s', onFrame cf s = Ok tt s') \/
  ((exists ic, 0 <= ic < n /\ 60 < zeros_in cf ic) /\
   exists s', onFrame cf s = Exited 1 s').
Proof.
  intros (Hmp & Hsf & <- & Hel & Heo) Hne Hnsps Hfull.
  destruct (convert_frame_outcome cf maxPoints s Hfull Hel Heo)
    as [(Hall & s1 & Hconv)|(Hbad & s1 & Hconv)].
  - left. split; [exact Hall|].
    exact (proj2 (proj2 (onFrame_after_convert _ s s1 maxPoints scan_freq
                           Hmp Hsf Hconv Hnsps) Hne)).
  - right. split; [exact Hbad|]. exists s1.
    unfold onFrame, get_maxPoints. rewrite bind_eq. unfold load_int.
    rewrite Hmp. cbv beta iota. now rewrite bind_eq, Hconv.
Qed.

(** A driver set up for streaming processes a frame to the end exactly
    when no channel of the frame holds more than 60 zeros among its
    FRAME_SAMPLES samples, wherever they stand in the channel; when some
    channel holds more, the handler ends the process with status 1. *)
Theorem onFrame_faults_on_zero_count
    cf maxPoints scan_freq n (s : device) :
  ready maxPoints scan_freq n s -> scan_freq <> 0 -> INT_MIN < NSPS ->
  full_frame n cf ->
  ((exists s', onFrame cf s = Ok tt s') <->
   (forall ic, 0 <= ic < n -> zeros_in cf ic <= 60)) /\
  ((exists s', onFrame cf s = Exited 1 s') <->
   (exists ic, 0 <= ic < n /\ 60 < zeros_in cf ic)).
Proof.
  intros Hready Hne Hnsps Hfull.
  destruct (onFrame_outcome cf maxPoints scan_freq n s Hready Hne Hnsps Hfull)
    as [(Hall & s' & Hrun)|((ic & Hic & Hbad) & s' & Hrun)].
  - split.
    + split; [intros _; exact Hall|intros _; now exists s'].
    + split.
      * intros (s'' & Hex). congruence.
      * intros (ic & Hic & Hbad). specialize (Hall ic Hic). lia.
  - split.
    + split.
      * intros (s'' & Hex). congruence.
      * intros Hall. specialize (Hall ic Hic). lia.
    + split; [intros _; now exists ic|intros _; now exists s'].
Qed.

(** The count of zeros starts again with every frame: frames handed to
    the handler one after the other are all processed to the end exactly
    when no channel of any one frame holds more than 60 zeros, so zeros
    that run on from one frame into the next are counted frame by
    frame. *)
Theorem zero_count_is_per_frame
    (frames : list Frame) maxPoints scan_freq n (s : device) :
  ready maxPoints scan_freq n s -> scan_freq <> 0 -> INT_MIN < NSPS ->
  Forall (full_frame n) frames ->
  (exists s', perform_all (map CallOnFrame frames) s = Ok tt s') <->
  Forall (fun cf => forall ic, 0 <= ic < n -> zeros_in cf ic <= 60) frames.
Proof.
  intros Hready Hne Hnsps Hfull. revert s Hready.
  induction Hfull as [|cf frames Hcf Hfull IH]; intros s Hready.
  - split; [intros _; constructor|intros _; now exists s].
  - change (perform_all (map CallOnFrame (cf :: frames)) s)
      with ((onFrame cf;; perform_all (map CallOnFrame frames)) s).
    rewrite bind_eq.
    destruct (onFrame_outcome cf maxPoints scan_freq n s Hready Hne Hnsps Hcf)
      as [(Hall & s1 & Hrun)|((ic & Hic & Hbad) & s1 & Hrun)].
    + assert (Hready1 : ready maxPoints scan_freq n s1).
      { apply (ready_onFrame cf _ _ _ s); [exact Hready|now rewrite Hrun]. }
      rewrite Hrun. specialize (IH s1 Hready1). split.
      * intros Hex. constructor; [exact Hall|now apply IH].
      * intros Hforall. apply IH. now inversion Hforall.
    + rewrite Hrun. split.
      * intros (s' & Hex). discriminate.
      * intros Hforall. inversion Hforall as [|? ? Hhead _]; subst.
        specialize (Hhead ic Hic). lia.
Qed.

(** ** The scalars *)

Lemma param_callbacks_app (new old : list event) :
  param_callbacks (new ++ old) = param_callbacks old ++ param_callbacks new.
Proof. unfold param_callbacks. now rewrite rev_app_distr, omap_app. Qed.

Lemma param_callbacks_none (new : list event) :
  Forall (fun e => match e with EvParamCallbacks _ => False | _ => True end) new ->
  param_callbacks new = [].
Proof.
  induction 1 as [|e new He _ IH]; [reflexivity|].
  change (e :: new) with ([e] ++ new). rewrite param_callbacks_app, IH.
  destruct e; try reflexivity. contradiction.
Qed.

Lemma param_callbacks_lists (lists : list Z) :
  param_callbacks (rev (map EvParamCallbacks lists)) = lists.
Proof.
  unfold param_callbacks. rewrite rev_involutive.
  induction lists as [|l lists IH]; [reflexivity|]. simpl. f_equal. exact IH.
Qed.

(** The loop of the flush over the channels, from channel [i0] on. *)
Lemma flush_loop_exact k :
  forall i0 (s : device),
    0 <= i0 -> ((0 < k)%nat -> i0 + Z.of_nat k <= nchan s) ->
    exists s',
      for_loop k i0
        (fun ic _ =>
           a ← gets acc;
           _ ← setDoubleParam ic P_Scalar (acc_get ic a);
           _ ← callParamCallbacks ic;
           mret tt) tt s = Ok tt s' /\
      acc s' = acc s /\ nchan s' = nchan s /\ cursor s' = cursor s /\
      trace s' = rev (map EvParamCallbacks (seqZ i0 (Z.of_nat k))) ++ trace s /\
      (forall ic, i0 <= ic < i0 + Z.of_nat k ->
         params s' !! (ic, P_Scalar) = Some (PDouble (acc_get ic (acc s)))) /\
      (forall key, ~ (key.2 = P_Scalar /\ i0 <= key.1 < i0 + Z.of_nat k) ->
         params s' !! key = params s !! key).
Proof.
  induction k as [|k IH]; intros i0 s Hi0 Hn.
  - exists s. split; [reflexivity|]. repeat split; try reflexivity. intros ic Hic. lia.
  - specialize (Hn ltac:(lia)).
    assert (Hvalid : valid_list s i0 = true).
    { unfold valid_list. apply andb_true_iff. split; [apply Z.leb_le|apply Z.ltb_lt]; lia. }
    rewrite for_loop_S, bind_eq. mrun.
    rewrite (run_setDoubleParam i0 P_Scalar _ s Hvalid) by reflexivity. mrun.
    match goal with
    | |- context [for_loop k (i0 + 1) _ tt ?s1] =>
        destruct (IH (i0 + 1) s1) as (s' & Hrun & Hacc & Hnc & Hcur & Htr & Hin & Hout);
          [lia|simpl; lia|]
    end.
    exists s'. split; [exact Hrun|]. cbn in Hacc, Hnc, Hcur, Htr.
    split; [exact Hacc|]. split; [exact Hnc|]. split; [exact Hcur|]. split.
    + rewrite Htr, (seqZ_cons i0) by lia. cbn [map rev].
      replace (Z.pred (Z.of_nat (S k))) with (Z.of_nat k) by lia.
      replace (Z.succ i0) with (i0 + 1) by lia.
      now rewrite <- app_assoc.
    + split.
      * intros ic Hic. destruct (Z.eq_dec ic i0) as [->|Hne].
        -- rewrite Hout by (simpl; lia). simpl. now rewrite lookup_insert_eq.
        -- rewrite Hin by lia. reflexivity.
      * intros key Hkey. rewrite Hout by lia. simpl.
        apply lookup_insert_ne. intros <-. apply Hkey. simpl. lia.
Qed.

(** What the flush leaves behind. *)
Lemma flush_outcome period (s : device) :
  exists s',
    flush period s = Ok tt s' /\
    nchan s' = nchan s /\ cursor s' = cursor s /\
    if fst (acc_update_timestamp period (acc s))
    then acc s' = acc_clear (snd (acc_update_timestamp period (acc s))) /\
         trace s' = rev (map EvParamCallbacks (seqZ 0 (nchan s))) ++ trace s /\
         (forall ic, 0 <= ic < nchan s ->
            params s' !! (ic, P_Scalar)
            = Some (PDouble (acc_get ic (snd (acc_update_timestamp period (acc s)))))) /\
         (forall key, key.2 <> P_Scalar -> params s' !! key = params s !! key)
    else s' = with_acc (snd (acc_update_timestamp period (acc s))) s.
Proof.
  unfold flush. mrun.
  destruct (acc_update_timestamp period (acc s)) as [[|] a] eqn:Hr; cbn [fst snd].
  - mrun.
    destruct (flush_loop_exact (Z.to_nat (nchan (with_acc a s))) 0 (with_acc a s))
      as (s' & Hrun & Hacc & Hnc & Hcur & Htr & Hin & Hout); [lia|simpl; lia|].
    rewrite Hrun. mrun.
    eexists. split; [reflexivity|]. cbn in Hacc, Hnc, Hcur, Htr, Hin, Hout |- *.
    split; [exact Hnc|]. split; [exact Hcur|]. split; [now rewrite Hacc|]. split.
    + rewrite Htr. destruct (Z.le_gt_cases 0 (nchan s)) as [Hn|Hn].
      * now rewrite Z2Nat.id.
      * replace (Z.to_nat (nchan s)) with 0%nat by lia.
        now rewrite (seqZ_nil _ (nchan s)) by lia.
    + split.
      * intros ic Hic. rewrite Hin by lia. reflexivity.
      * intros key Hkey. apply Hout. tauto.
  - mrun. eexists. split; [reflexivity|]. now repeat split.
Qed.

Lemma convert_frame_keeps_params cf maxPoints :
  rel (keeps params) (convert_frame cf maxPoints).
Proof. unfold convert_frame, channel_step, sample_step, store. rel_steps; reflexivity. Qed.

Lemma is_store_no_callback (new : list event) :
  Forall is_store new ->
  Forall (fun e => match e with EvParamCallbacks _ => False | _ => True end) new.
Proof. intros Hst. eapply Forall_impl; [exact Hst|]. now intros []. Qed.

(** The parameter callbacks of the publication. *)
Lemma param_callbacks_waveforms (d : gmap Z float) maxPoints (ics : list Z) :
  param_callbacks (rev (map (waveform_event d maxPoints) ics)) = [].
Proof.
  unfold param_callbacks. rewrite rev_involutive.
  induction ics as [|ic ics IH]; [reflexivity|exact IH].
Qed.

(** A frame that is processed to the end publishes the scalars only
    when the accumulator reports that the period NSPS / scan_freq has
    elapsed: then every channel's scalar becomes that channel's
    accumulated value, its parameter callbacks run channel after channel,
    and the accumulator is cleared; otherwise the scalars stay as they
    were.  The callback of address list 0 follows when the waveform is
    full. *)
Theorem scalars_follow_accumulator cf (s s' : device) maxPoints scan_freq :
  getIntegerParam 0 P_MaxPoints s = Some maxPoints ->
  getIntegerParam 0 P_ScanFreq s = Some scan_freq ->
  onFrame cf s = Ok tt s' ->
  exists s1,
    convert_frame cf maxPoints s = Ok tt s1 /\
    let r := acc_update_timestamp (Z.quot NSPS scan_freq) (acc s1) in
    let full := if maxPoints <=? int_add (cursor s) FRAME_SAMPLES then [0] else [] in
    if fst r
    then (forall ic, 0 <= ic < nchan s ->
            getDoubleParam ic P_Scalar s' = Some (acc_get ic (snd r))) /\
         acc s' = acc_clear (snd r) /\
         param_callbacks (trace s')
         = param_callbacks (trace s) ++ seqZ 0 (nchan s) ++ full
    else (forall list, getDoubleParam list P_Scalar s' = getDoubleParam list P_Scalar s) /\
         acc s' = snd r /\
         param_callbacks (trace s') = param_callbacks (trace s) ++ full.
Proof.
  intros Hmp Hsf Hrun.
  apply onFrame_Ok_inv in Hrun
    as (mp & sf & period & s1 & s3 & Hmp' & Hconv & Hsf' & Hdiv & Hflush & Hpub).
  assert (mp = maxPoints) as -> by congruence.
  assert (Hs1 : state_of (convert_frame cf maxPoints s) = Some s1) by now rewrite Hconv.
  pose proof (convert_frame_keeps cursor cf maxPoints blind_field_cursor _ _ Hs1) as Hc1.
  pose proof (convert_frame_keeps nchan cf maxPoints blind_field_nchan _ _ Hs1) as Hn1.
  pose proof (convert_frame_keeps_params cf maxPoints _ _ Hs1) as Hp1.
  pose proof (convert_frame_faults cf maxPoints s) as Hnew.
  rewrite Hconv in Hnew. destruct Hnew as (new1 & Ht1 & Hst1).
  apply is_store_no_callback, param_callbacks_none in Hst1.
  unfold keeps in *.
  assert (sf = scan_freq) as ->.
  { unfold getIntegerParam in *. rewrite Hp1 in Hsf'. congruence. }
  assert (period = Z.quot NSPS scan_freq) as ->.
  { unfold c_div in Hdiv. destruct (scan_freq =? 0); [discriminate|].
    destruct ((NSPS =? INT_MIN) && (scan_freq =? -1)); [discriminate|]. congruence. }
  exists s1. split; [exact Hconv|]. cbv zeta.
  destruct (flush_outcome (Z.quot NSPS scan_freq)
              (with_cursor (int_add (cursor s1) FRAME_SAMPLES) s1))
    as (s3' & Hflush' & Hn3 & Hc3 & Hout).
  assert (s3' = s3) as -> by congruence. clear Hflush'.
  cbn [acc nchan cursor trace params with_cursor] in Hn3, Hc3, Hout.
  assert (Hpublish :
            acc s' = acc s3 /\
            (forall list, params s' !! (list, P_Scalar) = params s3 !! (list, P_Scalar)) /\
            param_callbacks (trace s')
            = param_callbacks (trace s3)
              ++ (if maxPoints <=? int_add (cursor s) FRAME_SAMPLES then [0] else [])).
  { rewrite <- Hc1, <- Hc3.
    destruct (Z.leb_spec maxPoints (cursor s3)) as [Hfull|Hnot].
    - rewrite publish_exact in Hpub by exact Hfull. injection Hpub as <-.
      cbn [acc params trace with_cursor with_trace with_params].
      split; [reflexivity|]. split.
      + intros list. now rewrite lookup_insert_ne.
      + rewrite param_callbacks_app, param_callbacks_waveforms, app_nil_r.
        change (EvParamCallbacks 0 :: trace s3) with ([EvParamCallbacks 0] ++ trace s3).
        now rewrite param_callbacks_app.
    - unfold publish in Hpub. revert Hpub. mrun.
      apply Z.leb_gt in Hnot. rewrite Hnot. intros [= <-].
      split; [reflexivity|]. split; [reflexivity|]. now rewrite app_nil_r. }
  destruct Hpublish as (Ha & Hp & Hcb).
  destruct (fst (acc_update_timestamp (Z.quot NSPS scan_freq) (acc s1))).
  - destruct Hout as (Hacc & Htr & Hin & Hother). split.
    + intros ic Hic. unfold getDoubleParam. rewrite Hp, Hin by lia. reflexivity.
    + split; [congruence|]. rewrite Hcb, Htr, param_callbacks_app, Ht1,
        param_callbacks_app, Hst1, app_nil_r, param_callbacks_lists, Hn1.
      now rewrite <- app_assoc.
  - subst s3. cbn [acc params trace with_acc with_cursor] in Ha, Hp, Hcb. split.
    + intros list. unfold getDoubleParam. now rewrite Hp, Hp1.
    + split; [exact Ha|]. rewrite Hcb, Ht1, param_callbacks_app, Hst1.
      now rewrite app_nil_r.
Qed.

(** ** A driver fresh from the constructor *)

Lemma set_param_accepted ty list index v (s : device) :
  valid_list s list = true -> param_type index = Some ty ->
  set_param ty list index v s
  = (asynSuccess, with_params (<[(list, index) := v]> (params s)) s).
Proof.
  intros Hl Hi. unfold set_param. rewrite Hl, Hi. simpl.
  now destruct ty.
Qed.

(** The parameters the constructor gives a value. *)
Lemma Acq164Device_params (maxArraySize _nchan : Z) :
  params (Acq164Device maxArraySize _nchan)
  = <[(0, P_MeanValue) := PDouble 0%float]>
      (<[(0, P_MaxValue) := PDouble 0x1.a666666666666p+1%float]>
         (<[(0, P_MinValue) := PDouble 0%float]>
            (<[(0, P_NoiseAmplitude) := PDouble 0x1.999999999999ap-4%float]>
               (<[(0, P_UpdateTime) := PDouble 0.5%float]>
                  (<[(0, P_Run) := PInt 0]>
                     (<[(0, P_MaxPoints) :=
                          PInt (if maxArraySize <? 1 then 100 else maxArraySize)]> ∅)))))).
Proof.
  unfold Acq164Device, init_params. cbv zeta.
  repeat (rewrite set_param_accepted by (apply valid_list_0 || reflexivity); cbn [snd]).
  reflexivity.
Qed.

(** The constructor registers the scan frequency but gives it no value,
    so a driver fresh from the constructor holds maxPoints (100 when it
    was given less than 1), a run flag of 0, an update time of 0.5 and a
    cursor of 0, and no frame handed to it is processed to the end. *)
Theorem fresh_driver_has_no_scan_freq (maxArraySize _nchan : Z) :
  let s := Acq164Device maxArraySize _nchan in
  getIntegerParam 0 P_MaxPoints s
  = Some (if maxArraySize <? 1 then 100 else maxArraySize) /\
  getIntegerParam 0 P_Run s = Some 0 /\
  getDoubleParam 0 P_UpdateTime s = Some 0.5%float /\
  cursor s = 0 /\
  param_type P_ScanFreq = Some asynParamInt32 /\
  getIntegerParam 0 P_ScanFreq s = None /\
  forall cf s', onFrame cf s <> Ok tt s'.
Proof.
  intros s.
  assert (Hsf : getIntegerParam 0 P_ScanFreq s = None).
  { unfold getIntegerParam, s. rewrite Acq164Device_params.
    rewrite !lookup_insert_ne by discriminate. now rewrite lookup_empty. }
  split; [|split; [|split; [|split; [|split; [|split]]]]].
  - unfold getIntegerParam, s. rewrite Acq164Device_params.
    rewrite !lookup_insert_ne by discriminate. now rewrite lookup_insert_eq.
  - unfold getIntegerParam, s. rewrite Acq164Device_params.
    rewrite !lookup_insert_ne by discriminate. now rewrite lookup_insert_eq.
  - unfold getDoubleParam, s. rewrite Acq164Device_params.
    rewrite !lookup_insert_ne by discriminate. now rewrite lookup_insert_eq.
  - unfold s, Acq164Device, init_params. cbv zeta.
    repeat (rewrite set_param_accepted by (apply valid_list_0 || reflexivity); cbn [snd]).
    reflexivity.
  - reflexivity.
  - exact Hsf.
  - intros cf s' Hrun.
    apply onFrame_Ok_inv in Hrun
      as (mp & sf & period & s1 & s3 & _ & Hconv & Hsf' & _).
    assert (Hs1 : state_of (convert_frame cf mp s) = Some s1) by now rewrite Hconv.
    pose proof (convert_frame_keeps_params cf mp _ _ Hs1) as Hp1.
    unfold keeps, getIntegerParam in *. rewrite Hp1 in Hsf'. congruence.
Qed.

(** What a write of maxPoints leaves behind. *)
Lemma writeInt32_maxPoints value (s : device) :
  exists s',
    writeInt32 P_MaxPoints value s = Ok (callbacks_status 0) s' /\
    getIntegerParam 0 P_MaxPoints s' = Some value /\
    pTimeBase_ s' = pTimeBase_ s.
Proof.
  unfold writeInt32. mrun.
  rewrite run_setIntegerParam by (apply valid_list_0 || reflexivity). mrun.
  replace (P_MaxPoints =? P_Run) with false by reflexivity. mrun.
  unfold report; destruct (callbacks_status 0); mrun;
    (eexists; split; [reflexivity|]);
    (split; [apply getIntegerParam_insert_eq|reflexivity]).
Qed.

(** Clients can write maxPoints, and the read of the time base trusts
    the value: once a client has written a value above the size the
    arrays were allocated with, or a negative one, a read that asks for
    more elements than were allocated copies from beyond the end of the
    time base. *)
Theorem written_maxPoints_overruns_time_base
    (maxArraySize _nchan value nElements : Z) (buffer : list float) :
  1 <= maxArraySize <= INT_MAX ->
  INT_MIN <= value <= INT_MAX ->
  value < 0 \/ maxArraySize < value ->
  maxArraySize < nElements ->
  exists s',
    writeInt32 P_MaxPoints value (Acq164Device maxArraySize _nchan)
    = Ok (callbacks_status 0) s' /\
    getIntegerParam 0 P_MaxPoints s' = Some value /\
    length (pTimeBase_ s') = Z.to_nat maxArraySize /\
    readFloat64Array P_TimeBase buffer nElements s' = Undefined.
Proof.
  intros Hsize Hint Hvalue Hn.
  destruct (writeInt32_maxPoints value (Acq164Device maxArraySize _nchan))
    as (s' & Hrun & Hmp & Htb).
  pose proof (proj1 (Acq164Device_time_base maxArraySize _nchan)) as Hlen.
  cbv zeta in Hlen. rewrite (proj2 (Z.ltb_ge maxArraySize 1)) in Hlen by lia.
  exists s'. split; [exact Hrun|]. split; [exact Hmp|].
  split; [now rewrite Htb|].
  unfold readFloat64Array. mrun. rewrite (run_load_int _ _ _ Hmp). mrun.
  replace (P_TimeBase =? P_Waveform) with false by reflexivity.
  rewrite Z.eqb_refl. mrun. unfold memcpy. rewrite Htb.
  assert (Hcopy : maxArraySize
                  < (if nElements <? size_t_of_int value
                     then nElements else size_t_of_int value)).
  { destruct (nElements <? size_t_of_int value); [exact Hn|].
    unfold size_t_of_int. unfold INT_MIN, INT_MAX in *.
    destruct Hvalue as [Hneg|Hbig].
    - rewrite <- (Z.mod_add value 1 (2 ^ 64)) by lia.
      rewrite Z.mod_small by lia. lia.
    - rewrite Z.mod_small by lia. lia. }
  replace ((_ <=? Z.of_nat (length (pTimeBase_ (Acq164Device maxArraySize _nchan)))))
    with false; [reflexivity|].
  symmetry. apply Z.leb_gt. rewrite Hlen. lia.
Qed.

(** ** Calibration and setup, as [task] runs them *)

(** The loop of [compute_cal], from channel [i0] on. *)
Lemma compute_cal_loop (card : Acq2xx) k :
  forall i0 (cal : list float * list float) (s : device),
    0 <= i0 ->
    for_loop k i0
      (fun ii (cal : list float * list float) =>
         r ← of_option (card_ranges card !! Z.to_nat (ii + 1));
         let Y1 := vmin r in
         let Y2 := vmax r in
         mret (fst cal ++ [cal_ESLO Y1 Y2], snd cal ++ [cal_EOFF Y1 Y2]))
      cal s
    = if (k =? 0)%nat || (Z.to_nat i0 + k <? length (card_ranges card))%nat
      then
        let rs := take k (drop (S (Z.to_nat i0)) (card_ranges card)) in
        Ok (fst cal ++ map (fun r => cal_ESLO (vmin r) (vmax r)) rs,
            snd cal ++ map (fun r => cal_EOFF (vmin r) (vmax r)) rs) s
      else Undefined.
Proof.
  induction k as [|k IH]; intros i0 cal s Hi0.
  - simpl. rewrite !app_nil_r. now destruct cal.
  - rewrite for_loop_S, bind_eq. mrun.
    replace (Z.to_nat (i0 + 1)) with (S (Z.to_nat i0)) by lia.
    change ((S k =? 0)%nat) with false. rewrite orb_false_l.
    destruct (card_ranges card !! S (Z.to_nat i0)) as [r|] eqn:Hr.
    + mrun. rewrite IH by lia.
      replace (Z.to_nat (i0 + 1)) with (S (Z.to_nat i0)) by lia.
      apply lookup_lt_Some in Hr as Hlt.
      destruct (Nat.ltb_spec (Z.to_nat i0 + S k) (length (card_ranges card))) as [Hin|Hout].
      * replace ((k =? 0)%nat || (S (Z.to_nat i0) + k <? length (card_ranges card))%nat)
          with true.
        2:{ symmetry. apply orb_true_iff. right. apply Nat.ltb_lt. lia. }
        cbv zeta. rewrite (drop_S _ _ _ Hr). rewrite firstn_cons. cbn [fst snd map].
        now rewrite <- !app_assoc.
      * replace ((k =? 0)%nat || (S (Z.to_nat i0) + k <? length (card_ranges card))%nat)
          with false; [reflexivity|].
        symmetry. apply orb_false_iff. split.
        -- apply Nat.eqb_neq. lia.
        -- apply Nat.ltb_ge. lia.
    + mrun. apply lookup_ge_None in Hr.
      replace (Z.to_nat i0 + S k <? length (card_ranges card))%nat with false;
        [reflexivity|].
      symmetry. apply Nat.ltb_ge. lia.
Qed.

(** For a driver of [nchan >= 0] channels [compute_cal] has a defined
    result exactly when the card reported a range for every channel
    (entries 1 to nchan of the array; entry 0 is never read).  It then
    replaces the calibration by one scale and one offset per channel, in
    channel order, and leaves the channel count, both buffers, the
    parameters, the accumulator and the cursor as they were. *)
Theorem compute_cal_needs_every_range (card : Acq2xx) (s : device) :
  0 <= nchan s ->
  let rs := take (Z.to_nat (nchan s)) (drop 1 (card_ranges card)) in
  ((exists s', compute_cal card s = Ok tt s') <->
   nchan s = 0 \/ nchan s < Z.of_nat (length (card_ranges card))) /\
  (compute_cal card s = Undefined <->
   ~ (nchan s = 0 \/ nchan s < Z.of_nat (length (card_ranges card)))) /\
  forall s',
    compute_cal card s = Ok tt s' ->
    eslo s' = map (fun r => cal_ESLO (vmin r) (vmax r)) rs /\
    eoff s' = map (fun r => cal_EOFF (vmin r) (vmax r)) rs /\
    nchan s' = nchan s /\ pData_ s' = pData_ s /\ pTimeBase_ s' = pTimeBase_ s /\
    params s' = params s /\ acc s' = acc s /\ cursor s' = cursor s.
Proof.
  intros Hn rs.
  assert (Hrun : compute_cal card s
                 = if (nchan s <=? 0) || (nchan s <? Z.of_nat (length (card_ranges card)))
                   then Ok tt (with_cal (map (fun r => cal_ESLO (vmin r) (vmax r)) rs)
                                        (map (fun r => cal_EOFF (vmin r) (vmax r)) rs) s)
                   else Undefined).
  { unfold compute_cal. mrun. rewrite compute_cal_loop by lia.
    change (Z.to_nat 0) with 0%nat. rewrite Nat.add_0_l.
    replace ((Z.to_nat (nchan s) =? 0)%nat
             || (Z.to_nat (nchan s) <? length (card_ranges card))%nat)
      with ((nchan s <=? 0) || (nchan s <? Z.of_nat (length (card_ranges card)))).
    - destruct ((nchan s <=? 0) || (nchan s <? Z.of_nat (length (card_ranges card))));
        reflexivity.
    - destruct (Z.leb_spec (nchan s) 0) as [Hle|Hgt].
      + replace (Z.to_nat (nchan s)) with 0%nat by lia. reflexivity.
      + replace ((Z.to_nat (nchan s) =? 0)%nat) with false
          by (symmetry; apply Nat.eqb_neq; lia).
        rewrite !orb_false_l.
        destruct (Z.ltb_spec (nchan s) (Z.of_nat (length (card_ranges card))));
          symmetry; [apply Nat.ltb_lt|apply Nat.ltb_ge]; lia. }
  rewrite Hrun. clear Hrun.
  destruct (Z.leb_spec (nchan s) 0) as [Hle|Hgt];
    destruct (Z.ltb_spec (nchan s) (Z.of_nat (length (card_ranges card)))) as [Hlt|Hge];
    cbn [orb].
  - split; [|split].
    + split; [intros _; left; lia|intros _; eexists; reflexivity].
    + split; [discriminate|intros Hno; exfalso; apply Hno; left; lia].
    + intros s' [= <-]. now repeat split.
  - split; [|split].
    + split; [intros _; left; lia|intros _; eexists; reflexivity].
    + split; [discriminate|intros Hno; exfalso; apply Hno; left; lia].
    + intros s' [= <-]. now repeat split.
  - split; [|split].
    + split; [intros _; right; lia|intros _; eexists; reflexivity].
    + split; [discriminate|intros Hno; exfalso; apply Hno; right; lia].
    + intros s' [= <-]. now repeat split.
  - split; [|split].
    + split; [intros (s' & Hs'); discriminate|intros [Hz|Hl]; lia].
    + split; [intros _ [Hz|Hl]; lia|reflexivity].
    + intros s' Hs'. discriminate.
Qed.

(** Once the calibration is computed, [task] goes two ways on a card
    that is idle or does not answer: when the state cannot be read it
    prints an error and ends the process with status 1 before any
    command is sent or any frame is read; when the card is idle it sends
    the channel mask, the role, the mode and the arm command, in this
    order, and only then registers the frame handler and starts
    streaming. *)
Theorem task_arms_idle_card
    (card : Acq2xx) (frames : list Frame) (s s1 : device) :
  compute_cal card s = Ok tt s1 ->
  (card_state card = None ->
   task card frames s
   = Exited 1 (with_trace (EvPrintf stderr "ERROR: failed to get state\n" [] :: trace s1) s1)) /\
  (card_state card = Some ST_STOP ->
   exists s2,
     setup card s1 = Ok tt s2 /\
     commands (trace s2)
     = commands (trace s1)
       ++ ["set.dtacq channel_mask 1"%string; "set.acq164.role MASTER 20"%string;
           "setMode SOFT_CONTINUOUS 1"%string; "setArm"%string] /\
     streaming_entered (trace s2) = streaming_entered (trace s1) /\
     task card frames s
     = streamData frames (with_trace (EvStreamData :: EvAddFrameHandler :: trace s2) s2)).
Proof.
  intros Hcal. split.
  - intros Hstate. unfold task. rewrite (bind_Ok _ _ _ _ _ Hcal).
    unfold setup. rewrite Hstate. mrun. reflexivity.
  - intros Hstate.
    assert (Hsetup : exists s2, setup card s1 = Ok tt s2 /\
              trace s2 = [EvAcqcmd "setArm"; EvAcqcmd "setMode SOFT_CONTINUOUS 1";
                          EvAcq2sh "set.acq164.role MASTER 20";
                          EvAcq2sh "set.dtacq channel_mask 1"] ++ trace s1).
    { unfold setup. rewrite Hstate. cbn [STATE_eqb negb]. mrun.
      eexists. split; reflexivity. }
    destruct Hsetup as (s2 & Hsetup & Htr). exists s2.
    split; [exact Hsetup|]. split; [|split].
    + rewrite Htr. unfold commands. rewrite rev_app_distr, omap_app. reflexivity.
    + rewrite Htr. reflexivity.
    + unfold task. rewrite (bind_Ok _ _ _ _ _ Hcal), (bind_Ok _ _ _ _ _ Hsetup).
      mrun. reflexivity.
Qed.


(** ** The calibration, from the card's ranges to the stored samples *)

End Properties.

(** * The version string *)

(** Read into a record whose buffer holds its [sizv] bytes, with [sizv]
    at least 1, the version string arrives cut to [sizv - 1] characters
    when it is longer, always with a terminating NUL, and [len] counts
    that NUL; the bytes of the buffer after it are left as they were. *)
Theorem read_string_truncates_and_terminates
    (acq164VERSION : list Byte.byte) (prec : devacq164Version.lsiRecord) :
  1 <= devacq164Version.sizv prec < 2 ^ 16 ->
  devacq164Version.sizv prec <= Z.of_nat (length (devacq164Version.val prec)) ->
  let N := Z.min (Z.of_nat (length acq164VERSION) + 1) (devacq164Version.sizv prec) in
  devacq164Version.read_string acq164VERSION prec
  = Some (0, {| devacq164Version.val :=
                  take (Z.to_nat (N - 1)) acq164VERSION ++ [Byte.x00]
                  ++ drop (Z.to_nat N) (devacq164Version.val prec);
                devacq164Version.sizv := devacq164Version.sizv prec;
                devacq164Version.len := N |}).
Proof.
  intros Hsize Hbuf N.
  unfold devacq164Version.read_string, devacq164Version.version.
  rewrite length_app. cbn [length].
  assert (HN : (if devacq164Version.sizv prec <? Z.of_nat (length acq164VERSION + 1)
                then devacq164Version.sizv prec
                else Z.of_nat (length acq164VERSION + 1)) = N).
  { unfold N. destruct (Z.ltb_spec (devacq164Version.sizv prec)
                          (Z.of_nat (length acq164VERSION + 1))); lia. }
  cbv zeta. rewrite HN.
  assert (HN1 : 1 <= N <= Z.of_nat (length acq164VERSION) + 1) by (unfold N; lia).
  assert (HN2 : N <= devacq164Version.sizv prec) by (unfold N; lia).
  unfold devacq164Version.memcpy. rewrite length_app. cbn [length].
  replace ((N <=? Z.of_nat (length acq164VERSION + 1))
           && (N <=? Z.of_nat (length (devacq164Version.val prec)))) with true.
  2:{ symmetry. apply andb_true_iff. split; apply Z.leb_le; lia. }
  cbn [mbind option_bind]. rewrite Z.mod_small by lia.
  rewrite length_app, length_take, length_drop, length_app. cbn [length].
  replace (N - 1 <? _) with true by (symmetry; apply Z.ltb_lt; lia).
  do 3 f_equal.
  destruct (lookup_lt_is_Some_2 (acq164VERSION ++ [Byte.x00]) (Z.to_nat (N - 1)))
    as [b Hb]; [rewrite length_app; simpl; lia|].
  replace (Z.to_nat N) with (S (Z.to_nat (N - 1))) at 1 by lia.
  rewrite (take_S_r _ _ _ Hb), <- app_assoc.
  rewrite take_app_le by lia.
  replace (Z.to_nat (N - 1)) with (length (take (Z.to_nat (N - 1)) acq164VERSION) + 0)%nat
    at 1 by (rewrite length_take; lia).
  rewrite insert_app_r. reflexivity.
Qed.

(** [read_string] does not look at a size of 0: the terminating NUL is
    then written at index [N - 1] of an empty copy, outside the
    buffer. *)
Theorem read_string_needs_room
    (acq164VERSION : list Byte.byte) (prec : devacq164Version.lsiRecord) :
  devacq164Version.sizv prec = 0 ->
  Z.of_nat (length (devacq164Version.val prec)) < 2 ^ 64 ->
  devacq164Version.read_string acq164VERSION prec = None.
Proof.
  intros Hsize Hbuf.
  unfold devacq164Version.read_string, devacq164Version.version.
  rewrite length_app. cbn [length]. cbv zeta. rewrite Hsize.
  replace (0 <? Z.of_nat (length acq164VERSION + 1)) with true
    by (symmetry; apply Z.ltb_lt; lia).
  unfold devacq164Version.memcpy.
  replace ((0 <=? Z.of_nat (length (acq164VERSION ++ [Byte.x00])))
           && (0 <=? Z.of_nat (length (devacq164Version.val prec)))) with true.
  2:{ symmetry. apply andb_true_iff. split; apply Z.leb_le; lia. }
  cbn [mbind option_bind]. change (Z.to_nat 0) with 0%nat.
  rewrite take_0, drop_0. cbn [app].
  replace ((0 - 1) mod 2 ^ 64) with (2 ^ 64 - 1) by reflexivity.
  now replace (2 ^ 64 - 1 <? Z.of_nat (length (devacq164Version.val prec))) with false
    by (symmetry; apply Z.ltb_ge; lia).
Qed.


(** * Worked examples *)

(** C4 on two frames of 64 samples and waveforms of 128: the second
    frame publishes both channels and brings the cursor back to 0. *)
Lemma cursor_invariant_witness :
  0 <= cursor after_1_frame < 128 /\
  0 <= cursor after_2_frames < 128 /\
  exists new,
    trace after_2_frames = new ++ trace after_1_frame /\
    array_callbacks P_Waveform new = [0; 1] /\ cursor after_2_frames = 0.
Proof.
  destruct (@cursor_invariant spec_accumulator example_platform
              128 [frame_ones] (example_running 128) after_1_frame)
    as [H1 H2].
  - vm_compute. reflexivity.
  - lia.
  - simpl. lia.
  - simpl. unfold INT_MAX. lia.
  - vm_compute. reflexivity.
  - vm_compute. reflexivity.
  - split; [exact H1|].
    destruct (H2 frame_ones after_2_frames) as [H3 (new & Ht & Hpub)].
    + vm_compute. reflexivity.
    + split; [exact H3|]. exists new. split; [exact Ht|]. exact Hpub.
Defined.

(** C6 on an update time of 1/64 (raised to the floor, with a warning)
    and of 1/4 (stored as written). *)
Lemma writeFloat64_update_time_floor_witness :
  (exists s',
      @writeFloat64 spec_accumulator example_platform P_UpdateTime 0.015625%float
        (example_running 128) = Ok asynSuccess s' /\
      getDoubleParam 0 P_UpdateTime s' = Some (@MIN_UPDATE_TIME) /\
      exists new,
        trace s' = new ++ trace (example_running 128) /\
        In (update_time_warning 0.015625%float) new) /\
  (exists s',
      @writeFloat64 spec_accumulator example_platform P_UpdateTime 0.25%float
        (example_running 128) = Ok asynSuccess s' /\
      getDoubleParam 0 P_UpdateTime s' = Some 0.25%float /\
      exists new,
        trace s' = new ++ trace (example_running 128) /\
        Forall (fun e => ~ is_warning e) new).
Proof.
  destruct (@writeFloat64_update_time_floor spec_accumulator example_platform
              (example_running 128) 0.015625%float 0) as [Hlow _].
  { vm_compute. reflexivity. }
  { reflexivity. }
  destruct (@writeFloat64_update_time_floor spec_accumulator example_platform
              (example_running 128) 0.25%float 0) as [_ Hhigh].
  { vm_compute. reflexivity. }
  { reflexivity. }
  split.
  - apply Hlow. vm_compute. reflexivity.
  - apply Hhigh. vm_compute. reflexivity.
Defined.

(** C10 on a read of four elements. *)
Lemma readFloat64Array_serves_time_base_witness :
  @readFloat64Array spec_accumulator P_Waveform (replicate 4 PrimFloat.zero) 4
    (example_running 128) = Aborted (example_running 128) /\
  exists s',
    @readFloat64Array spec_accumulator P_TimeBase (replicate 4 PrimFloat.zero) 4
      (example_running 128)
    = Ok {| rd_status := asynSuccess;
            rd_value := take 4 (pTimeBase_ (example_running 128));
            rd_nIn := Some 4 |} s'.
Proof.
  destruct (@readFloat64Array_serves_time_base spec_accumulator
              (example_running 128) P_Waveform (replicate 4 PrimFloat.zero) 4 128)
    as (Hwave & _ & _).
  { vm_compute. reflexivity. }
  { lia. }
  destruct (@readFloat64Array_serves_time_base spec_accumulator
              (example_running 128) P_TimeBase (replicate 4 PrimFloat.zero) 4 128)
    as (_ & Htime & _).
  { vm_compute. reflexivity. }
  { lia. }
  split.
  - apply Hwave. reflexivity.
  - destruct Htime as (s' & Hrun & _).
    + reflexivity.
    + vm_compute. discriminate.
    + vm_compute. discriminate.
    + exists s'. exact Hrun.
Defined.

(** A driver of 128 points after writes, two frames of 64 samples and
    a read: every store landed within the 256 cells of the waveform
    buffer, and the time base still runs from 0 to 10. *)
Lemma time_base_computed_once_witness :
  pTimeBase_ after_fitting_calls = pTimeBase_ (@Acq164Device spec_accumulator 128 2) /\
  length (pTimeBase_ after_fitting_calls) = 128%nat /\
  pTimeBase_ after_fitting_calls !! 127%nat = Some 10%float /\
  pTimeBase_ after_fitting_calls !! 0%nat = Some 0%float.
Proof.
  assert (Hfit : Forall (in_allocation (@pData_cells 128 2))
                   (stores (trace after_fitting_calls))).
  { apply Forall_forall. intros w Hw. apply list_elem_of_In in Hw.
    assert (Hb : forallb (fun w => (0 <=? w.2) && (w.2 <? 256))
                   (stores (trace after_fitting_calls)) = true)
      by (vm_compute; reflexivity).
    rewrite forallb_forall in Hb. specialize (Hb w Hw).
    apply andb_true_iff in Hb. destruct Hb as [H0 H1].
    apply Z.leb_le in H0. apply Z.ltb_lt in H1.
    unfold in_allocation. change (@pData_cells 128 2) with 256. lia. }
  destruct (@time_base_computed_once spec_accumulator example_platform
              128 2 example_calls after_fitting_calls 127) as (_ & Hsame & Hlen & Hlast).
  { unfold INT_MAX. lia. }
  { vm_compute. reflexivity. }
  { exact Hfit. }
  { simpl. lia. }
  destruct (@time_base_computed_once spec_accumulator example_platform
              128 2 example_calls after_fitting_calls 0) as (_ & _ & _ & Hfirst).
  { unfold INT_MAX. lia. }
  { vm_compute. reflexivity. }
  { exact Hfit. }
  { simpl. lia. }
  split; [exact Hsame|]. split; [exact Hlen|]. split.
  - etransitivity; [exact Hlast|]. vm_compute. reflexivity.
  - etransitivity; [exact Hfirst|]. vm_compute. reflexivity.
Defined.

(** C9 with a scan frequency of 0 and of 100 (a period of 200 samples). *)
Lemma flush_period_unguarded_witness :
  xonFrame frame_ones example_unscanned = Undefined /\
  xonFrame frame_ones (example_running 128) <> Undefined /\
  xonFrame frame_ones (example_running 128)
  = (@flush spec_accumulator example_platform 200;;
     @publish spec_accumulator example_platform frame_ones 128)
      (with_cursor 64 (converted (example_running 128))).
Proof.
  destruct (@flush_period_unguarded spec_accumulator example_platform
              frame_ones example_unscanned (converted example_unscanned) 128 0)
    as [Hzero _].
  { vm_compute. reflexivity. }
  { vm_compute. reflexivity. }
  { vm_compute. reflexivity. }
  { vm_compute. reflexivity. }
  destruct (@flush_period_unguarded spec_accumulator example_platform
              frame_ones (example_running 128) (converted (example_running 128)) 128 100)
    as [Hiff Hscan].
  { vm_compute. reflexivity. }
  { vm_compute. reflexivity. }
  { vm_compute. reflexivity. }
  { vm_compute. reflexivity. }
  split; [|split].
  - apply Hzero. reflexivity.
  - intros Hundef. apply Hiff in Hundef. discriminate Hundef.
  - etransitivity; [apply Hscan; discriminate|]. vm_compute. reflexivity.
Defined.

(** C8 with frames of 64 samples: waveforms of 128 samples are safe,
    waveforms of 100 samples are not. *)
Lemma stores_in_segment_iff_divides_witness :
  (forall frames s',
      state_of (xstreamData frames (example_running 128)) = Some s' ->
      Forall (in_segment 128) (stores (trace s'))) /\
  ~ (forall frames s',
        state_of (xstreamData frames (example_running 100)) = Some s' ->
        Forall (in_segment 100) (stores (trace s'))).
Proof.
  destruct (@stores_in_segment_iff_divides spec_accumulator example_platform
              (example_running 128) 128 100) as [_ [_ Hsafe]].
  { vm_compute. reflexivity. }
  { vm_compute. reflexivity. }
  { vm_compute. lia. }
  { vm_compute. lia. }
  { discriminate. }
  { vm_compute. reflexivity. }
  { vm_compute. discriminate. }
  { lia. }
  { simpl. lia. }
  { vm_compute. discriminate. }
  { vm_compute. reflexivity. }
  { vm_compute. reflexivity. }
  destruct (@stores_in_segment_iff_divides spec_accumulator example_platform
              (example_running 100) 100 100) as [_ [Hdiv _]].
  { vm_compute. reflexivity. }
  { vm_compute. reflexivity. }
  { vm_compute. lia. }
  { vm_compute. lia. }
  { discriminate. }
  { vm_compute. reflexivity. }
  { vm_compute. discriminate. }
  { lia. }
  { simpl. lia. }
  { vm_compute. discriminate. }
  { vm_compute. reflexivity. }
  { vm_compute. reflexivity. }
  split.
  - apply Hsafe. exists 2. reflexivity.
  - intros Hall. apply Hdiv in Hall. destruct Hall as [q Hq]. simpl in Hq. lia.
Defined.

(** C3 on a frame whose channel 0 is stuck, followed by a good frame. *)
Lemma stuck_at_zero_halts_witness :
  xonFrame frame_stuck0 (example_running 128)
  = Exited 1 (final (xonFrame frame_stuck0 (example_running 128)) (example_running 128)) /\
  xstreamData [frame_stuck0; frame_ones] (example_running 128)
  = Exited 1 (final (xonFrame frame_stuck0 (example_running 128)) (example_running 128)) /\
  printed stdout
    (trace (final (xonFrame frame_stuck0 (example_running 128)) (example_running 128)))
  = [("%s zeros detected at %lld\n"%string, [ArgS "onFrame"; ArgI 4096])].
Proof.
  assert (Hrun : xonFrame frame_stuck0 (example_running 128)
                 = Exited 1 (final (xonFrame frame_stuck0 (example_running 128))
                               (example_running 128))).
  { vm_compute. reflexivity. }
  destruct (@stuck_at_zero_halts spec_accumulator example_platform
              frame_stuck0 [frame_ones] (example_running 128)
              (final (xonFrame frame_stuck0 (example_running 128)) (example_running 128))
              1 Hrun)
    as (_ & _ & _ & Hhalt).
  split; [exact Hrun|]. split; [exact Hhalt|]. vm_compute. reflexivity.
Defined.

(** C2 on a card that reports ST_RUN. *)
Lemma task_streams_when_card_not_idle_witness :
  xtask running_card [frame_ones] (example_device 128)
  = xstreamData [frame_ones]
      (with_trace (EvStreamData :: EvAddFrameHandler :: let_it_run ST_RUN :: trace calibrated)
         calibrated) /\
  commands (let_it_run ST_RUN :: trace calibrated) = commands (trace calibrated).
Proof.
  destruct (@task_streams_when_card_not_idle spec_accumulator example_platform
              running_card [frame_ones] (example_device 128) calibrated ST_RUN)
    as (_ & Hcmd & Htask).
  { reflexivity. }
  { discriminate. }
  { vm_compute. reflexivity. }
  split; [exact Htask|exact Hcmd].
Defined.


(** * Worked examples of the further properties *)

(** A client writes a scan frequency of 50 and reads it back. *)
Lemma writeInt32_round_trip_witness :
  exists s',
    @writeInt32 spec_accumulator example_platform P_ScanFreq 50 (example_running 128)
    = Ok asynSuccess s' /\
    getIntegerParam 0 P_ScanFreq s' = Some 50.
Proof.
  destruct (@writeInt32_round_trip spec_accumulator example_platform
              P_ScanFreq 50 (example_running 128)) as (s' & Hrun & Hget & _).
  { reflexivity. }
  exists s'. split; [exact Hrun|exact Hget].
Defined.

(** Setting the run flag wakes the task; clearing it does not. *)
Lemma writes_wake_task_witness :
  (exists s' new,
      @writeInt32 spec_accumulator example_platform P_Run 1 (example_running 128)
      = Ok asynSuccess s' /\
      trace s' = new ++ trace (example_running 128) /\ In EvEventSignal new) /\
  (exists s' new,
      @writeInt32 spec_accumulator example_platform P_Run 0 (example_running 128)
      = Ok asynSuccess s' /\
      trace s' = new ++ trace (example_running 128) /\ ~ In EvEventSignal new).
Proof.
  destruct (@writes_wake_task spec_accumulator example_platform
              P_Run (example_running 128) 0) as [Hint _].
  { vm_compute. reflexivity. }
  split.
  - destruct (Hint 1) as (s' & Hrun & new & Htr & Hiff).
    exists s', new. split; [exact Hrun|]. split; [exact Htr|].
    apply Hiff. split; [reflexivity|discriminate].
  - destruct (Hint 0) as (s' & Hrun & new & Htr & Hiff).
    exists s', new. split; [exact Hrun|]. split; [exact Htr|].
    intros Hin. apply Hiff in Hin. destruct Hin as [_ Hne]. now apply Hne.
Defined.

(** An int32 write to the update time, a double parameter, is refused by
    the parameter library and still reported as a success. *)
Lemma write_status_hides_refused_set_witness :
  exists s',
    @writeInt32 spec_accumulator example_platform P_UpdateTime 3 (example_running 128)
    = Ok asynSuccess s' /\
    params s' = params (example_running 128).
Proof.
  destruct (@write_status_hides_refused_set spec_accumulator example_platform
              P_UpdateTime (example_running 128)) as [Hint _].
  apply Hint. discriminate.
Defined.

(** A noise amplitude of 2^-10, far below the floor of the update time,
    is stored as written. *)
Lemma writeFloat64_other_parameter_witness :
  exists s',
    @writeFloat64 spec_accumulator example_platform P_NoiseAmplitude 0.0009765625%float
      (example_running 128) = Ok asynSuccess s' /\
    getDoubleParam 0 P_NoiseAmplitude s' = Some 0.0009765625%float.
Proof.
  destruct (@writeFloat64_other_parameter spec_accumulator example_platform
              P_NoiseAmplitude 0.0009765625%float (example_running 128))
    as (s' & Hrun & Hget & _).
  { reflexivity. }
  { discriminate. }
  exists s'. split; [exact Hrun|exact Hget].
Defined.

(** The second frame of 64 samples fills waveforms of 128 and leaves its
    start-sample number, 4096, as the update time; the first leaves the
    0.5 of the constructor. *)
Lemma frame_overwrites_update_time_witness :
  getDoubleParam 0 P_UpdateTime after_1_frame = Some 0.5%float /\
  getDoubleParam 0 P_UpdateTime after_2_frames = Some 4096%float.
Proof.
  split.
  - etransitivity.
    + apply (@frame_overwrites_update_time spec_accumulator example_platform
               frame_ones (example_running 128) after_1_frame 128).
      * vm_compute. reflexivity.
      * vm_compute. reflexivity.
    + vm_compute. reflexivity.
  - etransitivity.
    + apply (@frame_overwrites_update_time spec_accumulator example_platform
               frame_ones after_1_frame after_2_frames 128).
      * vm_compute. reflexivity.
      * vm_compute. reflexivity.
    + vm_compute. reflexivity.
Defined.

(** The second frame publishes the waveforms of both channels. *)
Lemma published_waveforms_are_segments_witness :
  exists new,
    trace after_2_frames
    = rev (map (waveform_event (pData_ after_2_frames) 128) (seqZ 0 2))
      ++ EvParamCallbacks 0 :: new ++ trace after_1_frame /\
    Forall quiet new.
Proof.
  destruct (@published_waveforms_are_segments spec_accumulator example_platform
              frame_ones after_1_frame after_2_frames 128) as [Hpub _].
  { vm_compute. reflexivity. }
  { vm_compute. reflexivity. }
  { vm_compute. discriminate. }
  exact Hpub.
Defined.

(** Sample 5 of channel 1 of the first frame lands in cell 133 of a
    buffer of two waveforms of 128 samples. *)
Lemma onFrame_stores_calibrated_samples_witness :
  (exists scale offset,
      eslo (example_running 128) !! 1%nat = Some scale /\
      eoff (example_running 128) !! 1%nat = Some offset /\
      pData_ after_1_frame !! 133
      = Some (PrimFloat.add (PrimFloat.mul scale (float_of_Z 1)) offset)) /\
  pData_ after_1_frame !! 64 = pData_ (example_running 128) !! 64.
Proof.
  destruct (@onFrame_stores_calibrated_samples spec_accumulator example_platform
              frame_ones (example_running 128) after_1_frame 128) as [Hin Hout].
  { vm_compute. reflexivity. }
  { vm_compute. reflexivity. }
  { vm_compute. discriminate. }
  { vm_compute. discriminate. }
  { vm_compute. discriminate. }
  split.
  - destruct (Hin 1 5) as (raw & yy & scale & offset & Hraw & Hyy & Hs & Ho & Hcell).
    { vm_compute. split; [discriminate|reflexivity]. }
    { vm_compute. split; [discriminate|reflexivity]. }
    exists scale, offset. split; [exact Hs|]. split; [exact Ho|].
    assert (yy = 1) as <-.
    { injection Hraw as <-. injection Hyy as <-. reflexivity. }
    exact Hcell.
  - apply Hout. intros ic Hic.
    assert (Hcur : cursor (example_running 128) = 0) by reflexivity.
    assert (Hn : nchan (example_running 128) = 2) by reflexivity.
    rewrite Hcur. rewrite Hn in Hic. change (@FRAME_SAMPLES example_platform) with 64. lia.
Defined.

Lemma example_running_ready : @ready spec_accumulator 128 100 2 (example_running 128).
Proof.
  split; [vm_compute; reflexivity|]. split; [vm_compute; reflexivity|].
  split; [reflexivity|]. split; vm_compute; lia.
Qed.

Lemma example_full_frame ssn ch0 ch1 :
  length ch0 = 64%nat -> length ch1 = 64%nat ->
  @full_frame example_platform 2 (example_frame ssn ch0 ch1).
Proof.
  intros H0 H1 ic Hic. assert (Hcase : ic = 0 \/ ic = 1) by lia.
  destruct Hcase as [-> | ->]; unfold raw_samples; simpl.
  - rewrite H0. reflexivity.
  - rewrite H1. reflexivity.
Qed.

(** Channel 0 with 60 zeros, a sample of 5 and three more zeros holds
    63 zeros: the frame ends the process; a frame without zeros is
    processed to the end. *)
Lemma onFrame_faults_on_zero_count_witness :
  (exists s', xonFrame frame_60_zeros_5_zeros (example_running 128) = Exited 1 s') /\
  (exists s', xonFrame frame_ones (example_running 128) = Ok tt s').
Proof.
  split.
  - apply (@onFrame_faults_on_zero_count spec_accumulator example_platform
             frame_60_zeros_5_zeros 128 100 2 (example_running 128)).
    + exact example_running_ready.
    + discriminate.
    + reflexivity.
    + now apply example_full_frame.
    + exists 0. split; [lia|]. vm_compute. reflexivity.
  - apply (@onFrame_faults_on_zero_count spec_accumulator example_platform
             frame_ones 128 100 2 (example_running 128)).
    + exact example_running_ready.
    + discriminate.
    + reflexivity.
    + now apply example_full_frame.
    + intros ic Hic. assert (Hcase : ic = 0 \/ ic = 1) by lia.
      destruct Hcase as [-> | ->]; vm_compute; discriminate.
Defined.

(** Eighty zeros in a row on channel 0, forty at the end of one frame
    and forty at the start of the next, raise no fault. *)
Lemma zero_count_is_per_frame_witness :
  exists s',
    @perform_all spec_accumulator example_platform
      (map CallOnFrame [frame_zeros_at_end; frame_zeros_at_start]) (example_running 128)
    = Ok tt s'.
Proof.
  apply (@zero_count_is_per_frame spec_accumulator example_platform
           [frame_zeros_at_end; frame_zeros_at_start] 128 100 2 (example_running 128)).
  - exact example_running_ready.
  - discriminate.
  - reflexivity.
  - constructor; [now apply example_full_frame|].
    constructor; [now apply example_full_frame|constructor].
  - constructor; [|constructor; [|constructor]];
      intros ic Hic; assert (Hcase : ic = 0 \/ ic = 1) by lia;
      destruct Hcase as [-> | ->]; vm_compute; discriminate.
Defined.

(** With a period of 200 samples the first frame of 64 leaves the
    scalars alone; with a period of 50 it publishes them, channel 0
    then channel 1. *)
Lemma scalars_follow_accumulator_witness :
  (exists s',
      xonFrame frame_ones (example_running 128) = Ok tt s' /\
      param_callbacks (trace s') = param_callbacks (trace (example_running 128)) /\
      getDoubleParam 1 P_Scalar s' = None) /\
  (exists s',
      xonFrame frame_ones example_fast = Ok tt s' /\
      param_callbacks (trace s') = param_callbacks (trace example_fast) ++ [0; 1] /\
      getDoubleParam 1 P_Scalar s'
      = Some (ra_scalar 1 (acc (converted example_fast)))).
Proof.
  split.
  - exists after_1_frame.
    destruct (@scalars_follow_accumulator spec_accumulator example_platform
                frame_ones (example_running 128) after_1_frame 128 100)
      as (s1 & Hconv & Hif).
    { vm_compute. reflexivity. }
    { vm_compute. reflexivity. }
    { vm_compute. reflexivity. }
    assert (Hs1 : s1 = converted (example_running 128)).
    { unfold converted. now rewrite Hconv. }
    subst s1. cbv zeta in Hif.
    replace (fst (acc_update_timestamp (Z.quot NSPS 100)
                    (acc (converted (example_running 128))))) with false in Hif
      by (vm_compute; reflexivity).
    destruct Hif as (Hsame & _ & Hcb).
    split; [vm_compute; reflexivity|]. split.
    + rewrite Hcb. apply app_nil_r.
    + rewrite Hsame. vm_compute. reflexivity.
  - set (s' := final (xonFrame frame_ones example_fast) example_fast).
    exists s'.
    destruct (@scalars_follow_accumulator spec_accumulator example_platform
                frame_ones example_fast s' 128 400)
      as (s1 & Hconv & Hif).
    { vm_compute. reflexivity. }
    { vm_compute. reflexivity. }
    { vm_compute. reflexivity. }
    assert (Hs1 : s1 = converted example_fast).
    { unfold converted. now rewrite Hconv. }
    subst s1. cbv zeta in Hif.
    replace (fst (acc_update_timestamp (Z.quot NSPS 400)
                    (acc (converted example_fast)))) with true in Hif
      by (vm_compute; reflexivity).
    destruct Hif as (Hget & _ & Hcb).
    split; [vm_compute; reflexivity|]. split.
    + rewrite Hcb. reflexivity.
    + rewrite (Hget 1) by (vm_compute; split; [discriminate|reflexivity]).
      reflexivity.
Defined.

(** A driver made for 100 points, a client that writes 200 to maxPoints,
    and a read of 150 elements of the time base. *)
Lemma written_maxPoints_overruns_time_base_witness :
  exists s',
    @writeInt32 spec_accumulator example_platform P_MaxPoints 200
      (@Acq164Device spec_accumulator 100 2) = Ok asynSuccess s' /\
    length (pTimeBase_ s') = 100%nat /\
    @readFloat64Array spec_accumulator P_TimeBase example_buffer 150 s' = Undefined.
Proof.
  destruct (@written_maxPoints_overruns_time_base spec_accumulator example_platform
              100 2 200 150 example_buffer) as (s' & Hrun & _ & Hlen & Hread).
  { unfold INT_MAX. lia. }
  { unfold INT_MIN, INT_MAX. lia. }
  { right. lia. }
  { lia. }
  exists s'. split; [exact Hrun|]. split; [exact Hlen|exact Hread].
Defined.

(** The two-channel driver on a card that reports three ranges is
    calibrated, with one scale and one offset per channel; on a card that
    reports two it is not. *)
Lemma compute_cal_needs_every_range_witness :
  (exists s',
      @compute_cal spec_accumulator (example_card ST_STOP) (example_device 128) = Ok tt s' /\
      length (eslo s') = 2%nat /\ length (eoff s') = 2%nat) /\
  @compute_cal spec_accumulator
    {| card_state := Some ST_STOP; card_ranges := take 2 example_ranges |}
    (example_device 128) = Undefined.
Proof.
  destruct (@compute_cal_needs_every_range spec_accumulator
              (example_card ST_STOP) (example_device 128)) as (Hiff & _ & Hres).
  { vm_compute. discriminate. }
  destruct (@compute_cal_needs_every_range spec_accumulator
              {| card_state := Some ST_STOP; card_ranges := take 2 example_ranges |}
              (example_device 128)) as (_ & Hundef & _).
  { vm_compute. discriminate. }
  split.
  - destruct (proj2 Hiff) as (s' & Hs').
    + right. vm_compute. reflexivity.
    + exists s'. split; [exact Hs'|].
      destruct (Hres s' Hs') as (Hel & Heo & _). rewrite Hel, Heo. split; reflexivity.
  - apply Hundef. intros [H0|H1].
    + vm_compute in H0. discriminate.
    + vm_compute in H1. discriminate.
Defined.

(** On a card that does not report its state [task] ends the process
    without a command; on an idle card it sends the four commands. *)
Lemma task_arms_idle_card_witness :
  (exists s', xtask silent_card [frame_ones] (example_device 128) = Exited 1 s' /\
              commands (trace s') = []) /\
  (exists s2,
      @setup spec_accumulator (example_card ST_STOP) calibrated = Ok tt s2 /\
      commands (trace s2)
      = ["set.dtacq channel_mask 1"%string; "set.acq164.role MASTER 20"%string;
         "setMode SOFT_CONTINUOUS 1"%string; "setArm"%string]).
Proof.
  split.
  - destruct (@task_arms_idle_card spec_accumulator example_platform
                silent_card [frame_ones] (example_device 128) calibrated) as [Hnone _].
    { vm_compute. reflexivity. }
    eexists. split; [apply Hnone; reflexivity|]. vm_compute. reflexivity.
  - destruct (@task_arms_idle_card spec_accumulator example_platform
                (example_card ST_STOP) [frame_ones] (example_device 128) calibrated)
      as [_ Hidle].
    { vm_compute. reflexivity. }
    destruct Hidle as (s2 & Hsetup & Hcmd & _); [reflexivity|].
    exists s2. split; [exact Hsetup|]. rewrite Hcmd. vm_compute. reflexivity.
Defined.

(** The version 1.2.3 read into a record of size 4 arrives as 1.2 and a
    NUL, with a length of 4; read into a record of size 8 it arrives
    whole, with a length of 6. *)
Lemma read_string_truncates_and_terminates_witness :
  devacq164Version.read_string devacq164Version.example_version
    (devacq164Version.example_record 4)
  = Some (0, {| devacq164Version.val :=
                  [Byte.x31; Byte.x2e; Byte.x32; Byte.x00;
                   Byte.xff; Byte.xff; Byte.xff; Byte.xff];
                devacq164Version.sizv := 4;
                devacq164Version.len := 4 |}) /\
  devacq164Version.read_string devacq164Version.example_version
    (devacq164Version.example_record 8)
  = Some (0, {| devacq164Version.val :=
                  [Byte.x31; Byte.x2e; Byte.x32; Byte.x2e; Byte.x33; Byte.x00;
                   Byte.xff; Byte.xff];
                devacq164Version.sizv := 8;
                devacq164Version.len := 6 |}).
Proof.
  split.
  - etransitivity.
    + apply (read_string_truncates_and_terminates devacq164Version.example_version
               (devacq164Version.example_record 4)).
      * simpl. lia.
      * simpl. lia.
    + reflexivity.
  - etransitivity.
    + apply (read_string_truncates_and_terminates devacq164Version.example_version
               (devacq164Version.example_record 8)).
      * simpl. lia.
      * simpl. lia.
    + reflexivity.
Defined.

(** A record of size 0. *)
Lemma read_string_needs_room_witness :
  devacq164Version.read_string devacq164Version.example_version
    (devacq164Version.example_record 0) = None.
Proof.
  apply (read_string_needs_room devacq164Version.example_version
           (devacq164Version.example_record 0)).
  - reflexivity.
  - simpl. lia.
Defined.

(** * Where the source departs from the specification *)

(** C2, as stated, fails: with the card already running, [task] prints
    the line of [setup], enters the streaming loop and the frame handler
    processes the frame the transport delivers (it stores 64 samples per
    channel and advances the cursor). *)
Lemma not_idle_card_still_streams :
  card_state running_card = Some ST_RUN /\
  exists s',
    xtask running_card [frame_ones] (example_device 128) = Ok tt s' /\
    printed stderr (trace s')
    = [("card state:%d let it run, or abort if you want it to be reconfigured\n"%string,
        [ArgState ST_RUN])] /\
    streaming_entered (trace s') = true /\
    length (stores (trace s')) = 128%nat /\
    cursor s' = 64.
Proof.
  split; [reflexivity|].
  exists (final (xtask running_card [frame_ones] (example_device 128)) (example_device 128)).
  split; [vm_compute; reflexivity|].
  split; [vm_compute; reflexivity|].
  split; [vm_compute; reflexivity|].
  split; vm_compute; reflexivity.
Qed.

(** C3, as stated, fails on the channel index: a frame whose channel 0
    is stuck and a frame whose channel 1 is stuck (the last sample stored
    before the fault belongs to channel 0 in the first run and to
    channel 1 in the second) end the process with the same output. *)
Lemma stuck_diagnostic_omits_channel :
  exists s0 s1,
    xonFrame frame_stuck0 (example_running 128) = Exited 1 s0 /\
    xonFrame frame_stuck1 (example_running 128) = Exited 1 s1 /\
    fst <$> last (stores (trace s0)) = Some 0 /\
    fst <$> last (stores (trace s1)) = Some 1 /\
    printed stdout (trace s0) = printed stdout (trace s1) /\
    printed stderr (trace s0) = printed stderr (trace s1).
Proof.
  exists (final (xonFrame frame_stuck0 (example_running 128)) (example_running 128)),
         (final (xonFrame frame_stuck1 (example_running 128)) (example_running 128)).
  split; [vm_compute; reflexivity|].
  split; [vm_compute; reflexivity|].
  split; [vm_compute; reflexivity|].
  split; [vm_compute; reflexivity|].
  split; vm_compute; reflexivity.
Qed.

(** C1: the counter of zeros is never reset.  61 zeros in a row raise the
    fault and 60 zeros followed by non-zero samples do not, but 60 zeros,
    a sample of 5 and one more zero raise it too: the fault is printed
    after the first 61 samples are stored, at the 62nd. *)
Theorem zero_counter_is_not_reset :
  (exists s', xonFrame frame_61_zeros (example_running 128) = Exited 1 s') /\
  (exists s', xonFrame frame_60_zeros (example_running 128) = Ok tt s') /\
  (exists s',
      xonFrame frame_60_zeros_5_zeros (example_running 128) = Exited 1 s' /\
      stores (trace s') = map (fun id => (0, id)) (seqZ 0 61) /\
      printed stdout (trace s')
      = [("%s zeros detected at %lld\n"%string, [ArgS "onFrame"; ArgI 4096])]).
Proof.
  split; [|split].
  - exists (final (xonFrame frame_61_zeros (example_running 128)) (example_running 128)).
    vm_compute. reflexivity.
  - exists (final (xonFrame frame_60_zeros (example_running 128)) (example_running 128)).
    vm_compute. reflexivity.
  - exists (final (xonFrame frame_60_zeros_5_zeros (example_running 128))
              (example_running 128)).
    split; [vm_compute; reflexivity|].
    split; vm_compute; reflexivity.
Qed.

(** C7, as stated, is not what the code guarantees.  On a driver made
    for 100 points and two channels the constructor allocates 200 cells
    for the waveform buffer.  Two frames of 64 samples do not fit 100
    points: the frame handler tests the cursor against maxPoints only
    after it has stored the samples, so the second frame stores the
    samples of channel 1 in cells 200 to 227, past the end of the
    buffer, before the waveforms are published and a client reads the
    time base.  Nothing keeps such a write away from the time base,
    the array the constructor allocates next. *)
Theorem frame_stores_past_waveform_buffer :
  state_of (@perform_all spec_accumulator example_platform example_calls
              (@Acq164Device spec_accumulator 100 2)) = Some after_calls /\
  @pData_cells 100 2 = 200 /\
  stores_beyond 200 (trace after_calls) = map (fun idx => (1, idx)) (seqZ 200 28) /\
  array_callbacks P_Waveform (trace after_calls) = [0; 1].
Proof.
  split; [vm_compute; reflexivity|]. split; [reflexivity|].
  split; vm_compute; reflexivity.
Qed.

